(** * Offline sale buffer and sync controller of the point-of-sale page

    Shallow embedding of [src/pages/Sales.tsx]: the remote commit
    ([processSaleMutation]), the sync controller ([syncOfflineSales]) and the
    checkout handlers ([proceedToPayment], [completeSale], [resetSale]).

    The component runs on one UI thread.  An [async] function is a
    state-passing computation over a [World] that either returns or throws;
    where interleaving at [await] points matters, the sync pass and the
    checkout are also given as resumable machines ([PassK], [SaleK]) and
    related to the direct definitions.  A handler closes over the state of
    the render that built it: the captured values are explicit arguments,
    and the [Page] machine keeps track of which render's callback the window
    listeners hold. *)

From Stdlib Require Import String Ascii List ZArith Bool Arith Lia.
From Stdlib Require Import Decimal DecimalString DecimalZ DecimalNat.
From Stdlib Require Import Sorted Permutation.
Import ListNotations.
Local Open Scope string_scope.
Local Open Scope list_scope.

Set Implicit Arguments.

(* ================================================================== *)
(** ** Data model (the interfaces at the top of Sales.tsx)              *)
(* ================================================================== *)

(** JavaScript numbers.  Quantities, stock levels, counts and clock readings
    are integers in this program and are modelled by [Z].  Unit prices and
    amounts are binary64 values in the source; they are carried as [Z] as
    well, which agrees with the source wherever binary64 arithmetic is exact
    (integral amounts below 2^53, as in the sample data); what is stated
    about sums and products of amounts is to be read with that proviso, and
    nothing is stated about rounding. *)
Definition number := Z.

Record InventoryItem := {
  inv_id : string;
  inv_item_name : string;
  inv_category : string;
  inv_quantity : number;
  inv_unit_price : number;
  inv_is_available : bool
}.

(** [interface CartItem extends InventoryItem { cart_quantity: number; }] *)
Record CartItem := {
  ci_item : InventoryItem;
  ci_cart_quantity : number
}.

Record Customer := {
  c_name : string;
  c_phone : string;
  c_email : string;
  c_address : string
}.

Record CompanyInfo := {
  co_name : string;
  co_address : string;
  co_phone : string;
  co_email : string;
  co_upi_id : option string
}.

Record BillItem := {
  id : string;
  item_name : string;
  cart_quantity : number;
  unit_price : number;
  total_price : number
}.

Inductive PaymentMethod := cash | online.

Record BillData := {
  billId : string;
  items : list BillItem;
  customer : Customer;
  subtotal : number;
  finalAmount : number;
  notes : string;
  timestamp : Z;
  companyInfo : CompanyInfo;
  paymentMethod : PaymentMethod;
  userId : string
}.

(** The row handed to [supabase.from('sales').insert]. *)
Record SaleRow := {
  user_id : string;
  customer_name : string;
  customer_phone : string;
  total_amount : number;
  row_items : list BillItem;
  bill_data : BillData
}.

Record User := { uid : string }.

(** What [useAuth()] gives the component. *)
Record Auth := {
  user : option User;
  isAdmin : bool
}.

Definition defaultCompanyInfo : CompanyInfo := {|
  co_name := "Sri Lakshmi Supermarket";
  co_address := "#45, Main Road, V.V. Nagar, Mandya, Karnataka - 571401";
  co_phone := "+91 98765 43210";
  co_email := "contact@srilakshmisupermarket.com";
  co_upi_id := Some "srilakshmi-supermarket@okaxis"
|}.

(** Template-literal rendering of an integer ([`${n}`]). *)
Definition string_of_Z (z : Z) : string := NilEmpty.string_of_int (Z.to_int z).
Definition string_of_nat (n : nat) : string := string_of_Z (Z.of_nat n).

(* ================================================================== *)
(** ** Component state, stores and observable effects                   *)
(* ================================================================== *)

Record Dialogs := {
  payment : bool;
  success : bool;
  history : bool
}.

(** The [useState] cells of the component that the handlers touch. *)
Record Ui := {
  cart : list CartItem;
  customerForm : Customer;
  notesField : string;
  searchTerm : string;
  activeTab : string;
  dialogs : Dialogs;
  completedBill : option BillData;
  paymentBillId : string;
  isOffline : bool;
  isSyncing : bool;
  pendingSaleCount : nat
}.

Inductive ToastMsg :=
| ToastSyncing (n : nat)
| ToastSyncComplete (successCount : nat)
| ToastSavedOffline
| ToastTransactionFailed (message : string)
| ToastEmptyCart
| ToastCustomerInfoMissing
| ToastBackOnline
| ToastOffline.

Definition toast_title (t : ToastMsg) : string :=
  match t with
  | ToastSyncing _ => "Syncing..."
  | ToastSyncComplete _ => "Sync Complete"
  | ToastSavedOffline => "Sale Saved Offline"
  | ToastTransactionFailed _ => "Transaction Failed"
  | ToastEmptyCart => "Empty Cart"
  | ToastCustomerInfoMissing => "Customer Info Missing"
  | ToastBackOnline => "You are back online!"
  | ToastOffline => "You are offline"
  end.

Definition toast_description (t : ToastMsg) : string :=
  match t with
  | ToastSyncing n => "Uploading " ++ string_of_nat n ++ " offline sale(s)."
  | ToastSyncComplete n => string_of_nat n ++ " sale(s) successfully synced."
  | ToastSavedOffline => "This sale will be synced when you're back online."
  | ToastTransactionFailed message => message
  | ToastEmptyCart => "Please add items first."
  | ToastCustomerInfoMissing => "Please enter customer phone number."
  | ToastBackOnline => "Checking for pending sales..."
  | ToastOffline => "Sales will be saved locally."
  end.

(** [variant: "destructive"] marks a toast that reports a failure. *)
Definition toast_destructive (t : ToastMsg) : bool :=
  match t with
  | ToastTransactionFailed _ | ToastEmptyCart | ToastCustomerInfoMissing
  | ToastOffline => true
  | _ => false
  end.

Inductive QueryKey :=
| QKadminInventory
| QKsalesHistory (uid : option string) (isAdmin : bool).

(** Calls that leave the component, in program order. *)
Inductive Event :=
| EvGetOfflineSales (result : list BillData)
| EvSaveSaleOffline (billData : BillData) (stored : bool)
| EvDeleteSyncedSale (billId : string)
| EvInsertSale (row : SaleRow) (error : option string)
| EvDecrementStock (item_id : string) (decrement_quantity : number)
                   (error : option string)
| EvInvalidateQueries (key : QueryKey)
| EvToast (t : ToastMsg)
| EvConsoleError (message : string) (error : string)
| EvConsoleWarn (message : string).

Record World := {
  ui : Ui;
  (* local durable store behind offlineUtils *)
  storage_ok : bool;
  buffer : list BillData;
  (* hosted backend *)
  sales : list SaleRow;
  decrements : list (string * number);
  (* effects so far, oldest first *)
  trace : list Event
}.

(** Answers of the hosted backend to the calls of one remote commit:
    [None] is success, [Some message] is the [error.message] returned. *)
Record Backend := {
  insert_error : BillData -> option string;
  stock_error : string -> number -> option string
}.

(* ------------------------------------------------------------------ *)
(** *** State updates                                                   *)

Definition with_ui (f : Ui -> Ui) (w : World) : World :=
  {| ui := f (ui w); storage_ok := storage_ok w; buffer := buffer w;
     sales := sales w; decrements := decrements w; trace := trace w |}.

Definition with_buffer (f : list BillData -> list BillData) (w : World) : World :=
  {| ui := ui w; storage_ok := storage_ok w; buffer := f (buffer w);
     sales := sales w; decrements := decrements w; trace := trace w |}.

Definition with_sales (f : list SaleRow -> list SaleRow) (w : World) : World :=
  {| ui := ui w; storage_ok := storage_ok w; buffer := buffer w;
     sales := f (sales w); decrements := decrements w; trace := trace w |}.

Definition with_decrements (f : list (string * number) -> list (string * number))
    (w : World) : World :=
  {| ui := ui w; storage_ok := storage_ok w; buffer := buffer w;
     sales := sales w; decrements := f (decrements w); trace := trace w |}.

Definition with_trace (f : list Event -> list Event) (w : World) : World :=
  {| ui := ui w; storage_ok := storage_ok w; buffer := buffer w;
     sales := sales w; decrements := decrements w; trace := f (trace w) |}.

Definition put_isSyncing (b : bool) (u : Ui) : Ui :=
  {| cart := cart u; customerForm := customerForm u; notesField := notesField u;
     searchTerm := searchTerm u; activeTab := activeTab u; dialogs := dialogs u;
     completedBill := completedBill u; paymentBillId := paymentBillId u;
     isOffline := isOffline u; isSyncing := b;
     pendingSaleCount := pendingSaleCount u |}.

Definition put_pendingSaleCount (n : nat) (u : Ui) : Ui :=
  {| cart := cart u; customerForm := customerForm u; notesField := notesField u;
     searchTerm := searchTerm u; activeTab := activeTab u; dialogs := dialogs u;
     completedBill := completedBill u; paymentBillId := paymentBillId u;
     isOffline := isOffline u; isSyncing := isSyncing u;
     pendingSaleCount := n |}.

Definition put_dialogs (d : Dialogs) (u : Ui) : Ui :=
  {| cart := cart u; customerForm := customerForm u; notesField := notesField u;
     searchTerm := searchTerm u; activeTab := activeTab u; dialogs := d;
     completedBill := completedBill u; paymentBillId := paymentBillId u;
     isOffline := isOffline u; isSyncing := isSyncing u;
     pendingSaleCount := pendingSaleCount u |}.

Definition put_completedBill (b : option BillData) (u : Ui) : Ui :=
  {| cart := cart u; customerForm := customerForm u; notesField := notesField u;
     searchTerm := searchTerm u; activeTab := activeTab u; dialogs := dialogs u;
     completedBill := b; paymentBillId := paymentBillId u;
     isOffline := isOffline u; isSyncing := isSyncing u;
     pendingSaleCount := pendingSaleCount u |}.

Definition put_paymentBillId (s : string) (u : Ui) : Ui :=
  {| cart := cart u; customerForm := customerForm u; notesField := notesField u;
     searchTerm := searchTerm u; activeTab := activeTab u; dialogs := dialogs u;
     completedBill := completedBill u; paymentBillId := s;
     isOffline := isOffline u; isSyncing := isSyncing u;
     pendingSaleCount := pendingSaleCount u |}.

Definition put_activeTab (s : string) (u : Ui) : Ui :=
  {| cart := cart u; customerForm := customerForm u; notesField := notesField u;
     searchTerm := searchTerm u; activeTab := s; dialogs := dialogs u;
     completedBill := completedBill u; paymentBillId := paymentBillId u;
     isOffline := isOffline u; isSyncing := isSyncing u;
     pendingSaleCount := pendingSaleCount u |}.

(* ================================================================== *)
(** ** Async computations                                               *)
(* ================================================================== *)

Inductive Outcome (A : Type) :=
| Returned (a : A)
| Thrown (message : string).
Arguments Thrown {A} message.

Definition Async (A : Type) := World -> Outcome A * World.

Definition ret {A} (a : A) : Async A := fun w => (Returned a, w).

Definition throw {A} (message : string) : Async A := fun w => (Thrown message, w).

Definition bind {A B} (m : Async A) (k : A -> Async B) : Async B :=
  fun w =>
    match m w with
    | (Returned a, w') => k a w'
    | (Thrown e, w') => (Thrown e, w')
    end.

Definition try_catch {A} (body : Async A) (handler : string -> Async A) : Async A :=
  fun w =>
    match body w with
    | (Returned a, w') => (Returned a, w')
    | (Thrown e, w') => handler e w'
    end.

Declare Scope async_scope.
Delimit Scope async_scope with async.
Notation "x <- m ;; k" := (bind m (fun x => k))
  (at level 61, m at next level, right associativity) : async_scope.
Notation "m ;; k" := (bind m (fun _ => k))
  (at level 61, right associativity) : async_scope.
Local Open Scope async_scope.

Definition modify (f : World -> World) : Async unit := fun w => (Returned tt, f w).

Definition emit (e : Event) : Async unit :=
  modify (with_trace (fun t => t ++ [e])).

Definition toast (t : ToastMsg) : Async unit := emit (EvToast t).

Definition setIsSyncing (b : bool) : Async unit := modify (with_ui (put_isSyncing b)).
Definition setPendingSaleCount (n : nat) : Async unit :=
  modify (with_ui (put_pendingSaleCount n)).
Definition setDialogs (d : Dialogs) : Async unit := modify (with_ui (put_dialogs d)).
Definition setCompletedBill (b : option BillData) : Async unit :=
  modify (with_ui (put_completedBill b)).
Definition setPaymentBillId (s : string) : Async unit :=
  modify (with_ui (put_paymentBillId s)).
Definition setActiveTab (s : string) : Async unit :=
  modify (with_ui (put_activeTab s)).

(** [for (const x of l) { body x }] *)
Fixpoint for_of {A} (l : list A) (body : A -> Async unit) : Async unit :=
  match l with
  | [] => ret tt
  | x :: rest => body x ;; for_of rest body
  end.

(* ================================================================== *)
(** ** The offline buffer ([@/utils/offlineUtils])                      *)
(* ================================================================== *)

Definition storage_error : string := "offline storage unavailable".

Definition same_bill (billId' : string) (b : BillData) : bool :=
  String.eqb (billId b) billId'.

(** Overwrite semantics keyed by [billId]: a record already stored under the
    key keeps its place, a new key goes to the end of the enumeration. *)
Fixpoint store_put (b : BillData) (l : list BillData) : list BillData :=
  match l with
  | [] => [b]
  | x :: rest => if same_bill (billId b) x then b :: rest else x :: store_put b rest
  end.

Definition store_remove (billId' : string) (l : list BillData) : list BillData :=
  filter (fun x => negb (same_bill billId' x)) l.

(** Modelled from the spec: [saveSaleOffline] of the absent module
    [utils/offlineUtils] (section 4.1, [save]): inserts the record keyed by
    [billId] with overwrite semantics, and fails loudly when the underlying
    storage is unavailable. *)
Definition saveSaleOffline (billData : BillData) : Async unit :=
  fun w =>
    if storage_ok w
    then emit (EvSaveSaleOffline billData true)
           (with_buffer (store_put billData) w)
    else (emit (EvSaveSaleOffline billData false) ;; throw storage_error) w.

(** Modelled from the spec: [getOfflineSales] of the absent module
    [utils/offlineUtils] (section 4.1, [listPending]): returns the buffered
    records in a stable enumeration order without changing the store, and
    degrades to the empty list when the storage is unavailable. *)
Definition getOfflineSales : Async (list BillData) :=
  fun w =>
    let result := if storage_ok w then buffer w else [] in
    (r <- emit (EvGetOfflineSales result) ;; ret result) w.

(** Modelled from the spec: [deleteSyncedSale] of the absent module
    [utils/offlineUtils] (section 4.1, [remove]): deletes exactly the record
    with that identifier, a no-op when it is absent or when the storage is
    unavailable; it never throws. *)
Definition deleteSyncedSale (billId' : string) : Async unit :=
  fun w =>
    emit (EvDeleteSyncedSale billId')
      (if storage_ok w then with_buffer (store_remove billId') w else w).

(* ================================================================== *)
(** ** Remote commit: [processSaleMutation]                             *)
(* ================================================================== *)

Definition row_of (billData : BillData) : SaleRow := {|
  user_id := userId billData;
  customer_name := c_name (customer billData);
  customer_phone := c_phone (customer billData);
  total_amount := finalAmount billData;
  row_items := items billData;
  bill_data := billData
|}.

(** [await supabase.from('sales').insert([...])], returning [error]. *)
Definition supabase_insert_sale (be : Backend) (billData : BillData)
  : Async (option string) :=
  let saleError := insert_error be billData in
  emit (EvInsertSale (row_of billData) saleError) ;;
  match saleError with
  | None => modify (with_sales (fun s => s ++ [row_of billData]))
  | Some _ => ret tt
  end ;;
  ret saleError.

(** [await supabase.rpc('decrement_stock', {item_id, decrement_quantity})]. *)
Definition supabase_rpc_decrement_stock (be : Backend) (item_id : string)
    (decrement_quantity : number) : Async (option string) :=
  let stockError := stock_error be item_id decrement_quantity in
  emit (EvDecrementStock item_id decrement_quantity stockError) ;;
  match stockError with
  | None => modify (with_decrements (fun d => d ++ [(item_id, decrement_quantity)]))
  | Some _ => ret tt
  end ;;
  ret stockError.

Definition console_warn (message : string) : Async unit := emit (EvConsoleWarn message).
Definition console_error (message error : string) : Async unit :=
  emit (EvConsoleError message error).

Definition mutationFn (be : Backend) (billData : BillData) : Async unit :=
  saleError <- supabase_insert_sale be billData ;;
  match saleError with
  | Some message => throw ("Transaction failed: " ++ message)
  | None =>
      for_of (items billData) (fun item =>
        stockError <- supabase_rpc_decrement_stock be (id item) (cart_quantity item) ;;
        match stockError with
        | Some message =>
            console_warn ("Could not decrement stock for " ++ item_name item
                          ++ ": " ++ message)
        | None => ret tt
        end)
  end.

Definition onSuccess (auth : Auth) : Async unit :=
  emit (EvInvalidateQueries QKadminInventory) ;;
  emit (EvInvalidateQueries
          (QKsalesHistory (option_map uid (user auth)) (isAdmin auth))).

(** [processSaleMutation.mutateAsync(billData)]: the promise rejects with the
    error of [mutationFn], and resolves after [onSuccess] otherwise. *)
Definition mutateAsync (auth : Auth) (be : Backend) (billData : BillData)
  : Async unit :=
  mutationFn be billData ;; onSuccess auth.

(* ================================================================== *)
(** ** Sync controller: [syncOfflineSales]                              *)
(* ================================================================== *)

Definition logged_in (auth : Auth) : bool :=
  match user auth with Some _ => true | None => false end.

(** The [try { ... } catch (error) { ... }] body of the loop for one record;
    the result is the updated local [successCount]. *)
Definition sync_one (auth : Auth) (be : Backend) (billData : BillData)
    (successCount : nat) : Async nat :=
  try_catch
    (mutateAsync auth be billData ;;
     deleteSyncedSale (billId billData) ;;
     ret (S successCount))
    (fun error =>
       console_error ("Failed to sync sale " ++ billId billData ++ ":") error ;;
       ret successCount).

(** [for (const billData of pendingSales) { ... }] with its counter. *)
Fixpoint sync_loop (auth : Auth) (be : Backend) (pendingSales : list BillData)
    (successCount : nat) : Async nat :=
  match pendingSales with
  | [] => ret successCount
  | billData :: rest =>
      successCount' <- sync_one auth be billData successCount ;;
      sync_loop auth be rest successCount'
  end.

(** One call of the callback.  [seen_isSyncing] and [auth] are the values of
    [isSyncing] and [user] captured by the render that created the callback
    ([useCallback] lists both as dependencies). *)
Definition syncOfflineSales (seen_isSyncing : bool) (auth : Auth) (be : Backend)
  : Async unit :=
  if seen_isSyncing || negb (logged_in auth) then ret tt
  else
    setIsSyncing true ;;
    pendingSales <- getOfflineSales ;;
    setPendingSaleCount (length pendingSales) ;;
    if Nat.eqb (length pendingSales) 0 then setIsSyncing false
    else
      toast (ToastSyncing (length pendingSales)) ;;
      successCount <- sync_loop auth be pendingSales 0 ;;
      (if Nat.ltb 0 successCount then toast (ToastSyncComplete successCount)
       else ret tt) ;;
      remaining <- getOfflineSales ;;
      setPendingSaleCount (length remaining) ;;
      setIsSyncing false.

(** A call through the callback of the current render, which has captured
    the committed [isSyncing]: the call the effect makes at line 172 when it
    runs for that render, or a listener registered by that run.  A listener
    that has not been replaced since the flag changed calls
    [syncOfflineSales] with the older value instead; the [Page] machine
    below has both. *)
Definition trigger (auth : Auth) (be : Backend) : Async unit :=
  fun w => syncOfflineSales (isSyncing (ui w)) auth be w.

(** A run of sync passes, one per backend answer sheet, each started from the
    idle controller. *)
Fixpoint sync_passes (auth : Auth) (bes : list Backend) (w : World) : World :=
  match bes with
  | [] => w
  | be :: rest => sync_passes auth rest (snd (trigger auth be w))
  end.

(* ------------------------------------------------------------------ *)
(** *** The pass as a resumable machine                                 *)

(** Where a pass is suspended: each constructor is one [await]. *)
Inductive PassK :=
| KSnapshot
    (* line 127: awaiting the first getOfflineSales() *)
| KCommit (todo : list BillData) (successCount : nat)
    (* loop head: mutateAsync on the head of [todo] is next *)
| KDelete (billData : BillData) (rest : list BillData) (successCount : nat)
    (* line 140: mutateAsync resolved, deleteSyncedSale is next *)
| KRequery
    (* line 151: awaiting the second getOfflineSales() *).

(** Lines 125-126: the guard and raising the flag. *)
Definition pass_begin (seen_isSyncing : bool) (auth : Auth) : Async (option PassK) :=
  if seen_isSyncing || negb (logged_in auth) then ret None
  else setIsSyncing true ;; ret (Some KSnapshot).

(** Runs a suspended pass up to its next [await]; [None] when it returned. *)
Definition pass_step (auth : Auth) (be : Backend) (k : PassK) : Async (option PassK) :=
  match k with
  | KSnapshot =>
      pendingSales <- getOfflineSales ;;
      setPendingSaleCount (length pendingSales) ;;
      if Nat.eqb (length pendingSales) 0 then setIsSyncing false ;; ret None
      else toast (ToastSyncing (length pendingSales)) ;;
           ret (Some (KCommit pendingSales 0))
  | KCommit [] successCount =>
      (if Nat.ltb 0 successCount then toast (ToastSyncComplete successCount)
       else ret tt) ;;
      ret (Some KRequery)
  | KCommit (billData :: rest) successCount =>
      try_catch
        (mutateAsync auth be billData ;;
         ret (Some (KDelete billData rest successCount)))
        (fun error =>
           console_error ("Failed to sync sale " ++ billId billData ++ ":") error ;;
           ret (Some (KCommit rest successCount)))
  | KDelete billData rest successCount =>
      try_catch
        (deleteSyncedSale (billId billData) ;;
         ret (Some (KCommit rest (S successCount))))
        (fun error =>
           console_error ("Failed to sync sale " ++ billId billData ++ ":") error ;;
           ret (Some (KCommit rest successCount)))
  | KRequery =>
      remaining <- getOfflineSales ;;
      setPendingSaleCount (length remaining) ;;
      setIsSyncing false ;;
      ret None
  end.

(** Lines 260-262: what an offline checkout does to the buffer and the
    pending count. *)
Definition save_offline (billData : BillData) : Async unit :=
  saveSaleOffline billData ;;
  modify (with_ui (fun u => put_pendingSaleCount (pendingSaleCount u + 1) u)) ;;
  toast ToastSavedOffline.

(** [n] resumptions of one pass with nothing in between. *)
Fixpoint resume_n (n : nat) (auth : Auth) (be : Backend) (k : option PassK)
  : Async (option PassK) :=
  match n, k with
  | S n', Some k' => k'' <- pass_step auth be k' ;; resume_n n' auth be k''
  | _, _ => ret k
  end.

(** The event loop around the controller when every call comes through the
    callback of the current render: suspended passes and the world. *)
Record Pass := { p_auth : Auth; p_k : PassK }.

Record Sys := {
  world : World;
  passes : list Pass
}.

Inductive Action :=
| ATrigger (auth : Auth)
    (* syncOfflineSales() of the current render is called: line 172, or a
       listener that the effect has registered for this render *)
| AResume (i : nat) (be : Backend)
    (* the awaited promise of the i-th suspended pass settles *)
| ASaveOffline (billData : BillData)
    (* an offline checkout saves a sale while passes are suspended *).

Fixpoint replace_nth {A} (i : nat) (x : A) (l : list A) : list A :=
  match l, i with
  | [], _ => []
  | _ :: rest, O => x :: rest
  | y :: rest, S i' => y :: replace_nth i' x rest
  end.

Fixpoint remove_nth {A} (i : nat) (l : list A) : list A :=
  match l, i with
  | [], _ => []
  | _ :: rest, O => rest
  | y :: rest, S i' => y :: remove_nth i' rest
  end.

Definition sys_step (a : Action) (s : Sys) : Sys :=
  match a with
  | ATrigger auth =>
      match pass_begin (isSyncing (ui (world s))) auth (world s) with
      | (Returned (Some k), w') =>
          {| world := w'; passes := passes s ++ [{| p_auth := auth; p_k := k |}] |}
      | (_, w') => {| world := w'; passes := passes s |}
      end
  | AResume i be =>
      match nth_error (passes s) i with
      | None => s
      | Some p =>
          match pass_step (p_auth p) be (p_k p) (world s) with
          | (Returned (Some k'), w') =>
              {| world := w';
                 passes := replace_nth i {| p_auth := p_auth p; p_k := k' |} (passes s) |}
          | (_, w') => {| world := w'; passes := remove_nth i (passes s) |}
          end
      end
  | ASaveOffline billData =>
      {| world := snd (save_offline billData (world s)); passes := passes s |}
  end.

Definition run (acts : list Action) (s : Sys) : Sys :=
  fold_left (fun s a => sys_step a s) acts s.

(** Runs the actions for as long as a pass is in flight. *)
Fixpoint run_burst (acts : list Action) (s : Sys) : Sys :=
  match acts with
  | [] => s
  | a :: rest =>
      match passes s with
      | [] => s
      | _ :: _ => run_burst rest (sys_step a s)
      end
  end.

(* ================================================================== *)
(** ** Checkout handlers                                                *)
(* ================================================================== *)

(** [cartTotals]: [cart.reduce((sum, item) => sum + qty * price, 0)]. *)
Definition cartTotals_subtotal (cart' : list CartItem) : number :=
  fold_left
    (fun sum item => (sum + ci_cart_quantity item * inv_unit_price (ci_item item))%Z)
    cart' 0%Z.

Definition cartTotals_finalAmount (cart' : list CartItem) : number :=
  cartTotals_subtotal cart'.

Definition bill_item_of (item : CartItem) : BillItem := {|
  id := inv_id (ci_item item);
  item_name := inv_item_name (ci_item item);
  cart_quantity := ci_cart_quantity item;
  unit_price := inv_unit_price (ci_item item);
  total_price := (ci_cart_quantity item * inv_unit_price (ci_item item))%Z
|}.

(** [a || b] on strings: the empty string is falsy. *)
Definition or_else (a b : string) : string :=
  match a with EmptyString => b | _ => a end.

Definition is_empty (s : string) : bool :=
  match s with EmptyString => true | _ => false end.

(** [proceedToPayment]; [c] is the state of the render the handler closes
    over and [now] the reading of [Date.now()]. *)
Definition proceedToPayment (c : Ui) (now : Z) : Async unit :=
  if Nat.eqb (length (cart c)) 0 then toast ToastEmptyCart
  else if is_empty (c_phone (customerForm c)) then
    toast ToastCustomerInfoMissing ;;
    setActiveTab "customer"
  else
    setPaymentBillId ("INV-" ++ string_of_Z now) ;;
    setDialogs {| payment := true; success := success (dialogs c);
                  history := history (dialogs c) |}.

(** The [billData] literal built at the top of [completeSale]. *)
Definition make_billData (c : Ui) (u : User) (paymentMethod' : PaymentMethod)
    (now : Z) : BillData := {|
  billId := paymentBillId c;
  items := map bill_item_of (cart c);
  customer := {| c_name := or_else (c_name (customerForm c)) "Walk-in Customer";
                 c_phone := c_phone (customerForm c);
                 c_email := c_email (customerForm c);
                 c_address := c_address (customerForm c) |};
  subtotal := cartTotals_subtotal (cart c);
  finalAmount := cartTotals_finalAmount (cart c);
  notes := notesField c;
  timestamp := now;
  companyInfo := defaultCompanyInfo;
  paymentMethod := paymentMethod';
  userId := uid u
|}.

(** [completeSale(paymentMethod)]; [c] and [auth] are the values the handler
    closes over, so [{...dialogs, success: false}] spreads [dialogs c].
    [user!.id] throws a TypeError when no user is signed in. *)
Definition completeSale (auth : Auth) (c : Ui) (paymentMethod' : PaymentMethod)
    (now : Z) (be : Backend) : Async unit :=
  match user auth with
  | None => throw "TypeError: Cannot read properties of null (reading 'id')"
  | Some u =>
      let billData := make_billData c u paymentMethod' now in
      setCompletedBill (Some billData) ;;
      setDialogs {| payment := false; success := true; history := false |} ;;
      if isOffline c then save_offline billData
      else
        try_catch
          (mutateAsync auth be billData)
          (fun message =>
             toast (ToastTransactionFailed message) ;;
             setDialogs {| payment := payment (dialogs c); success := false;
                           history := history (dialogs c) |})
  end.

Definition emptyCustomer : Customer :=
  {| c_name := ""; c_phone := ""; c_email := ""; c_address := "" |}.

Definition resetSale : Async unit :=
  modify (with_ui (fun u =>
    {| cart := []; customerForm := emptyCustomer; notesField := "";
       searchTerm := ""; activeTab := "cart"; dialogs := dialogs u;
       completedBill := None; paymentBillId := paymentBillId u;
       isOffline := isOffline u; isSyncing := isSyncing u;
       pendingSaleCount := pendingSaleCount u |})).

(* ================================================================== *)
(** ** Reading the trace                                                *)
(* ================================================================== *)

(** Bills handed to the remote insert, in call order. *)
Fixpoint attempts (evs : list Event) : list BillData :=
  match evs with
  | [] => []
  | EvInsertSale row _ :: rest => bill_data row :: attempts rest
  | _ :: rest => attempts rest
  end.

(** Bills whose remote insert succeeded, in call order. *)
Fixpoint commits (evs : list Event) : list BillData :=
  match evs with
  | [] => []
  | EvInsertSale row None :: rest => bill_data row :: commits rest
  | _ :: rest => commits rest
  end.

(** Identifiers passed to [deleteSyncedSale], in call order. *)
Fixpoint deletes (evs : list Event) : list string :=
  match evs with
  | [] => []
  | EvDeleteSyncedSale i :: rest => i :: deletes rest
  | _ :: rest => deletes rest
  end.

(** Results of the [getOfflineSales] calls, in call order. *)
Fixpoint snapshots (evs : list Event) : list (list BillData) :=
  match evs with
  | [] => []
  | EvGetOfflineSales r :: rest => r :: snapshots rest
  | _ :: rest => snapshots rest
  end.

(** The counts announced by 'Sync Complete' toasts. *)
Fixpoint sync_complete_counts (evs : list Event) : list nat :=
  match evs with
  | [] => []
  | EvToast (ToastSyncComplete n) :: rest => n :: sync_complete_counts rest
  | _ :: rest => sync_complete_counts rest
  end.

Fixpoint toasts (evs : list Event) : list ToastMsg :=
  match evs with
  | [] => []
  | EvToast t :: rest => t :: toasts rest
  | _ :: rest => toasts rest
  end.

(** [decrement_stock] calls, in call order. *)
Fixpoint stock_attempts (evs : list Event) : list (string * number) :=
  match evs with
  | [] => []
  | EvDecrementStock i q _ :: rest => (i, q) :: stock_attempts rest
  | _ :: rest => stock_attempts rest
  end.

Fixpoint warnings (evs : list Event) : list string :=
  match evs with
  | [] => []
  | EvConsoleWarn m :: rest => m :: warnings rest
  | _ :: rest => warnings rest
  end.

Fixpoint console_errors (evs : list Event) : list (string * string) :=
  match evs with
  | [] => []
  | EvConsoleError m e :: rest => (m, e) :: console_errors rest
  | _ :: rest => console_errors rest
  end.

Definition count_id (i : string) (l : list string) : nat :=
  count_occ string_dec l i.

(** The visible content of the buffer: what [getOfflineSales] would return. *)
Definition pending (w : World) : list BillData :=
  if storage_ok w then buffer w else [].

Definition ids (l : list BillData) : list string := map billId l.

(* ================================================================== *)
(** ** Closed forms, invariants and sample data                         *)
(* ================================================================== *)

(** What the stock loop of [mutationFn] emits and applies for a list of
    line items. *)
Definition stock_line_events (be : Backend) (item : BillItem) : list Event :=
  let err := stock_error be (id item) (cart_quantity item) in
  EvDecrementStock (id item) (cart_quantity item) err ::
  match err with
  | Some message =>
      [EvConsoleWarn ("Could not decrement stock for " ++ item_name item
                      ++ ": " ++ message)]
  | None => []
  end.

Definition stock_events (be : Backend) (its : list BillItem) : list Event :=
  flat_map (stock_line_events be) its.

Definition stock_applied (be : Backend) (its : list BillItem) : list (string * number) :=
  flat_map (fun item =>
              match stock_error be (id item) (cart_quantity item) with
              | None => [(id item, cart_quantity item)]
              | Some _ => []
              end) its.

(** The body of the [for (const item of billData.items)] loop of
    [mutationFn], named. *)
Definition stock_body (be : Backend) (item : BillItem) : Async unit :=
  stockError <- supabase_rpc_decrement_stock be (id item) (cart_quantity item) ;;
  match stockError with
  | Some message =>
      console_warn ("Could not decrement stock for " ++ item_name item
                    ++ ": " ++ message)
  | None => ret tt
  end.

(** Events of a successful [mutateAsync]. *)
Definition commit_events (auth : Auth) (be : Backend) (b : BillData) : list Event :=
  EvInsertSale (row_of b) None :: stock_events be (items b) ++
  [EvInvalidateQueries QKadminInventory;
   EvInvalidateQueries (QKsalesHistory (option_map uid (user auth)) (isAdmin auth))].

Definition insert_ok (be : Backend) (b : BillData) : bool :=
  match insert_error be b with None => true | Some _ => false end.

(** Events of one iteration of the loop. *)
Definition one_events (auth : Auth) (be : Backend) (b : BillData) : list Event :=
  match insert_error be b with
  | None => commit_events auth be b ++ [EvDeleteSyncedSale (billId b)]
  | Some m =>
      [EvInsertSale (row_of b) (Some m);
       EvConsoleError ("Failed to sync sale " ++ billId b ++ ":")
                      ("Transaction failed: " ++ m)]
  end.

Definition loop_events (auth : Auth) (be : Backend) (l : list BillData) : list Event :=
  flat_map (one_events auth be) l.

(** Removing every record whose identifier is in [gone]. *)
Definition remove_all (gone : list string) (l : list BillData) : list BillData :=
  filter (fun x => negb (existsb (String.eqb (billId x)) gone)) l.

Definition synced (be : Backend) (l : list BillData) : list BillData :=
  filter (insert_ok be) l.

(** Events of one complete, uninterrupted pass from world [w]. *)
Definition pass_events (auth : Auth) (be : Backend) (w : World) : list Event :=
  let snap := pending w in
  match snap with
  | [] => [EvGetOfflineSales []]
  | _ :: _ =>
      EvGetOfflineSales snap :: EvToast (ToastSyncing (length snap)) ::
      loop_events auth be snap ++
      (if Nat.ltb 0 (length (synced be snap))
       then [EvToast (ToastSyncComplete (length (synced be snap)))] else []) ++
      [EvGetOfflineSales (remove_all (ids (synced be snap)) snap)]
  end.

(** The world a complete, uninterrupted pass leaves behind. *)
Definition after_pass (auth : Auth) (be : Backend) (w : World) : World :=
  let snap := pending w in
  {| ui := put_isSyncing false
             (put_pendingSaleCount
                (length (remove_all (ids (synced be snap)) snap)) (ui w));
     storage_ok := storage_ok w;
     buffer := remove_all (ids (synced be snap)) (buffer w);
     sales := sales w ++ map row_of (synced be snap);
     decrements := decrements w
                   ++ flat_map (fun b => stock_applied be (items b)) (synced be snap);
     trace := trace w ++ pass_events auth be w |}.

(** The controller is idle, the store is reachable and keyed by [billId]. *)
Definition ready (w : World) : Prop :=
  isSyncing (ui w) = false /\ storage_ok w = true /\ NoDup (ids (buffer w)).

Fixpoint passes_events (auth : Auth) (bes : list Backend) (w : World) : list Event :=
  match bes with
  | [] => []
  | be :: rest => pass_events auth be w ++ passes_events auth rest (after_pass auth be w)
  end.

(** Sample data: one bill of 250 for two bags of rice, a signed-in cashier,
    an idle screen. *)
Definition demo_item : BillItem :=
  {| id := "item-rice"; item_name := "Rice 1kg"; cart_quantity := 2%Z;
     unit_price := 125%Z; total_price := 250%Z |}.

Definition demo_customer : Customer :=
  {| c_name := "Walk-in Customer"; c_phone := "9000000001"; c_email := "";
     c_address := "" |}.

Definition demo_bill (i : string) : BillData :=
  {| billId := i; items := [demo_item]; customer := demo_customer;
     subtotal := 250%Z; finalAmount := 250%Z; notes := ""; timestamp := 1000%Z;
     companyInfo := defaultCompanyInfo; paymentMethod := cash; userId := "u-1" |}.

Definition demo_auth : Auth := {| user := Some {| uid := "u-1" |}; isAdmin := false |}.

Definition demo_ui : Ui :=
  {| cart := []; customerForm := emptyCustomer; notesField := ""; searchTerm := "";
     activeTab := "cart";
     dialogs := {| payment := false; success := false; history := false |};
     completedBill := None; paymentBillId := ""; isOffline := false;
     isSyncing := false; pendingSaleCount := 0 |}.

(** The same screen while the terminal is offline, with one item in the
    cart and the payment dialog open under bill INV-1000. *)
Definition demo_cart_item : CartItem :=
  {| ci_item := {| inv_id := "item-rice"; inv_item_name := "Rice 1kg";
                   inv_category := "Grocery"; inv_quantity := 40%Z;
                   inv_unit_price := 125%Z; inv_is_available := true |};
     ci_cart_quantity := 2%Z |}.

Definition demo_offline_ui : Ui :=
  {| cart := [demo_cart_item]; customerForm := demo_customer; notesField := "";
     searchTerm := ""; activeTab := "cart";
     dialogs := {| payment := true; success := false; history := false |};
     completedBill := None; paymentBillId := "INV-1000"; isOffline := true;
     isSyncing := false; pendingSaleCount := 0 |}.

Definition demo_world (buf : list BillData) : World :=
  {| ui := demo_ui; storage_ok := true; buffer := buf; sales := [];
     decrements := []; trace := [] |}.

(** A backend that accepts everything, one that rejects every insert, and
    one that rejects the insert of a single bill. *)
Definition be_ok : Backend :=
  {| insert_error := fun _ => None; stock_error := fun _ _ => None |}.

Definition be_down : Backend :=
  {| insert_error := fun _ => Some "Failed to fetch";
     stock_error := fun _ _ => Some "Failed to fetch" |}.

Definition be_reject (i : string) : Backend :=
  {| insert_error := fun b => if String.eqb (billId b) i
                              then Some "Failed to fetch" else None;
     stock_error := fun _ _ => None |}.

(** The [console.error] lines a loop over [l] writes: one per failing record. *)
Definition failures (be : Backend) (l : list BillData) : list (string * string) :=
  flat_map (fun b =>
              match insert_error be b with
              | Some m => [(("Failed to sync sale " ++ billId b ++ ":")%string,
                            ("Transaction failed: " ++ m)%string)]
              | None => []
              end) l.

(** The [console.warn] lines of the stock loop: one per failing line. *)
Definition stock_warnings (be : Backend) (its : list BillItem) : list string :=
  flat_map (fun item =>
              match stock_error be (id item) (cart_quantity item) with
              | Some message =>
                  [("Could not decrement stock for " ++ item_name item
                    ++ ": " ++ message)%string]
              | None => []
              end) its.

Definition new_toasts (w w' : World) : list ToastMsg :=
  toasts (skipn (length (trace w)) (trace w')).

Definition world_of (c : Ui) : World :=
  {| ui := c; storage_ok := true; buffer := []; sales := []; decrements := [];
     trace := [] |}.

(** A second till: another cart and another customer. *)
Definition demo_till2 : Ui :=
  {| cart := [ {| ci_item := {| inv_id := "item-milk"; inv_item_name := "Milk 1l";
                                inv_category := "Dairy"; inv_quantity := 12%Z;
                                inv_unit_price := 30%Z; inv_is_available := true |};
                  ci_cart_quantity := 1%Z |} ];
     customerForm := {| c_name := "Ravi"; c_phone := "9000000002"; c_email := "";
                        c_address := "" |};
     notesField := ""; searchTerm := ""; activeTab := "cart";
     dialogs := {| payment := false; success := false; history := false |};
     completedBill := None; paymentBillId := ""; isOffline := false;
     isSyncing := false; pendingSaleCount := 0 |}.

(** Lines 147-153 applied to the world [wl] the loop left, with the final
    value [n] of [successCount]. *)
Definition finish_world (n : nat) (wl : World) : World :=
  {| ui := put_isSyncing false (put_pendingSaleCount (length (pending wl)) (ui wl));
     storage_ok := storage_ok wl; buffer := buffer wl; sales := sales wl;
     decrements := decrements wl;
     trace := trace wl ++ (if Nat.ltb 0 n then [EvToast (ToastSyncComplete n)] else [])
              ++ [EvGetOfflineSales (pending wl)] |}.

(** At most one suspended pass, and the flag is up while there is one. *)
Definition single (s : Sys) : Prop :=
  match passes s with
  | [] => True
  | [_] => isSyncing (ui (world s)) = true
  | _ :: _ :: _ => False
  end.

(** [evs] are the events since the pass was triggered and [k] is where the
    pass is suspended ([None]: it has returned).  The first buffer read is
    the snapshot; the attempts made so far are a prefix of it, in order;
    every commit is followed by its own delete before the next attempt;
    [successCount] is the number of deletes made. *)
Definition in_order (evs : list Event) (k : option PassK) : Prop :=
  match k with
  | Some KSnapshot =>
      snapshots evs = [] /\ attempts evs = [] /\ commits evs = [] /\
      deletes evs = [] /\ sync_complete_counts evs = []
  | Some (KCommit todo n) =>
      exists snap,
        snapshots evs = [snap] /\ snap = attempts evs ++ todo /\
        deletes evs = ids (commits evs) /\ n = length (deletes evs) /\
        sync_complete_counts evs = []
  | Some (KDelete b rest n) =>
      exists snap,
        snapshots evs = [snap] /\ snap = attempts evs ++ rest /\
        ids (commits evs) = deletes evs ++ [billId b] /\ n = length (deletes evs) /\
        sync_complete_counts evs = []
  | Some KRequery =>
      exists snap,
        snapshots evs = [snap] /\ snap = attempts evs /\
        deletes evs = ids (commits evs) /\
        sync_complete_counts evs =
          (if Nat.ltb 0 (length (deletes evs)) then [length (deletes evs)] else [])
  | None =>
      exists snap later,
        snapshots evs = snap :: later /\ length later <= 1 /\
        snap = attempts evs /\ deletes evs = ids (commits evs) /\
        sync_complete_counts evs =
          (if Nat.ltb 0 (length (deletes evs)) then [length (deletes evs)] else [])
  end.

(** Events that are none of the sync controller's calls. *)
Definition quiet (x : list Event) : Prop :=
  snapshots x = [] /\ attempts x = [] /\ commits x = [] /\ deletes x = [] /\
  sync_complete_counts x = [].

(** The state of a burst: [t0] is the trace when the trigger fired. *)
Definition burst_inv (t0 : list Event) (s : Sys) : Prop :=
  exists evs,
    trace (world s) = t0 ++ evs /\
    match passes s with
    | [] => in_order evs None
    | [p] => isSyncing (ui (world s)) = true /\ in_order evs (Some (p_k p))
    | _ :: _ :: _ => False
    end.

(** The store is keyed by [billId] and so is everything read from it. *)
Definition keyed (t0 : list Event) (s : Sys) : Prop :=
  NoDup (ids (buffer (world s))) /\
  exists evs,
    trace (world s) = t0 ++ evs /\
    Forall (fun snap => NoDup (ids snap)) (snapshots evs).

(** Two 'online' events in a row while two sales are buffered, with a third
    sale saved offline during the pass. *)
Definition demo_sys : Sys :=
  {| world := demo_world [demo_bill "INV-1000"; demo_bill "INV-1001"]; passes := [] |}.

Definition demo_actions : list Action :=
  [ATrigger demo_auth; ATrigger demo_auth; AResume 0 be_ok; ATrigger demo_auth;
   AResume 0 be_ok; ASaveOffline (demo_bill "INV-1002"); AResume 0 be_ok;
   AResume 0 (be_reject "INV-1001"); ATrigger demo_auth; AResume 0 be_ok;
   AResume 0 be_ok].

(** The pass has just returned: the count shown is the size of the buffer as
    read by the last call, and the flag is down. *)
Definition completed (w : World) : Prop :=
  pendingSaleCount (ui w) = length (pending w) /\
  isSyncing (ui w) = false /\
  exists t, trace w = t ++ [EvGetOfflineSales (pending w)].

(* ================================================================== *)
(** ** Cart handlers: [addToCart], [updateCartQuantity]                 *)
(* ================================================================== *)

(** The destructive toasts of the cart handlers. *)
Inductive CartNotice :=
| NoticeItemUnavailable (item_name : string)
| NoticeOutOfStock (item_name : string)
| NoticeStockLimit (available : number).

Definition notice_title (n : CartNotice) : string :=
  match n with
  | NoticeItemUnavailable _ => "Item Unavailable"
  | NoticeOutOfStock _ => "Out of Stock"
  | NoticeStockLimit _ => "Stock Limit Reached"
  end.

Definition notice_description (n : CartNotice) : string :=
  match n with
  | NoticeItemUnavailable name => name ++ " is currently not available for sale."
  | NoticeOutOfStock name => "No more units of " ++ name ++ " available."
  | NoticeStockLimit q => "Only " ++ string_of_Z q ++ " units available."
  end.

(** [i.id] of a cart line. *)
Definition cart_id (i : CartItem) : string := inv_id (ci_item i).

(** [inventoryItems.find(i => i.id === itemId)] *)
Definition find_inventory (inventoryItems : list InventoryItem) (itemId : string)
  : option InventoryItem :=
  find (fun i => String.eqb (inv_id i) itemId) inventoryItems.

(** [cart.find(i => i.id === itemId)] *)
Definition find_cart (cart' : list CartItem) (itemId : string) : option CartItem :=
  find (fun i => String.eqb (cart_id i) itemId) cart'.

(** [cart.map(i => i.id === itemId ? { ...i, cart_quantity: q i } : i)] *)
Definition set_quantity (itemId : string) (q : CartItem -> number)
    (cart' : list CartItem) : list CartItem :=
  map (fun i => if String.eqb (cart_id i) itemId
                then {| ci_item := ci_item i; ci_cart_quantity := q i |}
                else i) cart'.

(** [addToCart(itemId)] over the [inventoryItems] and the [cart] the handler
    closes over: the cart passed to [setCart] (the old one when [setCart] is
    not called) and the toast shown, if any. *)
Definition addToCart (inventoryItems : list InventoryItem) (cart' : list CartItem)
    (itemId : string) : list CartItem * option CartNotice :=
  match find_inventory inventoryItems itemId with
  | None => (cart', None)
  | Some itemToAdd =>
      if negb (inv_is_available itemToAdd)
      then (cart', Some (NoticeItemUnavailable (inv_item_name itemToAdd)))
      else
        let existingItem := find_cart cart' itemId in
        let availableStock :=
          (inv_quantity itemToAdd
           - match existingItem with
             | Some e => ci_cart_quantity e
             | None => 0
             end)%Z in
        if (availableStock <=? 0)%Z
        then (cart', Some (NoticeOutOfStock (inv_item_name itemToAdd)))
        else
          match existingItem with
          | Some _ =>
              (set_quantity itemId (fun i => (ci_cart_quantity i + 1)%Z) cart', None)
          | None =>
              (cart' ++ [{| ci_item := itemToAdd; ci_cart_quantity := 1%Z |}], None)
          end
  end.

(** [updateCartQuantity(itemId, newQuantity)], likewise. *)
Definition updateCartQuantity (inventoryItems : list InventoryItem)
    (cart' : list CartItem) (itemId : string) (newQuantity : number)
  : list CartItem * option CartNotice :=
  let inventoryItem := find_inventory inventoryItems itemId in
  if (newQuantity <=? 0)%Z
  then (filter (fun i => negb (String.eqb (cart_id i) itemId)) cart', None)
  else
    match inventoryItem with
    | Some it =>
        if (inv_quantity it <? newQuantity)%Z
        then (cart', Some (NoticeStockLimit (inv_quantity it)))
        else (set_quantity itemId (fun _ => newQuantity) cart', None)
    | None => (set_quantity itemId (fun _ => newQuantity) cart', None)
    end.


Definition sum_Z (l : list Z) : Z := fold_right Z.add 0%Z l.

(** A cart whose lines have distinct ids, at least one unit each, and no
    more units than the inventory holds of the item. *)
Definition cart_ok (inventoryItems : list InventoryItem) (cart' : list CartItem)
  : Prop :=
  NoDup (map cart_id cart') /\
  forall i, In i cart' ->
    (0 < ci_cart_quantity i)%Z /\
    forall it, find_inventory inventoryItems (cart_id i) = Some it ->
      (ci_cart_quantity i <= inv_quantity it)%Z.

(** Sample shelf and carts. *)
Definition demo_rice : InventoryItem :=
  {| inv_id := "item-rice"; inv_item_name := "Rice 1kg"; inv_category := "Grocery";
     inv_quantity := 2%Z; inv_unit_price := 125%Z; inv_is_available := true |}.

Definition demo_milk : InventoryItem :=
  {| inv_id := "item-milk"; inv_item_name := "Milk 1l"; inv_category := "Dairy";
     inv_quantity := 12%Z; inv_unit_price := 30%Z; inv_is_available := true |}.

Definition demo_shelf : list InventoryItem := [demo_rice; demo_milk].

Definition demo_cart : list CartItem :=
  [{| ci_item := demo_rice; ci_cart_quantity := 1%Z |};
   {| ci_item := demo_milk; ci_cart_quantity := 3%Z |}].

(** [setIsOffline(b)], as the 'online' and 'offline' listeners call it. *)
Definition put_isOffline (b : bool) (u : Ui) : Ui :=
  {| cart := cart u; customerForm := customerForm u; notesField := notesField u;
     searchTerm := searchTerm u; activeTab := activeTab u; dialogs := dialogs u;
     completedBill := completedBill u; paymentBillId := paymentBillId u;
     isOffline := b; isSyncing := isSyncing u;
     pendingSaleCount := pendingSaleCount u |}.

(* ================================================================== *)
(** ** The history panel: [CustomerHistoryPanel]                        *)
(* ================================================================== *)

(** [interface Sale] of the history query; [profiles] holds the cashier's
    e-mail when the row was read by an admin. *)
Record Sale := {
  sale_id : string;
  sale_created_at : string;
  sale_customer_name : string;
  sale_customer_phone : string;
  sale_total_amount : number;
  sale_items : list BillItem;
  sale_bill_data : option BillData;
  sale_profiles : option string
}.

(** The values of the [Map<string, { name, sales }>] of [customerGroups]. *)
Record CustomerGroup := {
  group_name : string;
  group_sales : list Sale
}.

(** A JavaScript [Map] with string keys: the entries in insertion order. *)
Definition GroupMap := list (string * CustomerGroup).

Definition map_has (groups : GroupMap) (k : string) : bool :=
  existsb (fun e => String.eqb (fst e) k) groups.

(** [groups.set(k, g)]: a present key keeps its place, a new one goes last. *)
Fixpoint map_set (k : string) (g : CustomerGroup) (groups : GroupMap) : GroupMap :=
  match groups with
  | [] => [(k, g)]
  | (k', g') :: rest =>
      if String.eqb k' k then (k', g) :: rest else (k', g') :: map_set k g rest
  end.

(** [groups.get(k)!.sales.push(sale)]: the group object is updated in place. *)
Fixpoint map_push (k : string) (sale : Sale) (groups : GroupMap) : GroupMap :=
  match groups with
  | [] => []
  | (k', g') :: rest =>
      if String.eqb k' k
      then (k', {| group_name := group_name g';
                   group_sales := group_sales g' ++ [sale] |}) :: rest
      else (k', g') :: map_push k sale rest
  end.

(** The body of [salesHistory.forEach(sale => { ... })]. *)
Definition add_sale (groups : GroupMap) (sale : Sale) : GroupMap :=
  if is_empty (sale_customer_phone sale) then groups
  else
    let groups1 :=
      if map_has groups (sale_customer_phone sale) then groups
      else map_set (sale_customer_phone sale)
             {| group_name := sale_customer_name sale; group_sales := [] |} groups in
    map_push (sale_customer_phone sale) sale groups1.

(** [Array.prototype.sort(compare)]: a stable sort, written as insertion
    sort; an element goes before the first one it does not compare greater
    than. *)
Fixpoint sort_insert {A} (compare : A -> A -> Z) (x : A) (l : list A) : list A :=
  match l with
  | [] => [x]
  | y :: rest =>
      if (compare x y <=? 0)%Z then x :: y :: rest
      else y :: sort_insert compare x rest
  end.

Definition array_sort {A} (compare : A -> A -> Z) (l : list A) : list A :=
  fold_right (sort_insert compare) [] l.

(** [s.includes(sub)] *)
Definition includes (s sub : string) : bool :=
  match String.index 0 sub s with Some _ => true | None => false end.

(** [group.sales[0].customer_phone]; a group of the panel always holds a
    sale, the empty case is never reached. *)
Definition group_phone (g : CustomerGroup) : string :=
  match group_sales g with
  | s :: _ => sale_customer_phone s
  | [] => ""
  end.

Section HistoryPanel.

(** [new Date(s).getTime()] and [s.toLowerCase()] of the JavaScript runtime. *)
Variable getTime : string -> Z.
Variable toLowerCase : string -> string.

(** [new Date(group.sales[0].created_at).getTime()] *)
Definition group_time (g : CustomerGroup) : Z :=
  match group_sales g with
  | s :: _ => getTime (sale_created_at s)
  | [] => 0%Z
  end.

(** The [useMemo] body of [customerGroups]. *)
Definition customerGroups (salesHistory : list Sale) (historySearch : string)
  : list CustomerGroup :=
  let groups := fold_left add_sale salesHistory [] in
  let sortedGroups :=
    array_sort (fun a b => (group_time b - group_time a)%Z) (map snd groups) in
  if is_empty historySearch then sortedGroups
  else
    filter (fun group =>
              includes (toLowerCase (group_name group)) (toLowerCase historySearch)
              || includes (group_phone group) historySearch)
           sortedGroups.

End HistoryPanel.

(** The sales of [history] made to phone number [k], in history order. *)
Definition sales_of (k : string) (history : list Sale) : list Sale :=
  filter (fun s => String.eqb (sale_customer_phone s) k) history.

(** What the map holds after the sales of [h] were processed: one entry per
    phone number seen, each with the sales of that number in history order
    and the name on the first of them. *)
Definition grouped (h : list Sale) (groups : GroupMap) : Prop :=
  NoDup (map fst groups) /\
  (forall k g, In (k, g) groups ->
     k <> "" /\ group_sales g = sales_of k h /\
     exists s rest, group_sales g = s :: rest /\
                    group_name g = sale_customer_name s) /\
  (forall s, In s h -> sale_customer_phone s <> "" ->
     In (sale_customer_phone s) (map fst groups)).

(** Sample history: two customers, one sale without a phone. *)
Definition demo_sale (i created phone name : string) : Sale :=
  {| sale_id := i; sale_created_at := created; sale_customer_name := name;
     sale_customer_phone := phone; sale_total_amount := 250%Z; sale_items := [];
     sale_bill_data := None; sale_profiles := None |}.

Definition demo_history : list Sale :=
  [demo_sale "s5" "5" "9000000001" "Asha";
   demo_sale "s4" "4" "" "Walk-in Customer";
   demo_sale "s3" "3" "9000000002" "Ravi";
   demo_sale "s2" "2" "9000000001" "Asha K";
   demo_sale "s1" "1" "9000000002" "Ravi"].

(** A clock for the sample: the decimal digit of the one-character date. *)
Definition demo_getTime (s : string) : Z :=
  match s with
  | String a EmptyString => Z.of_nat (nat_of_ascii a) - 48
  | _ => 0
  end.

(* ================================================================== *)
(** ** The inventory dashboard in the same file                         *)
(* ================================================================== *)

(** [interface InventoryItem] of the inventory dashboard (it has more fields
    than the one of the sales page). *)
Record Product := {
  p_id : string;
  p_user_id : option string;
  p_item_name : string;
  p_category : string;
  p_quantity : number;
  p_unit_price : number;
  p_cost_price : number;
  p_low_stock_threshold : number;
  p_is_available : bool;
  p_barcode : option string;
  p_hsn_code : option string;
  p_image_url : option string;
  p_description : option string;
  p_brand : option string;
  p_sku : option string;
  p_created_at : option string;
  p_updated_at : option string;
  p_profiles : option string
}.

Inductive StockStatus := Inactive | OutOfStock | LowStock | InStock.

Definition status_text (s : StockStatus) : string :=
  match s with
  | Inactive => "Inactive"
  | OutOfStock => "Out of Stock"
  | LowStock => "Low Stock"
  | InStock => "In Stock"
  end.

Definition status_color (s : StockStatus) : string :=
  match s with
  | Inactive => "gray"
  | OutOfStock => "rose"
  | LowStock => "amber"
  | InStock => "green"
  end.

(** [getStockStatus(item)] *)
Definition getStockStatus (item : Product) : StockStatus :=
  if negb (p_is_available item) then Inactive
  else if (p_quantity item =? 0)%Z then OutOfStock
  else if (p_quantity item <=? p_low_stock_threshold item)%Z then LowStock
  else InStock.

Record Stats := {
  totalItems : nat;
  lowStockItems : nat;
  outOfStockItems : nat
}.

(** The [useMemo] body of [InventoryStats]. *)
Definition inventory_stats (items' : list Product) : Stats := {|
  totalItems := length items';
  lowStockItems :=
    length (filter (fun item => p_is_available item
                                && (0 <? p_quantity item)%Z
                                && (p_quantity item <=? p_low_stock_threshold item)%Z)
                   items');
  outOfStockItems :=
    length (filter (fun item => p_is_available item && (p_quantity item =? 0)%Z)
                   items')
|}.

(** The [switch (activeTab)] of [filteredItems]. *)
Definition matchesTab (activeTab' : string) (item : Product) : bool :=
  if String.eqb activeTab' "active"
  then p_is_available item && (0 <? p_quantity item)%Z
  else if String.eqb activeTab' "low"
  then p_is_available item && (0 <? p_quantity item)%Z
       && (p_quantity item <=? p_low_stock_threshold item)%Z
  else if String.eqb activeTab' "out"
  then p_is_available item && (p_quantity item =? 0)%Z
  else if String.eqb activeTab' "inactive"
  then negb (p_is_available item)
  else true.

(** [x && x.f(...)] on a nullable string: null and the empty string are
    falsy. *)
Definition truthy_and (x : option string) (f : string -> bool) : bool :=
  match x with
  | Some s => negb (is_empty s) && f s
  | None => false
  end.

Section InventoryFilter.

Variable toLowerCase : string -> string.

(** The [useMemo] body of [filteredItems]. *)
Definition filteredItems (inventoryItems : list Product)
    (searchTerm' selectedCategory activeTab' : string) : list Product :=
  filter (fun item =>
            let matchesSearch :=
              includes (toLowerCase (p_item_name item)) (toLowerCase searchTerm')
              || truthy_and (p_barcode item) (fun s => includes s searchTerm')
              || truthy_and (p_sku item)
                   (fun s => includes (toLowerCase s) (toLowerCase searchTerm')) in
            let matchesCategory :=
              String.eqb selectedCategory "all"
              || String.eqb (p_category item) selectedCategory in
            matchesSearch && matchesCategory && matchesTab activeTab' item)
         inventoryItems.

End InventoryFilter.

(** Sample products. *)
Definition demo_product (i : string) (q threshold : number) (available : bool)
  : Product :=
  {| p_id := i; p_user_id := None; p_item_name := i; p_category := "Grocery";
     p_quantity := q; p_unit_price := 10%Z; p_cost_price := 8%Z;
     p_low_stock_threshold := threshold; p_is_available := available;
     p_barcode := None; p_hsn_code := None; p_image_url := None;
     p_description := None; p_brand := None; p_sku := None;
     p_created_at := None; p_updated_at := None; p_profiles := None |}.

Definition demo_products : list Product :=
  [demo_product "rice" 40%Z 10%Z true; demo_product "milk" 3%Z 5%Z true;
   demo_product "salt" 0%Z 5%Z true; demo_product "soap" 7%Z 5%Z false].

(* ================================================================== *)
(** ** The page around the controller: renders, listeners and passes    *)
(* ================================================================== *)

(** [syncOfflineSales] is a [useCallback] with [isSyncing] among its
    dependencies (line 154): each render builds a callback that closes over
    the [isSyncing] of that render.  The effect of lines 156-178 depends on
    the callback; when it runs it replaces the window listeners by ones that
    call the callback of its render, starts the read of line 171 and, when
    the browser is online, calls the callback itself (line 172).  Between a
    [setIsSyncing] and the next run of the effect the registered listeners
    still hold the callback of the previous render, with the previous
    [isSyncing]. *)

(** [updateOnlineStatus] (lines 157-165), the listener of both window
    events.  [onLine] is [navigator.onLine] when the event is handled and
    [seen_isSyncing] is what the [syncOfflineSales] held by the listener has
    captured.  The call of line 161 is not awaited: the listener returns when
    the pass has reached its first [await]. *)
Definition updateOnlineStatus (seen_isSyncing : bool) (auth : Auth) (onLine : bool)
  : Async (option PassK) :=
  modify (with_ui (put_isOffline (negb onLine))) ;;
  if onLine then toast ToastBackOnline ;; pass_begin seen_isSyncing auth
  else toast ToastOffline ;; ret None.

(** Line 171, [getOfflineSales().then(sales => setPendingSaleCount(sales.length))],
    from the moment the promise settles. *)
Definition initial_check : Async unit :=
  offline_sales <- getOfflineSales ;;
  setPendingSaleCount (length offline_sales).

(** The calls made between two worlds, oldest first. *)
Definition own_events (w w' : World) : list Event :=
  skipn (length (trace w)) (trace w').

(** A pass that was started: where it is suspended ([None] once its promise
    has settled) and the calls it has made itself so far. *)
Record Flight := {
  f_k : option PassK;
  f_log : list Event
}.

Record Page := {
  pworld : World;
  (* isSyncing inside the syncOfflineSales built by the last render *)
  rendered : bool;
  (* isSyncing inside the syncOfflineSales that the registered window
     listeners call; None until the effect has run once *)
  listener : option bool;
  (* reads of line 171 that have not settled yet *)
  checks : nat;
  (* every pass started so far, in the order they were started *)
  flights : list Flight
}.

Inductive Input :=
| IRender
    (* React renders the component with the committed state *)
| IEffect (onLine : bool)
    (* the effect of lines 156-178 runs for the last render *)
| IConnectivity (onLine : bool)
    (* the window fires 'online' or 'offline' *)
| ISettle (i : nat) (be : Backend)
    (* the promise awaited by the i-th pass settles *)
| ICheckSettles
    (* the promise of a line-171 read settles *)
| ISaveOffline (billData : BillData)
    (* an offline checkout saves a sale (lines 260-262) *).

Definition with_world (w : World) (p : Page) : Page :=
  {| pworld := w; rendered := rendered p; listener := listener p;
     checks := checks p; flights := flights p |}.

(** A call of [syncOfflineSales()] that is not awaited: the caller goes on
    when the pass has returned at the guard or is suspended at line 127. *)
Definition take_off (r : Outcome (option PassK) * World) (p : Page) : Page :=
  match r with
  | (Returned (Some k), w) =>
      {| pworld := w; rendered := rendered p; listener := listener p;
         checks := checks p;
         flights := flights p ++ [{| f_k := Some k; f_log := [] |}] |}
  | (_, w) => with_world w p
  end.

Definition settled (r : Outcome (option PassK)) : option PassK :=
  match r with
  | Returned k => k
  | Thrown _ => None
  end.

(** One turn of the event loop.  [auth] is what [useAuth()] gives during the
    run. *)
Definition page_step (auth : Auth) (a : Input) (p : Page) : Page :=
  match a with
  | IRender =>
      {| pworld := pworld p; rendered := isSyncing (ui (pworld p));
         listener := listener p; checks := checks p; flights := flights p |}
  | IEffect onLine =>
      let p' := {| pworld := pworld p; rendered := rendered p;
                   listener := Some (rendered p); checks := S (checks p);
                   flights := flights p |} in
      if onLine then take_off (pass_begin (rendered p) auth (pworld p)) p' else p'
  | IConnectivity onLine =>
      match listener p with
      | Some seen => take_off (updateOnlineStatus seen auth onLine (pworld p)) p
      | None => p
      end
  | ISettle i be =>
      match nth_error (flights p) i with
      | Some {| f_k := Some k; f_log := log |} =>
          let r := pass_step auth be k (pworld p) in
          {| pworld := snd r; rendered := rendered p; listener := listener p;
             checks := checks p;
             flights := replace_nth i
                          {| f_k := settled (fst r);
                             f_log := log ++ own_events (pworld p) (snd r) |}
                          (flights p) |}
      | _ => p
      end
  | ICheckSettles =>
      match checks p with
      | O => p
      | S n =>
          {| pworld := snd (initial_check (pworld p)); rendered := rendered p;
             listener := listener p; checks := n; flights := flights p |}
      end
  | ISaveOffline billData => with_world (snd (save_offline billData (pworld p))) p
  end.

Definition page_run (auth : Auth) (inputs : list Input) (p : Page) : Page :=
  fold_left (fun q a => page_step auth a q) inputs p.

(** The component after its first render, before its effect has run. *)
Definition first_render (w : World) : Page :=
  {| pworld := w; rendered := isSyncing (ui w); listener := None; checks := 0;
     flights := [] |}.

(** What a suspended pass still has to attempt, and the delete it is about
    to make. *)
Definition todo_of (k : option PassK) : list BillData :=
  match k with
  | Some (KCommit todo _) => todo
  | Some (KDelete _ rest _) => rest
  | _ => []
  end.

Definition deleting (k : option PassK) : list string :=
  match k with
  | Some (KDelete billData _ _) => [billId billData]
  | _ => []
  end.

(** An upper bound on the [await]s a pass has before it once it holds its
    snapshot. *)
Definition awaits_left (k : option PassK) : nat :=
  match k with
  | Some (KCommit todo _) => 2 * length todo + 2
  | Some (KDelete _ rest _) => 2 * length rest + 3
  | Some KRequery => 1
  | Some KSnapshot => 0
  | None => 0
  end.

(** How often the i-th pass is resumed by [inputs]. *)
Fixpoint settles (i : nat) (inputs : list Input) : nat :=
  match inputs with
  | [] => 0
  | ISettle j _ :: rest => (if Nat.eqb j i then 1 else 0) + settles i rest
  | _ :: rest => settles i rest
  end.

(** What a pass has done so far, read off its own calls [log], when it is
    suspended at [k]. *)
Definition flown (log : list Event) (k : option PassK) : Prop :=
  match k with
  | Some KSnapshot => log = []
  | _ =>
      exists snap evs,
        log = EvGetOfflineSales snap :: evs /\
        snap = attempts evs ++ todo_of k /\
        ids (commits evs) = deletes evs ++ deleting k /\
        match k with
        | None =>
            (snap = [] /\ evs = []) \/
            (snap <> [] /\
             exists before remaining,
               evs = before ++ [EvGetOfflineSales remaining] /\ snapshots before = [])
        | Some _ => snap <> [] /\ snapshots evs = []
        end
  end.

Definition all_flown (p : Page) : Prop :=
  Forall (fun f => flown (f_log f) (f_k f)) (flights p).

(** A run with a sale saved offline while the first pass is suspended. *)
Definition demo_inputs : list Input :=
  [IEffect true; IRender; IEffect true; ISettle 0 be_ok;
   ISaveOffline (demo_bill "INV-1002"); ISettle 0 be_ok; ISettle 0 be_ok].

Definition demo_page : Page :=
  first_render (demo_world [demo_bill "INV-1000"; demo_bill "INV-1001"]).

Definition demo_flight : Flight :=
  {| f_k := Some (KCommit [demo_bill "INV-1001"] 1);
     f_log := EvGetOfflineSales [demo_bill "INV-1000"; demo_bill "INV-1001"]
              :: EvToast (ToastSyncing 2)
              :: commit_events demo_auth be_ok (demo_bill "INV-1000")
              ++ [EvDeleteSyncedSale "INV-1000"] |}.

(** Two 'online' events handled by the same listeners, then both passes
    resumed to their end: first each takes its snapshot, then the first pass
    runs, then the second. *)
Definition overlap (be : Backend) (n : nat) : list Input :=
  [IConnectivity true; IConnectivity true; ISettle 0 be; ISettle 1 be]
  ++ repeat (ISettle 0 be) (2 * n + 2) ++ repeat (ISettle 1 be) (2 * n + 2).

(** The mounted page at rest: the effect has run for a render that saw
    [isSyncing = false] and nothing is in flight. *)
Definition mounted (w : World) : Page :=
  {| pworld := w; rendered := false; listener := Some false; checks := 0;
     flights := [] |}.

(* ------------------------------------------------------------------ *)
(** *** [completeSale] across its [await]                               *)

(** Where [completeSale] is suspended. *)
Inductive SaleK :=
| KSaving (billData : BillData)
    (* line 260: awaiting saveSaleOffline *)
| KCommitting (billData : BillData)
    (* line 265: awaiting mutateAsync *).

(** Lines 243-259 and the start of the awaited call: what [completeSale]
    does before it is suspended. *)
Definition completeSale_begin (auth : Auth) (c : Ui) (paymentMethod' : PaymentMethod)
    (now : Z) : Async SaleK :=
  match user auth with
  | None => throw "TypeError: Cannot read properties of null (reading 'id')"
  | Some u =>
      let billData := make_billData c u paymentMethod' now in
      setCompletedBill (Some billData) ;;
      setDialogs {| payment := false; success := true; history := false |} ;;
      ret (if isOffline c then KSaving billData else KCommitting billData)
  end.

(** The rest of [completeSale], from the moment the awaited promise
    settles. *)
Definition completeSale_resume (auth : Auth) (c : Ui) (be : Backend) (k : SaleK)
  : Async unit :=
  match k with
  | KSaving billData => save_offline billData
  | KCommitting billData =>
      try_catch
        (mutateAsync auth be billData)
        (fun message =>
           toast (ToastTransactionFailed message) ;;
           setDialogs {| payment := payment (dialogs c); success := false;
                         history := history (dialogs c) |})
  end.

(** The button of the success dialog (line 444):
    [setDialogs({...dialogs, success: false}); resetSale()], with the
    [dialogs] of the render that shows the dialog. *)
Definition startNewSale (c : Ui) : Async unit :=
  setDialogs {| payment := payment (dialogs c); success := false;
                history := history (dialogs c) |} ;;
  resetSale.

(** An online till with the sample cart, ready to check out. *)
Definition demo_online_ui : Ui :=
  {| cart := [demo_cart_item]; customerForm := demo_customer; notesField := "";
     searchTerm := ""; activeTab := "cart";
     dialogs := {| payment := false; success := false; history := false |};
     completedBill := None; paymentBillId := ""; isOffline := false;
     isSyncing := false; pendingSaleCount := 0 |}.

(* ================================================================== *)
(** ** Properties of the remote commit                                  *)
(* ================================================================== *)

Unset Implicit Arguments.

Section TraceProjections.

Ltac proj_app :=
  let l1 := fresh "l1" in
  let e := fresh "e" in
  let IH := fresh "IH" in
  intros l1; induction l1 as [|e l1 IH]; intros; simpl;
  [ reflexivity
  | destruct e; simpl; rewrite ?IH; try reflexivity;
    repeat match goal with
           | |- context [match ?x with _ => _ end] => destruct x; simpl
           end; rewrite ?IH; reflexivity ].

Lemma attempts_app : forall l1 l2, attempts (l1 ++ l2) = attempts l1 ++ attempts l2.
Proof. proj_app. Qed.

Lemma commits_app : forall l1 l2, commits (l1 ++ l2) = commits l1 ++ commits l2.
Proof. proj_app. Qed.

Lemma deletes_app : forall l1 l2, deletes (l1 ++ l2) = deletes l1 ++ deletes l2.
Proof. proj_app. Qed.

Lemma snapshots_app : forall l1 l2, snapshots (l1 ++ l2) = snapshots l1 ++ snapshots l2.
Proof. proj_app. Qed.

Lemma sync_complete_counts_app : forall l1 l2,
  sync_complete_counts (l1 ++ l2) = sync_complete_counts l1 ++ sync_complete_counts l2.
Proof. proj_app. Qed.

Lemma toasts_app : forall l1 l2, toasts (l1 ++ l2) = toasts l1 ++ toasts l2.
Proof. proj_app. Qed.

Lemma stock_attempts_app : forall l1 l2,
  stock_attempts (l1 ++ l2) = stock_attempts l1 ++ stock_attempts l2.
Proof. proj_app. Qed.

Lemma warnings_app : forall l1 l2, warnings (l1 ++ l2) = warnings l1 ++ warnings l2.
Proof. proj_app. Qed.

Lemma console_errors_app : forall l1 l2,
  console_errors (l1 ++ l2) = console_errors l1 ++ console_errors l2.
Proof. proj_app. Qed.

End TraceProjections.

Ltac wsimpl :=
  unfold with_ui, with_buffer, with_sales, with_decrements, with_trace in *;
  simpl in *.

Lemma stock_loop_run (be : Backend) (its : list BillItem) : forall w,
  for_of its (stock_body be) w =
  (Returned tt,
   {| ui := ui w; storage_ok := storage_ok w; buffer := buffer w;
      sales := sales w;
      decrements := decrements w ++ stock_applied be its;
      trace := trace w ++ stock_events be its |}).
Proof.
  induction its as [|item its IH]; intros w.
  - simpl. unfold ret. rewrite !app_nil_r. destruct w; reflexivity.
  - simpl. unfold bind at 1. unfold stock_body at 1.
    unfold bind, supabase_rpc_decrement_stock, stock_line_events, emit, modify,
      bind, ret, console_warn, emit, modify.
    destruct (stock_error be (id item) (cart_quantity item)) as [m|];
      simpl; rewrite IH; simpl; rewrite <- ?app_assoc; reflexivity.
Qed.

Lemma mutationFn_ok (be : Backend) (b : BillData) (w : World) :
  insert_error be b = None ->
  mutationFn be b w =
  (Returned tt,
   {| ui := ui w; storage_ok := storage_ok w; buffer := buffer w;
      sales := sales w ++ [row_of b];
      decrements := decrements w ++ stock_applied be (items b);
      trace := trace w ++ EvInsertSale (row_of b) None :: stock_events be (items b) |}).
Proof.
  intros H. unfold mutationFn, supabase_insert_sale, bind. rewrite H.
  unfold emit, modify, ret. simpl.
  change (fun item : BillItem => _) with (stock_body be).
  rewrite stock_loop_run. simpl. rewrite <- app_assoc. reflexivity.
Qed.

Lemma mutationFn_fail (be : Backend) (b : BillData) (w : World) (m : string) :
  insert_error be b = Some m ->
  mutationFn be b w =
  (Thrown ("Transaction failed: " ++ m),
   with_trace (fun t => t ++ [EvInsertSale (row_of b) (Some m)]) w).
Proof.
  intros H. unfold mutationFn, supabase_insert_sale, bind. rewrite H.
  reflexivity.
Qed.

Lemma mutateAsync_ok (auth : Auth) (be : Backend) (b : BillData) (w : World) :
  insert_error be b = None ->
  mutateAsync auth be b w =
  (Returned tt,
   {| ui := ui w; storage_ok := storage_ok w; buffer := buffer w;
      sales := sales w ++ [row_of b];
      decrements := decrements w ++ stock_applied be (items b);
      trace := trace w ++ commit_events auth be b |}).
Proof.
  intros H. unfold mutateAsync, bind. rewrite (mutationFn_ok be b w H).
  unfold onSuccess, bind, emit, modify, commit_events. wsimpl.
  rewrite <- !app_assoc. reflexivity.
Qed.

Lemma mutateAsync_fail (auth : Auth) (be : Backend) (b : BillData) (w : World)
    (m : string) :
  insert_error be b = Some m ->
  mutateAsync auth be b w =
  (Thrown ("Transaction failed: " ++ m),
   with_trace (fun t => t ++ [EvInsertSale (row_of b) (Some m)]) w).
Proof.
  intros H. unfold mutateAsync, bind. rewrite (mutationFn_fail be b w m H).
  reflexivity.
Qed.

(* ================================================================== *)
(** ** One pass of the sync controller, in closed form                  *)
(* ================================================================== *)

Arguments synced : simpl never.
Arguments remove_all : simpl never.
Arguments loop_events : simpl never.
Arguments one_events : simpl never.
Arguments commit_events : simpl never.
Arguments stock_events : simpl never.
Arguments stock_applied : simpl never.

Lemma store_remove_remove_all (i : string) (gone : list string) (l : list BillData) :
  remove_all gone (store_remove i l) = remove_all (i :: gone) l.
Proof.
  unfold remove_all, store_remove, same_bill.
  induction l as [|x l IH]; simpl; [reflexivity|].
  destruct (String.eqb (billId x) i); simpl; rewrite IH; reflexivity.
Qed.

Lemma remove_all_nil (l : list BillData) : remove_all [] l = l.
Proof.
  unfold remove_all. induction l as [|x l IH]; simpl in *; congruence.
Qed.

Lemma sync_one_ok (auth : Auth) (be : Backend) (b : BillData) (n : nat) (w : World) :
  insert_error be b = None ->
  sync_one auth be b n w =
  (Returned (S n),
   {| ui := ui w; storage_ok := storage_ok w;
      buffer := if storage_ok w then store_remove (billId b) (buffer w) else buffer w;
      sales := sales w ++ [row_of b];
      decrements := decrements w ++ stock_applied be (items b);
      trace := trace w ++ one_events auth be b |}).
Proof.
  intros H. unfold sync_one, try_catch, bind at 1.
  rewrite (mutateAsync_ok auth be b w H).
  unfold bind, deleteSyncedSale, emit, modify, ret, one_events. rewrite H.
  wsimpl. destruct (storage_ok w); wsimpl; rewrite <- app_assoc; reflexivity.
Qed.

Lemma sync_one_fail (auth : Auth) (be : Backend) (b : BillData) (n : nat) (w : World)
    (m : string) :
  insert_error be b = Some m ->
  sync_one auth be b n w =
  (Returned n,
   {| ui := ui w; storage_ok := storage_ok w; buffer := buffer w;
      sales := sales w; decrements := decrements w;
      trace := trace w ++ one_events auth be b |}).
Proof.
  intros H. unfold sync_one, try_catch, bind at 1.
  rewrite (mutateAsync_fail auth be b w m H).
  unfold bind, console_error, emit, modify, ret, one_events. rewrite H.
  wsimpl. rewrite <- app_assoc. reflexivity.
Qed.

Lemma synced_cons_ok (be : Backend) (b : BillData) (l : list BillData) :
  insert_error be b = None -> synced be (b :: l) = b :: synced be l.
Proof. intros H. unfold synced, insert_ok. simpl. rewrite H. reflexivity. Qed.

Lemma synced_cons_fail (be : Backend) (b : BillData) (l : list BillData) (m : string) :
  insert_error be b = Some m -> synced be (b :: l) = synced be l.
Proof. intros H. unfold synced, insert_ok. simpl. rewrite H. reflexivity. Qed.

Lemma sync_loop_run (auth : Auth) (be : Backend) (l : list BillData) :
  forall (n : nat) (w : World),
  sync_loop auth be l n w =
  (Returned (n + length (synced be l)),
   {| ui := ui w; storage_ok := storage_ok w;
      buffer := if storage_ok w
                then remove_all (ids (synced be l)) (buffer w) else buffer w;
      sales := sales w ++ map row_of (synced be l);
      decrements := decrements w
                    ++ flat_map (fun b => stock_applied be (items b)) (synced be l);
      trace := trace w ++ loop_events auth be l |}).
Proof.
  induction l as [|b l IH]; intros n w.
  - simpl. unfold ret. rewrite Nat.add_0_r, !app_nil_r, remove_all_nil.
    destruct w as [u s bf sl d t]; simpl. destruct s; reflexivity.
  - simpl sync_loop. unfold bind.
    destruct (insert_error be b) as [m|] eqn:E.
    + rewrite (sync_one_fail auth be b n w m E). rewrite IH.
      rewrite (synced_cons_fail be b l m E). simpl.
      unfold loop_events. simpl flat_map. rewrite <- app_assoc.
      reflexivity.
    + rewrite (sync_one_ok auth be b n w E). rewrite IH.
      rewrite (synced_cons_ok be b l E). simpl.
      unfold loop_events. simpl flat_map. rewrite <- !app_assoc.
      rewrite Nat.add_succ_r.
      destruct (storage_ok w); simpl;
        rewrite ?store_remove_remove_all; reflexivity.
Qed.

Lemma syncOfflineSales_run (auth : Auth) (be : Backend) (w : World) :
  logged_in auth = true ->
  syncOfflineSales false auth be w = (Returned tt, after_pass auth be w).
Proof.
  intros Hu. unfold syncOfflineSales. rewrite Hu. simpl orb. cbv iota.
  unfold bind at 1. unfold setIsSyncing at 1, modify at 1.
  unfold bind at 1. unfold getOfflineSales at 1, bind at 1, emit at 1, modify at 1, ret at 1.
  unfold after_pass, pass_events, pending.
  destruct w as [u st bf sl d t]. wsimpl.
  destruct st; [destruct bf as [|b0 bf]|].
  - unfold bind, setPendingSaleCount, setIsSyncing, modify. wsimpl.
    rewrite !app_nil_r. reflexivity.
  - unfold bind at 1. unfold setPendingSaleCount at 1, modify at 1.
    cbv beta iota. change (Nat.eqb (length (b0 :: bf)) 0) with false. cbv iota.
    unfold bind at 1. unfold toast at 1, emit at 1, modify at 1.
    unfold bind at 1. rewrite sync_loop_run. wsimpl.
    remember (synced be (b0 :: bf)) as sy.
    unfold bind, toast, emit, modify, ret, getOfflineSales, setPendingSaleCount,
      setIsSyncing, bind, emit, modify, ret.
    destruct (Nat.ltb 0 (length sy)); wsimpl;
      rewrite <- !app_assoc; simpl; rewrite <- ?app_assoc; reflexivity.
  - unfold bind, setPendingSaleCount, setIsSyncing, modify. wsimpl.
    rewrite !app_nil_r, remove_all_nil. reflexivity.
Qed.

Lemma trigger_run (auth : Auth) (be : Backend) (w : World) :
  isSyncing (ui w) = false ->
  logged_in auth = true ->
  trigger auth be w = (Returned tt, after_pass auth be w).
Proof.
  intros Hs Hu. unfold trigger. rewrite Hs. apply syncOfflineSales_run; assumption.
Qed.

Arguments pass_events : simpl never.

(* ------------------------------------------------------------------ *)
(** *** What a pass leaves in the trace                                 *)

Lemma stock_events_quiet (be : Backend) (its : list BillItem) :
  attempts (stock_events be its) = [] /\ commits (stock_events be its) = [] /\
  deletes (stock_events be its) = [] /\ snapshots (stock_events be its) = [] /\
  toasts (stock_events be its) = [] /\ console_errors (stock_events be its) = [].
Proof.
  unfold stock_events.
  induction its as [|it its IH]; simpl; [repeat split; reflexivity|].
  rewrite attempts_app, commits_app, deletes_app, snapshots_app, toasts_app,
    console_errors_app.
  destruct IH as (-> & -> & -> & -> & -> & ->).
  unfold stock_line_events.
  destruct (stock_error be (id it) (cart_quantity it)); simpl; repeat split; reflexivity.
Qed.

Lemma stock_attempts_stock_events (be : Backend) (its : list BillItem) :
  stock_attempts (stock_events be its) = map (fun it => (id it, cart_quantity it)) its.
Proof.
  unfold stock_events.
  induction its as [|it its IH]; simpl; [reflexivity|].
  rewrite stock_attempts_app, IH. unfold stock_line_events.
  destruct (stock_error be (id it) (cart_quantity it)); reflexivity.
Qed.

Lemma commit_events_proj (auth : Auth) (be : Backend) (b : BillData) :
  attempts (commit_events auth be b) = [b] /\ commits (commit_events auth be b) = [b] /\
  deletes (commit_events auth be b) = [] /\ snapshots (commit_events auth be b) = [] /\
  toasts (commit_events auth be b) = [] /\ console_errors (commit_events auth be b) = [].
Proof.
  unfold commit_events. simpl.
  rewrite attempts_app, commits_app, deletes_app, snapshots_app, toasts_app,
    console_errors_app.
  destruct (stock_events_quiet be (items b)) as (-> & -> & -> & -> & -> & ->).
  simpl. repeat split; reflexivity.
Qed.

Lemma one_events_proj (auth : Auth) (be : Backend) (b : BillData) :
  attempts (one_events auth be b) = [b] /\
  commits (one_events auth be b) = synced be [b] /\
  deletes (one_events auth be b) = ids (synced be [b]) /\
  snapshots (one_events auth be b) = [] /\
  toasts (one_events auth be b) = [].
Proof.
  unfold one_events, synced, insert_ok. cbn [filter].
  destruct (insert_error be b) as [m|].
  - repeat split; reflexivity.
  - rewrite attempts_app, commits_app, deletes_app, snapshots_app, toasts_app.
    destruct (commit_events_proj auth be b) as (-> & -> & -> & -> & -> & _).
    simpl. repeat split; reflexivity.
Qed.

Lemma synced_app (be : Backend) (l1 l2 : list BillData) :
  synced be (l1 ++ l2) = synced be l1 ++ synced be l2.
Proof. unfold synced. apply filter_app. Qed.

Lemma loop_events_proj (auth : Auth) (be : Backend) (l : list BillData) :
  attempts (loop_events auth be l) = l /\
  commits (loop_events auth be l) = synced be l /\
  deletes (loop_events auth be l) = ids (synced be l) /\
  snapshots (loop_events auth be l) = [] /\
  toasts (loop_events auth be l) = [].
Proof.
  unfold loop_events.
  induction l as [|b l IH]; simpl; [repeat split; reflexivity|].
  rewrite attempts_app, commits_app, deletes_app, snapshots_app, toasts_app.
  destruct IH as (-> & -> & -> & -> & ->).
  destruct (one_events_proj auth be b) as (-> & -> & -> & -> & ->).
  change (b :: l) with ([b] ++ l). rewrite synced_app.
  unfold ids. rewrite map_app. repeat split; reflexivity.
Qed.

Lemma pass_events_proj (auth : Auth) (be : Backend) (w : World) :
  attempts (pass_events auth be w) = pending w /\
  commits (pass_events auth be w) = synced be (pending w) /\
  deletes (pass_events auth be w) = ids (synced be (pending w)) /\
  snapshots (pass_events auth be w) =
    match pending w with
    | [] => [[]]
    | _ :: _ => [pending w; remove_all (ids (synced be (pending w))) (pending w)]
    end /\
  sync_complete_counts (pass_events auth be w) =
    if Nat.ltb 0 (length (synced be (pending w)))
    then [length (synced be (pending w))] else [].
Proof.
  unfold pass_events.
  destruct (pending w) as [|b0 l] eqn:E; [repeat split; reflexivity|].
  remember (b0 :: l) as snap. simpl.
  rewrite attempts_app, commits_app, deletes_app, snapshots_app,
    sync_complete_counts_app.
  rewrite attempts_app, commits_app, deletes_app, snapshots_app,
    sync_complete_counts_app.
  destruct (loop_events_proj auth be snap) as (-> & -> & -> & -> & Ht).
  assert (Hc : sync_complete_counts (loop_events auth be snap) = []).
  { clear - Ht. induction (loop_events auth be snap) as [|e evs IH]; [reflexivity|].
    destruct e; simpl in *; try (apply IH; assumption). discriminate. }
  rewrite Hc. subst snap.
  destruct (Nat.ltb 0 (length (synced be (b0 :: l)))); simpl;
    rewrite ?app_nil_r; repeat split; reflexivity.
Qed.

(* ------------------------------------------------------------------ *)
(** *** The keyed store                                                 *)

Lemma In_remove_all (gone : list string) (l : list BillData) (x : BillData) :
  In x (remove_all gone l) <-> In x l /\ ~ In (billId x) gone.
Proof.
  unfold remove_all. rewrite filter_In, negb_true_iff.
  split; intros [H1 H2]; split; try assumption.
  - intros Hin. assert (existsb (String.eqb (billId x)) gone = true) as E.
    { apply existsb_exists. exists (billId x). split; [assumption|apply String.eqb_refl]. }
    congruence.
  - destruct (existsb (String.eqb (billId x)) gone) eqn:E; [|reflexivity].
    apply existsb_exists in E. destruct E as (i & Hi & He).
    apply String.eqb_eq in He. subst i. contradiction.
Qed.

Lemma In_ids (l : list BillData) (i : string) :
  In i (ids l) <-> exists x, In x l /\ billId x = i.
Proof.
  unfold ids. rewrite in_map_iff. split; intros (x & H1 & H2); exists x; tauto.
Qed.

Lemma ids_remove_all_gone (gone : list string) (l : list BillData) (i : string) :
  In i gone -> ~ In i (ids (remove_all gone l)).
Proof.
  intros Hg Hin. apply In_ids in Hin. destruct Hin as (x & Hx & <-).
  apply In_remove_all in Hx. tauto.
Qed.

Lemma ids_remove_all_absent (gone : list string) (l : list BillData) (i : string) :
  ~ In i (ids l) -> ~ In i (ids (remove_all gone l)).
Proof.
  intros Hn Hin. apply Hn. apply In_ids in Hin. destruct Hin as (x & Hx & <-).
  apply In_remove_all in Hx. apply In_ids. exists x. tauto.
Qed.

Lemma NoDup_ids_filter (p : BillData -> bool) (l : list BillData) :
  NoDup (ids l) -> NoDup (ids (filter p l)).
Proof.
  unfold ids. induction l as [|x l IH]; simpl; intros H; [constructor|].
  inversion H as [|? ? Hx Hl]; subst.
  destruct (p x); simpl; [constructor|]; auto.
  intros Hin. apply Hx. apply in_map_iff in Hin. destruct Hin as (y & Hy & Hin).
  apply filter_In in Hin. apply in_map_iff. exists y. tauto.
Qed.

Lemma NoDup_ids_remove_all (gone : list string) (l : list BillData) :
  NoDup (ids l) -> NoDup (ids (remove_all gone l)).
Proof. apply NoDup_ids_filter. Qed.

Lemma NoDup_ids_synced (be : Backend) (l : list BillData) :
  NoDup (ids l) -> NoDup (ids (synced be l)).
Proof. apply NoDup_ids_filter. Qed.

Lemma In_synced (be : Backend) (l : list BillData) (x : BillData) :
  In x (synced be l) <-> In x l /\ insert_error be x = None.
Proof.
  unfold synced, insert_ok. rewrite filter_In.
  destruct (insert_error be x); intuition congruence.
Qed.

Lemma NoDup_ids_inj (l : list BillData) (x y : BillData) :
  NoDup (ids l) -> In x l -> In y l -> billId x = billId y -> x = y.
Proof.
  unfold ids. induction l as [|z l IH]; simpl; intros Hnd Hx Hy E; [contradiction|].
  inversion Hnd as [|? ? Hz Hl]; subst.
  destruct Hx as [->|Hx], Hy as [->|Hy]; auto.
  - exfalso. apply Hz. rewrite E. apply in_map. assumption.
  - exfalso. apply Hz. rewrite <- E. apply in_map. assumption.
Qed.

Lemma count_id_one (l : list string) (i : string) :
  NoDup l -> In i l -> count_id i l = 1.
Proof. intros Hnd Hin. unfold count_id. apply NoDup_count_occ'; assumption. Qed.

Lemma count_id_zero (l : list string) (i : string) :
  ~ In i l -> count_id i l = 0.
Proof. intros Hn. unfold count_id. apply count_occ_not_In. assumption. Qed.

Lemma count_id_app (l1 l2 : list string) (i : string) :
  count_id i (l1 ++ l2) = count_id i l1 + count_id i l2.
Proof. unfold count_id. apply count_occ_app. Qed.

(* ================================================================== *)
(** ** Runs of passes                                                   *)
(* ================================================================== *)

Lemma pending_ready (w : World) : ready w -> pending w = buffer w.
Proof. intros (_ & Hs & _). unfold pending. rewrite Hs. reflexivity. Qed.

Lemma after_pass_ready (auth : Auth) (be : Backend) (w : World) :
  ready w -> ready (after_pass auth be w).
Proof.
  intros (Hi & Hs & Hn). unfold ready, after_pass. simpl.
  repeat split; [assumption|]. apply NoDup_ids_remove_all. assumption.
Qed.

Lemma after_pass_buffer (auth : Auth) (be : Backend) (w : World) :
  ready w ->
  buffer (after_pass auth be w) = remove_all (ids (synced be (buffer w))) (buffer w).
Proof. intros H. unfold after_pass. simpl. rewrite (pending_ready w H). reflexivity. Qed.

Lemma sync_passes_cons (auth : Auth) (be : Backend) (rest : list Backend) (w : World) :
  logged_in auth = true -> ready w ->
  sync_passes auth (be :: rest) w = sync_passes auth rest (after_pass auth be w).
Proof.
  intros Hu (Hi & _). simpl. rewrite (trigger_run auth be w Hi Hu). reflexivity.
Qed.

Lemma sync_passes_app (auth : Auth) (l1 l2 : list Backend) : forall w,
  sync_passes auth (l1 ++ l2) w = sync_passes auth l2 (sync_passes auth l1 w).
Proof. induction l1 as [|be l1 IH]; intros w; simpl; [reflexivity|apply IH]. Qed.

Lemma sync_passes_ready (auth : Auth) (bes : list Backend) : forall w,
  logged_in auth = true -> ready w -> ready (sync_passes auth bes w).
Proof.
  induction bes as [|be bes IH]; intros w Hu Hr; [assumption|].
  rewrite (sync_passes_cons auth be bes w Hu Hr).
  apply IH; [assumption|apply after_pass_ready; assumption].
Qed.

Lemma sync_passes_trace (auth : Auth) (bes : list Backend) : forall w,
  logged_in auth = true -> ready w ->
  trace (sync_passes auth bes w) = trace w ++ passes_events auth bes w /\
  sales (sync_passes auth bes w) =
    sales w ++ map row_of (commits (passes_events auth bes w)).
Proof.
  induction bes as [|be bes IH]; intros w Hu Hr.
  - simpl. rewrite !app_nil_r. split; reflexivity.
  - rewrite (sync_passes_cons auth be bes w Hu Hr).
    destruct (IH (after_pass auth be w) Hu (after_pass_ready auth be w Hr)) as [Ht Hs].
    rewrite Ht, Hs. simpl passes_events. rewrite commits_app, map_app.
    destruct (pass_events_proj auth be w) as (_ & -> & _).
    unfold after_pass at 1 3. simpl. rewrite <- !app_assoc. split; reflexivity.
Qed.

Lemma passes_events_app (auth : Auth) (l1 l2 : list Backend) : forall w,
  logged_in auth = true -> ready w ->
  passes_events auth (l1 ++ l2) w =
  passes_events auth l1 w ++ passes_events auth l2 (sync_passes auth l1 w).
Proof.
  induction l1 as [|be l1 IH]; intros w Hu Hr; [reflexivity|].
  rewrite (sync_passes_cons auth be l1 w Hu Hr).
  change ((be :: l1) ++ l2) with (be :: (l1 ++ l2)).
  cbn [passes_events].
  rewrite (IH (after_pass auth be w) Hu (after_pass_ready auth be w Hr)).
  rewrite <- app_assoc. reflexivity.
Qed.

(** While the remote commit of [r] keeps failing, [r] stays buffered and is
    neither deleted nor committed. *)
Lemma failing_passes_keep (auth : Auth) (r : BillData) (fails : list Backend) :
  forall w,
  logged_in auth = true -> ready w -> In r (buffer w) ->
  Forall (fun be => insert_error be r <> None) fails ->
  In r (buffer (sync_passes auth fails w)) /\
  count_id (billId r) (deletes (passes_events auth fails w)) = 0 /\
  count_id (billId r) (ids (commits (passes_events auth fails w))) = 0.
Proof.
  induction fails as [|be fails IH]; intros w Hu Hr Hin Hf.
  - simpl. repeat split; try assumption; reflexivity.
  - inversion Hf as [|? ? Hbe Hf']; subst.
    rewrite (sync_passes_cons auth be fails w Hu Hr).
    assert (Hnot : ~ In (billId r) (ids (synced be (buffer w)))).
    { intros Hx. apply In_ids in Hx. destruct Hx as (x & Hx & E).
      apply In_synced in Hx. destruct Hx as [Hx Hok].
      destruct Hr as (_ & _ & Hnd).
      assert (x = r) by (apply (NoDup_ids_inj (buffer w)); assumption).
      subst x. contradiction. }
    assert (Hin' : In r (buffer (after_pass auth be w))).
    { rewrite (after_pass_buffer auth be w Hr). apply In_remove_all. tauto. }
    destruct (IH (after_pass auth be w) Hu (after_pass_ready auth be w Hr) Hin' Hf')
      as (H1 & H2 & H3).
    split; [assumption|].
    simpl passes_events. rewrite deletes_app, commits_app.
    destruct (pass_events_proj auth be w) as (_ & -> & -> & _).
    unfold ids at 2. rewrite map_app. fold (ids (synced be (pending w))).
    fold (ids (commits (passes_events auth fails (after_pass auth be w)))).
    rewrite !count_id_app, H2, H3, (pending_ready w Hr).
    rewrite (count_id_zero _ _ Hnot). split; reflexivity.
Qed.

(** The pass in which the remote commit of [r] succeeds. *)
Lemma succeeding_pass_removes (auth : Auth) (r : BillData) (be : Backend) (w : World) :
  ready w -> In r (buffer w) -> insert_error be r = None ->
  ~ In (billId r) (ids (buffer (after_pass auth be w))) /\
  count_id (billId r) (deletes (pass_events auth be w)) = 1 /\
  count_id (billId r) (ids (commits (pass_events auth be w))) = 1 /\
  sync_complete_counts (pass_events auth be w) =
    [length (deletes (pass_events auth be w))].
Proof.
  intros Hr Hin Hok.
  assert (Hs : In r (synced be (buffer w))) by (apply In_synced; tauto).
  assert (Hi : In (billId r) (ids (synced be (buffer w)))).
  { apply In_ids. exists r. tauto. }
  assert (Hnd : NoDup (ids (synced be (buffer w)))).
  { apply NoDup_ids_synced. apply Hr. }
  destruct (pass_events_proj auth be w) as (_ & -> & -> & _ & ->).
  rewrite (pending_ready w Hr), (after_pass_buffer auth be w Hr).
  split; [apply ids_remove_all_gone; assumption|].
  rewrite (count_id_one _ _ Hnd Hi). repeat split.
  unfold ids. rewrite length_map.
  destruct (synced be (buffer w)); [contradiction|reflexivity].
Qed.

(** Once [r]'s identifier has left the buffer, no later pass touches it. *)
Lemma later_passes_skip (auth : Auth) (i : string) (later : list Backend) :
  forall w,
  logged_in auth = true -> ready w -> ~ In i (ids (buffer w)) ->
  ~ In i (ids (buffer (sync_passes auth later w))) /\
  count_id i (deletes (passes_events auth later w)) = 0 /\
  count_id i (ids (commits (passes_events auth later w))) = 0.
Proof.
  induction later as [|be later IH]; intros w Hu Hr Hn.
  - simpl. repeat split; try assumption; reflexivity.
  - rewrite (sync_passes_cons auth be later w Hu Hr).
    assert (Hnot : ~ In i (ids (synced be (buffer w)))).
    { intros Hx. apply Hn. apply In_ids in Hx. destruct Hx as (x & Hx & E).
      apply In_synced in Hx. apply In_ids. exists x. tauto. }
    assert (Hn' : ~ In i (ids (buffer (after_pass auth be w)))).
    { rewrite (after_pass_buffer auth be w Hr). apply ids_remove_all_absent. assumption. }
    destruct (IH (after_pass auth be w) Hu (after_pass_ready auth be w Hr) Hn')
      as (H1 & H2 & H3).
    split; [assumption|].
    simpl passes_events. rewrite deletes_app, commits_app.
    destruct (pass_events_proj auth be w) as (_ & -> & -> & _).
    unfold ids at 2. rewrite map_app. fold (ids (synced be (pending w))).
    fold (ids (commits (passes_events auth later (after_pass auth be w)))).
    rewrite !count_id_app, H2, H3, (pending_ready w Hr).
    rewrite (count_id_zero _ _ Hnot). split; reflexivity.
Qed.

(** Over any run of passes an identifier is committed at most once, and not
    at all when it is not buffered at the start. *)
Lemma commits_at_most_once (auth : Auth) (bes : list Backend) : forall w i,
  logged_in auth = true -> ready w ->
  count_id i (ids (commits (passes_events auth bes w))) <= 1 /\
  (~ In i (ids (buffer w)) ->
   count_id i (ids (commits (passes_events auth bes w))) = 0).
Proof.
  intros w i Hu Hr. split.
  - revert w Hr. induction bes as [|be bes IH]; intros w Hr; [simpl; lia|].
    simpl passes_events. rewrite commits_app.
    destruct (pass_events_proj auth be w) as (_ & -> & _).
    unfold ids. rewrite map_app.
    fold (ids (synced be (pending w))).
    fold (ids (commits (passes_events auth bes (after_pass auth be w)))).
    rewrite count_id_app, (pending_ready w Hr).
    destruct (in_dec string_dec i (ids (synced be (buffer w)))) as [Hin|Hnin].
    + rewrite (count_id_one _ _ (NoDup_ids_synced be _ (proj2 (proj2 Hr))) Hin).
      assert (Hn' : ~ In i (ids (buffer (after_pass auth be w)))).
      { rewrite (after_pass_buffer auth be w Hr). apply ids_remove_all_gone. assumption. }
      destruct (later_passes_skip auth i bes (after_pass auth be w) Hu
                  (after_pass_ready auth be w Hr) Hn') as (_ & _ & ->). lia.
    + rewrite (count_id_zero _ _ Hnin).
      specialize (IH (after_pass auth be w) (after_pass_ready auth be w Hr)). lia.
  - intros Hn. apply (later_passes_skip auth i bes w Hu Hr Hn).
Qed.

Lemma demo_ready (buf : list BillData) :
  NoDup (ids buf) -> ready (demo_world buf).
Proof. intros H. repeat split. assumption. Qed.

(* ================================================================== *)
(** ** The sync controller run to completion                            *)
(* ================================================================== *)

(** Passes that run one after the other, each started when the previous one
    has returned.  A buffered record whose remote commit fails in the first
    passes and succeeds in a later one stays buffered while it fails, is gone
    from the buffer after the succeeding pass and stays gone; over the whole run
    [deleteSyncedSale] is called on its [billId] exactly once, in the
    succeeding pass, whose single 'Sync Complete' toast announces the number
    of deletions of that pass; every [billId] is committed to the remote
    store at most once, this one exactly once, and the rows added to the
    sales table are the committed bills. *)
Theorem sequential_passes_deliver_once
    (auth : Auth) (fails : list Backend) (ok : Backend) (later : list Backend)
    (w : World) (r : BillData) :
  logged_in auth = true ->
  ready w ->
  In r (buffer w) ->
  Forall (fun be => insert_error be r <> None) fails ->
  insert_error ok r = None ->
  let w1 := sync_passes auth fails w in
  let w2 := sync_passes auth [ok] w1 in
  let w3 := sync_passes auth later w2 in
  sync_passes auth (fails ++ ok :: later) w = w3 /\
  In r (buffer w1) /\
  ~ In (billId r) (ids (buffer w2)) /\
  ~ In (billId r) (ids (buffer w3)) /\
  exists e1 e2 e3,
    trace w1 = trace w ++ e1 /\ trace w2 = trace w1 ++ e2 /\
    trace w3 = trace w2 ++ e3 /\
    count_id (billId r) (deletes e1) = 0 /\
    count_id (billId r) (deletes e2) = 1 /\
    count_id (billId r) (deletes e3) = 0 /\
    sync_complete_counts e2 = [length (deletes e2)] /\
    count_id (billId r) (ids (commits (e1 ++ e2 ++ e3))) = 1 /\
    (forall i, count_id i (ids (commits (e1 ++ e2 ++ e3))) <= 1) /\
    sales w3 = sales w ++ map row_of (commits (e1 ++ e2 ++ e3)).
Proof.
  intros Hu Hr Hin Hf Hok w1 w2 w3.
  assert (Hr1 : ready w1) by (apply sync_passes_ready; assumption).
  assert (Hr2 : ready w2) by (apply sync_passes_ready; assumption).
  destruct (failing_passes_keep auth r fails w Hu Hr Hin Hf) as (Hin1 & Hd1 & Hc1).
  fold w1 in Hin1.
  assert (E2 : w2 = after_pass auth ok w1).
  { unfold w2. rewrite (sync_passes_cons auth ok [] w1 Hu Hr1). reflexivity. }
  destruct (succeeding_pass_removes auth r ok w1 Hr1 Hin1 Hok) as (Hn2 & Hd2 & Hc2 & Ht2).
  rewrite <- E2 in Hn2.
  destruct (later_passes_skip auth (billId r) later w2 Hu Hr2 Hn2) as (Hn3 & Hd3 & Hc3).
  fold w3 in Hn3.
  destruct (sync_passes_trace auth fails w Hu Hr) as [T1 _]. fold w1 in T1.
  destruct (sync_passes_trace auth later w2 Hu Hr2) as [T3 _]. fold w3 in T3.
  assert (Eall : sync_passes auth (fails ++ ok :: later) w = w3).
  { rewrite sync_passes_app. fold w1. change (ok :: later) with ([ok] ++ later).
    rewrite sync_passes_app. reflexivity. }
  assert (Ev : passes_events auth (fails ++ ok :: later) w =
               passes_events auth fails w ++ pass_events auth ok w1
               ++ passes_events auth later w2).
  { rewrite (passes_events_app auth fails (ok :: later) w Hu Hr). fold w1.
    simpl passes_events. rewrite <- E2. reflexivity. }
  repeat split; try assumption.
  exists (passes_events auth fails w), (pass_events auth ok w1),
    (passes_events auth later w2).
  repeat split; try assumption.
  - rewrite E2. unfold after_pass. reflexivity.
  - rewrite !commits_app. unfold ids. rewrite !map_app.
    fold (ids (commits (passes_events auth fails w))).
    fold (ids (commits (pass_events auth ok w1))).
    fold (ids (commits (passes_events auth later w2))).
    rewrite !count_id_app, Hc1, Hc2, Hc3. reflexivity.
  - intros i. rewrite <- Ev. apply (commits_at_most_once auth _ w i Hu Hr).
  - rewrite <- Ev, <- Eall. apply (sync_passes_trace auth _ w Hu Hr).
Qed.

Lemma sequential_passes_deliver_once_witness :
  let auth := demo_auth in
  let w := demo_world [demo_bill "INV-1000"; demo_bill "INV-1001"] in
  let r := demo_bill "INV-1000" in
  let w1 := sync_passes auth [be_down; be_reject "INV-1000"] w in
  let w2 := sync_passes auth [be_ok] w1 in
  let w3 := sync_passes auth [be_ok; be_down] w2 in
  sync_passes auth ([be_down; be_reject "INV-1000"] ++ be_ok :: [be_ok; be_down]) w = w3 /\
  In r (buffer w1) /\
  ~ In (billId r) (ids (buffer w2)) /\
  ~ In (billId r) (ids (buffer w3)) /\
  exists e1 e2 e3,
    trace w1 = trace w ++ e1 /\ trace w2 = trace w1 ++ e2 /\
    trace w3 = trace w2 ++ e3 /\
    count_id (billId r) (deletes e1) = 0 /\
    count_id (billId r) (deletes e2) = 1 /\
    count_id (billId r) (deletes e3) = 0 /\
    sync_complete_counts e2 = [length (deletes e2)] /\
    count_id (billId r) (ids (commits (e1 ++ e2 ++ e3))) = 1 /\
    (forall i, count_id i (ids (commits (e1 ++ e2 ++ e3))) <= 1) /\
    sales w3 = sales w ++ map row_of (commits (e1 ++ e2 ++ e3)).
Proof.
  apply (sequential_passes_deliver_once demo_auth [be_down; be_reject "INV-1000"] be_ok
           [be_ok; be_down]
           (demo_world [demo_bill "INV-1000"; demo_bill "INV-1001"])
           (demo_bill "INV-1000")).
  - reflexivity.
  - apply demo_ready. repeat constructor; simpl; intuition discriminate.
  - simpl. left. reflexivity.
  - repeat constructor; simpl; discriminate.
  - reflexivity.
Defined.

Lemma loop_events_errors (auth : Auth) (be : Backend) (l : list BillData) :
  console_errors (loop_events auth be l) = failures be l.
Proof.
  unfold loop_events, failures.
  induction l as [|b l IH]; [reflexivity|].
  cbn [flat_map]. rewrite console_errors_app, IH. f_equal.
  unfold one_events. destruct (insert_error be b) as [m|]; [reflexivity|].
  rewrite console_errors_app.
  destruct (commit_events_proj auth be b) as (_ & _ & _ & _ & _ & ->). reflexivity.
Qed.

Lemma pass_events_errors (auth : Auth) (be : Backend) (w : World) :
  console_errors (pass_events auth be w) = failures be (pending w).
Proof.
  unfold pass_events. destruct (pending w) as [|b0 l]; [reflexivity|].
  remember (b0 :: l) as snap.
  cbn [console_errors]. rewrite !console_errors_app, loop_events_errors.
  destruct (Nat.ltb 0 (length (synced be snap))); simpl; rewrite app_nil_r; reflexivity.
Qed.

(** C3. In one pass every record of the snapshot is attempted, in order; a
    record whose remote commit fails is logged, stays in the buffer, is not
    deleted and not counted, and the records after it are still attempted.
    For a buffer of three records of which only the second fails, the first
    and third are removed, the second remains, the toast announces 2 and the
    pending count shown after the pass is 1. *)
Theorem partial_batch_resilience (auth : Auth) (be : Backend) (w : World) :
  logged_in auth = true ->
  ready w ->
  let w' := snd (trigger auth be w) in
  (exists evs,
     trace w' = trace w ++ evs /\
     attempts evs = buffer w /\
     commits evs = synced be (buffer w) /\
     deletes evs = ids (synced be (buffer w)) /\
     console_errors evs = failures be (buffer w) /\
     forall b, In b (buffer w) -> insert_error be b <> None ->
       In b (buffer w') /\ ~ In (billId b) (deletes evs) /\ ~ In b (commits evs)) /\
  (forall b1 b2 b3 m,
     buffer w = [b1; b2; b3] ->
     insert_error be b1 = None ->
     insert_error be b2 = Some m ->
     insert_error be b3 = None ->
     buffer w' = [b2] /\
     pendingSaleCount (ui w') = 1 /\
     isSyncing (ui w') = false /\
     exists evs,
       trace w' = trace w ++ evs /\
       attempts evs = [b1; b2; b3] /\
       commits evs = [b1; b3] /\
       deletes evs = [billId b1; billId b3] /\
       sync_complete_counts evs = [2] /\
       console_errors evs =
         [(("Failed to sync sale " ++ billId b2 ++ ":")%string,
           ("Transaction failed: " ++ m)%string)]).
Proof.
  intros Hu Hr w'.
  assert (E : w' = after_pass auth be w).
  { unfold w'. rewrite (trigger_run auth be w (proj1 Hr) Hu). reflexivity. }
  pose proof (pending_ready w Hr) as Hp.
  destruct (pass_events_proj auth be w) as (Ha & Hc & Hd & _ & Ht).
  pose proof (pass_events_errors auth be w) as He.
  rewrite Hp in Ha, Hc, Hd, Ht, He.
  split.
  - exists (pass_events auth be w). rewrite E.
    repeat split; try assumption.
    + rewrite (after_pass_buffer auth be w Hr). apply In_remove_all.
      split; [assumption|]. intros Hx. apply In_ids in Hx.
      destruct Hx as (x & Hx & Ex). apply In_synced in Hx. destruct Hx as [Hx Hok].
      assert (x = b) by (apply (NoDup_ids_inj (buffer w)); try assumption; apply Hr).
      subst x. contradiction.
    + rewrite Hd. intros Hx. apply In_ids in Hx.
      destruct Hx as (x & Hx & Ex). apply In_synced in Hx. destruct Hx as [Hx Hok].
      assert (x = b) by (apply (NoDup_ids_inj (buffer w)); try assumption; apply Hr).
      subst x. contradiction.
    + rewrite Hc. intros Hx. apply In_synced in Hx. tauto.
  - intros b1 b2 b3 m Hb H1 H2 H3.
    assert (Hs : synced be (buffer w) = [b1; b3]).
    { rewrite Hb. rewrite (synced_cons_ok be b1 _ H1), (synced_cons_fail be b2 _ m H2),
        (synced_cons_ok be b3 _ H3). reflexivity. }
    destruct Hr as (Hi & Hst & Hnd). rewrite Hb in Hnd. simpl in Hnd.
    inversion Hnd as [|? ? N1 Hnd']; subst. inversion Hnd' as [|? ? N2 _]; subst.
    simpl in N1, N2.
    assert (E21 : String.eqb (billId b2) (billId b1) = false).
    { apply String.eqb_neq. intros X. apply N1. left. exact X. }
    assert (E23 : String.eqb (billId b2) (billId b3) = false).
    { apply String.eqb_neq. intros X. apply N2. left. symmetry. exact X. }
    assert (Hrem : remove_all (ids (synced be (buffer w))) (buffer w) = [b2]).
    { rewrite Hs, Hb. unfold remove_all. simpl.
      rewrite !String.eqb_refl, E21, E23. simpl. rewrite orb_true_r. reflexivity. }
    rewrite Hs in Hc, Hd, Ht. rewrite Hb in Ha, He.
    rewrite E. unfold after_pass. simpl. rewrite Hp, Hrem.
    repeat split.
    exists (pass_events auth be w). repeat split; try assumption.
    rewrite He. unfold failures. simpl. rewrite H1, H2, H3. reflexivity.
Qed.

Lemma partial_batch_resilience_witness :
  let auth := demo_auth in
  let be := be_reject "INV-2" in
  let w := demo_world [demo_bill "INV-1"; demo_bill "INV-2"; demo_bill "INV-3"] in
  let w' := snd (trigger auth be w) in
  (exists evs,
     trace w' = trace w ++ evs /\
     attempts evs = buffer w /\
     commits evs = synced be (buffer w) /\
     deletes evs = ids (synced be (buffer w)) /\
     console_errors evs = failures be (buffer w) /\
     forall b, In b (buffer w) -> insert_error be b <> None ->
       In b (buffer w') /\ ~ In (billId b) (deletes evs) /\ ~ In b (commits evs)) /\
  (buffer w' = [demo_bill "INV-2"] /\
   pendingSaleCount (ui w') = 1 /\
   isSyncing (ui w') = false /\
   exists evs,
     trace w' = trace w ++ evs /\
     attempts evs = [demo_bill "INV-1"; demo_bill "INV-2"; demo_bill "INV-3"] /\
     commits evs = [demo_bill "INV-1"; demo_bill "INV-3"] /\
     deletes evs = ["INV-1"; "INV-3"] /\
     sync_complete_counts evs = [2] /\
     console_errors evs =
       [("Failed to sync sale INV-2:", "Transaction failed: Failed to fetch")]).
Proof.
  intros auth be w w'.
  assert (Hr : ready w).
  { apply demo_ready. repeat constructor; simpl; intuition discriminate. }
  destruct (partial_batch_resilience auth be w eq_refl Hr) as [G T].
  split; [exact G|].
  exact (T (demo_bill "INV-1") (demo_bill "INV-2") (demo_bill "INV-3")
           "Failed to fetch" eq_refl eq_refl eq_refl eq_refl).
Defined.

(** C10. With no signed-in user the callback returns at once: the world is
    left exactly as it was, so the buffer is not read, no remote call is
    made, neither [isSyncing] nor the pending count is written, and no pass
    is started. *)
Theorem sync_without_user_is_noop
    (seen_isSyncing isAdmin' : bool) (be : Backend) (w : World) (s : Sys) :
  let auth := {| user := None; isAdmin := isAdmin' |} in
  syncOfflineSales seen_isSyncing auth be w = (Returned tt, w) /\
  trigger auth be w = (Returned tt, w) /\
  pass_begin seen_isSyncing auth w = (Returned None, w) /\
  sys_step (ATrigger auth) s = s.
Proof.
  intros auth. unfold trigger, syncOfflineSales, sys_step, pass_begin, logged_in.
  simpl. rewrite !orb_true_r. unfold ret. repeat split.
  destruct s; reflexivity.
Qed.

(* ================================================================== *)
(** ** The remote commit and the checkout handlers                      *)
(* ================================================================== *)

Lemma warnings_stock_events (be : Backend) (its : list BillItem) :
  warnings (stock_events be its) = stock_warnings be its.
Proof.
  unfold stock_events, stock_warnings.
  induction its as [|it its IH]; [reflexivity|].
  cbn [flat_map]. rewrite warnings_app, IH. f_equal.
  unfold stock_line_events.
  destruct (stock_error be (id it) (cart_quantity it)); reflexivity.
Qed.

(** C5. The remote commit throws exactly when the insert of the sales row
    fails, and then no stock decrement is attempted.  When the insert
    succeeds the row is recorded, one [decrement_stock] call is made per line
    item in order, every failing line only writes a warning, the commit
    returns normally whatever the stock calls answer, and the sync loop
    therefore deletes the record from the buffer and counts it. *)
Theorem remote_commit_fails_iff_insert_fails
    (auth : Auth) (be : Backend) (b : BillData) (w : World) :
  let r := mutateAsync auth be b w in
  ((exists e, fst r = Thrown e) <-> insert_error be b <> None) /\
  (forall m, insert_error be b = Some m ->
     fst r = Thrown ("Transaction failed: " ++ m) /\
     sales (snd r) = sales w /\ decrements (snd r) = decrements w /\
     trace (snd r) = trace w ++ [EvInsertSale (row_of b) (Some m)]) /\
  (insert_error be b = None ->
     fst r = Returned tt /\
     sales (snd r) = sales w ++ [row_of b] /\
     decrements (snd r) = decrements w ++ stock_applied be (items b) /\
     exists evs,
       trace (snd r) = trace w ++ evs /\
       commits evs = [b] /\
       stock_attempts evs = map (fun it => (id it, cart_quantity it)) (items b) /\
       warnings evs = stock_warnings be (items b)) /\
  (insert_error be b = None ->
     forall n,
       let r1 := sync_one auth be b n w in
       fst r1 = Returned (S n) /\
       sales (snd r1) = sales w ++ [row_of b] /\
       buffer (snd r1) =
         (if storage_ok w then store_remove (billId b) (buffer w) else buffer w) /\
       exists evs, trace (snd r1) = trace w ++ evs /\ deletes evs = [billId b]).
Proof.
  intros r. unfold r. clear r.
  split; [|split; [|split]].
  - destruct (insert_error be b) as [m|] eqn:E.
    + rewrite (mutateAsync_fail auth be b w m E). simpl. split.
      * intros _. discriminate.
      * intros _. eexists. reflexivity.
    + rewrite (mutateAsync_ok auth be b w E). simpl. split.
      * intros [e He]. discriminate.
      * intros H. contradiction.
  - intros m E. rewrite (mutateAsync_fail auth be b w m E). repeat split.
  - intros E. rewrite (mutateAsync_ok auth be b w E). simpl. repeat split.
    exists (commit_events auth be b). split; [reflexivity|].
    destruct (commit_events_proj auth be b) as (_ & -> & _).
    split; [reflexivity|].
    unfold commit_events. cbn [stock_attempts warnings].
    rewrite stock_attempts_app, warnings_app, stock_attempts_stock_events,
      warnings_stock_events. simpl. rewrite !app_nil_r. split; reflexivity.
  - intros E n. rewrite (sync_one_ok auth be b n w E). simpl. repeat split.
    exists (one_events auth be b). split; [reflexivity|].
    destruct (one_events_proj auth be b) as (_ & _ & -> & _).
    rewrite (synced_cons_ok be b [] E). reflexivity.
Qed.

Lemma completeSale_online_fail
    (u : User) (isAdmin' : bool) (c : Ui) (pm : PaymentMethod) (now : Z)
    (be : Backend) (w : World) (m : string) :
  isOffline c = false ->
  insert_error be (make_billData c u pm now) = Some m ->
  completeSale {| user := Some u; isAdmin := isAdmin' |} c pm now be w =
  (Returned tt,
   {| ui := put_dialogs {| payment := payment (dialogs c); success := false;
                           history := history (dialogs c) |}
              (put_completedBill (Some (make_billData c u pm now)) (ui w));
      storage_ok := storage_ok w; buffer := buffer w; sales := sales w;
      decrements := decrements w;
      trace := trace w ++
               [EvInsertSale (row_of (make_billData c u pm now)) (Some m);
                EvToast (ToastTransactionFailed ("Transaction failed: " ++ m))] |}).
Proof.
  intros Hoff Hfail. unfold completeSale. cbn [user]. rewrite Hoff.
  unfold bind at 1. unfold setCompletedBill at 1, modify at 1.
  unfold bind at 1. unfold setDialogs at 1, modify at 1.
  unfold try_catch. rewrite (mutateAsync_fail _ be _ _ m Hfail).
  unfold bind, toast, emit, setDialogs, modify. wsimpl.
  rewrite <- app_assoc. reflexivity.
Qed.

Lemma completeSale_offline_fail
    (u : User) (isAdmin' : bool) (c : Ui) (pm : PaymentMethod) (now : Z)
    (be : Backend) (w : World) :
  isOffline c = true ->
  storage_ok w = false ->
  completeSale {| user := Some u; isAdmin := isAdmin' |} c pm now be w =
  (Thrown storage_error,
   {| ui := put_dialogs {| payment := false; success := true; history := false |}
              (put_completedBill (Some (make_billData c u pm now)) (ui w));
      storage_ok := storage_ok w; buffer := buffer w; sales := sales w;
      decrements := decrements w;
      trace := trace w ++ [EvSaveSaleOffline (make_billData c u pm now) false] |}).
Proof.
  intros Hoff Hst. unfold completeSale. cbn [user]. rewrite Hoff.
  unfold bind at 1. unfold setCompletedBill at 1, modify at 1.
  unfold bind at 1. unfold setDialogs at 1, modify at 1.
  unfold save_offline, bind at 1. unfold saveSaleOffline. wsimpl. rewrite Hst.
  unfold bind, emit, modify, throw. wsimpl. reflexivity.
Qed.

(** The state in which a failing online checkout settles when nothing else
    happens while the request is pending: [completeSale] settles normally
    having shown exactly one destructive
    'Transaction Failed' toast with the error message; the success dialog is
    closed and the other dialogs are as the handler saw them; nothing is
    recorded remotely or buffered; and the cart, the customer form, the
    notes and the bill identifier are untouched, so the same sale can be
    submitted again under the same [billId]. *)
Theorem online_checkout_failure_settled
    (u : User) (isAdmin' : bool) (c : Ui) (pm : PaymentMethod) (now : Z)
    (be : Backend) (w : World) (m : string) :
  let auth := {| user := Some u; isAdmin := isAdmin' |} in
  isOffline c = false ->
  insert_error be (make_billData c u pm now) = Some m ->
  let r := completeSale auth c pm now be w in
  let w' := snd r in
  fst r = Returned tt /\
  new_toasts w w' = [ToastTransactionFailed ("Transaction failed: " ++ m)] /\
  toast_title (ToastTransactionFailed ("Transaction failed: " ++ m))
    = "Transaction Failed" /\
  toast_destructive (ToastTransactionFailed ("Transaction failed: " ++ m)) = true /\
  success (dialogs (ui w')) = false /\
  payment (dialogs (ui w')) = payment (dialogs c) /\
  sales w' = sales w /\ decrements w' = decrements w /\ buffer w' = buffer w /\
  pendingSaleCount (ui w') = pendingSaleCount (ui w) /\
  cart (ui w') = cart (ui w) /\ customerForm (ui w') = customerForm (ui w) /\
  notesField (ui w') = notesField (ui w) /\
  paymentBillId (ui w') = paymentBillId (ui w).
Proof.
  intros auth Hoff Hfail r w'. subst w' r auth.
  rewrite (completeSale_online_fail u isAdmin' c pm now be w m Hoff Hfail).
  unfold new_toasts. simpl.
  rewrite skipn_app, skipn_all, Nat.sub_diag. simpl.
  repeat split.
Qed.

(** C7, as the code behaves.  When an offline checkout cannot store the
    sale, [completeSale] rejects with the storage error after it has already
    opened the success dialog and set the completed bill: no toast and no
    console line is written, the success dialog stays open, and the sale is
    in neither the buffer nor the remote store. *)
Theorem offline_save_failure_shows_success
    (u : User) (isAdmin' : bool) (c : Ui) (pm : PaymentMethod) (now : Z)
    (be : Backend) (w : World) :
  let auth := {| user := Some u; isAdmin := isAdmin' |} in
  isOffline c = true ->
  storage_ok w = false ->
  let r := completeSale auth c pm now be w in
  let w' := snd r in
  fst r = Thrown storage_error /\
  success (dialogs (ui w')) = true /\
  completedBill (ui w') = Some (make_billData c u pm now) /\
  trace w' = trace w ++ [EvSaveSaleOffline (make_billData c u pm now) false] /\
  new_toasts w w' = [] /\
  buffer w' = buffer w /\ sales w' = sales w /\
  pendingSaleCount (ui w') = pendingSaleCount (ui w).
Proof.
  intros auth Hoff Hst r w'. subst w' r auth.
  rewrite (completeSale_offline_fail u isAdmin' c pm now be w Hoff Hst).
  unfold new_toasts. simpl.
  rewrite skipn_app, skipn_all, Nat.sub_diag. simpl.
  repeat split.
Qed.

Lemma offline_save_failure_shows_success_witness :
  let u := {| uid := "u-1" |} in
  let auth := {| user := Some u; isAdmin := false |} in
  let w := {| ui := demo_offline_ui; storage_ok := false; buffer := [];
              sales := []; decrements := []; trace := [] |} in
  let c := ui w in
  let r := completeSale auth c cash 1000%Z be_ok w in
  let w' := snd r in
  fst r = Thrown storage_error /\
  success (dialogs (ui w')) = true /\
  completedBill (ui w') = Some (make_billData c u cash 1000%Z) /\
  trace w' = trace w ++ [EvSaveSaleOffline (make_billData c u cash 1000%Z) false] /\
  new_toasts w w' = [] /\
  buffer w' = buffer w /\ sales w' = sales w /\
  pendingSaleCount (ui w') = pendingSaleCount (ui w).
Proof.
  exact (offline_save_failure_shows_success {| uid := "u-1" |} false
           demo_offline_ui cash 1000%Z be_ok
           {| ui := demo_offline_ui; storage_ok := false; buffer := [];
              sales := []; decrements := []; trace := [] |}
           eq_refl eq_refl).
Defined.

Lemma string_of_Z_inj (a b : Z) : string_of_Z a = string_of_Z b -> a = b.
Proof.
  unfold string_of_Z. intros H.
  apply (f_equal NilEmpty.int_of_string) in H.
  rewrite !NilEmpty.isi in H. injection H as H.
  apply DecimalZ.to_int_inj. exact H.
Qed.

Lemma proceedToPayment_assigns (c : Ui) (now : Z) (w : World) :
  cart c <> [] -> c_phone (customerForm c) <> "" ->
  proceedToPayment c now w =
  (Returned tt,
   with_ui (fun u0 => put_dialogs {| payment := true; success := success (dialogs c);
                                    history := history (dialogs c) |}
                       (put_paymentBillId ("INV-" ++ string_of_Z now) u0)) w).
Proof.
  intros Hc Hp. unfold proceedToPayment.
  destruct (cart c) as [|x l]; [contradiction|].
  destruct (c_phone (customerForm c)) as [|a s]; [contradiction|].
  simpl. unfold bind, setPaymentBillId, setDialogs, modify. wsimpl. reflexivity.
Qed.

(** C9 as stated does not hold: two different checkouts (different carts,
    customers and cashiers) that read the same millisecond from the clock are
    assigned the same [billId]. *)
Lemma same_millisecond_same_billId :
  let w1 := snd (proceedToPayment demo_offline_ui 1700000000000%Z
                   (world_of demo_offline_ui)) in
  let w2 := snd (proceedToPayment demo_till2 1700000000000%Z (world_of demo_till2)) in
  let b1 := make_billData (ui w1) {| uid := "u-1" |} cash 1700000000500%Z in
  let b2 := make_billData (ui w2) {| uid := "u-2" |} online 1700000000900%Z in
  items b1 <> items b2 /\ customer b1 <> customer b2 /\ userId b1 <> userId b2 /\
  billId b1 = "INV-1700000000000" /\ billId b1 = billId b2.
Proof.
  vm_compute. repeat split; discriminate.
Qed.

(** C9, amended.  The [billId] is produced on the client by
    [proceedToPayment] as "INV-" followed by the clock reading in
    milliseconds, before any commit attempt, and [completeSale] copies it
    into the bill whatever the payment method and time of completion.  Two
    checkouts get different identifiers exactly when their clock readings
    differ.  A failed online commit leaves the identifier in place, so a
    retry of the sale carries the same [billId]. *)
Theorem billId_fixed_at_checkout_start
    (c1 c2 : Ui) (now1 now2 : Z) (w1 w2 : World) (u1 u2 : User)
    (pm1 pm2 : PaymentMethod) (t1 t2 : Z) :
  cart c1 <> [] -> c_phone (customerForm c1) <> "" ->
  cart c2 <> [] -> c_phone (customerForm c2) <> "" ->
  let w1' := snd (proceedToPayment c1 now1 w1) in
  let w2' := snd (proceedToPayment c2 now2 w2) in
  let b1 := make_billData (ui w1') u1 pm1 t1 in
  let b2 := make_billData (ui w2') u2 pm2 t2 in
  billId b1 = ("INV-" ++ string_of_Z now1)%string /\
  (billId b1 = billId b2 <-> now1 = now2) /\
  (forall be m isAdmin',
     isOffline (ui w1') = false ->
     insert_error be b1 = Some m ->
     let w1'' := snd (completeSale {| user := Some u1; isAdmin := isAdmin' |}
                        (ui w1') pm1 t1 be w1') in
     forall pm t, billId (make_billData (ui w1'') u1 pm t) = billId b1).
Proof.
  intros Hc1 Hp1 Hc2 Hp2 w1' w2' b1 b2. subst b1 b2 w1' w2'.
  rewrite (proceedToPayment_assigns c1 now1 w1 Hc1 Hp1).
  rewrite (proceedToPayment_assigns c2 now2 w2 Hc2 Hp2).
  split; [reflexivity|]. split.
  - simpl. split.
    + intros H. injection H as H. apply string_of_Z_inj. exact H.
    + intros ->. reflexivity.
  - intros be m isAdmin' Hoff Hfail. cbv zeta. intros pm t.
    rewrite (completeSale_online_fail u1 isAdmin' _ pm1 t1 be _ m Hoff Hfail).
    reflexivity.
Qed.

Lemma billId_fixed_at_checkout_start_witness :
  let c1 := demo_till2 in
  let c2 := demo_offline_ui in
  let w1' := snd (proceedToPayment c1 1000%Z (world_of c1)) in
  let w2' := snd (proceedToPayment c2 2000%Z (world_of c2)) in
  let b1 := make_billData (ui w1') {| uid := "u-1" |} cash 1500%Z in
  let b2 := make_billData (ui w2') {| uid := "u-2" |} online 2500%Z in
  billId b1 = ("INV-" ++ string_of_Z 1000)%string /\
  (billId b1 = billId b2 <-> 1000%Z = 2000%Z) /\
  (forall be m isAdmin',
     isOffline (ui w1') = false ->
     insert_error be b1 = Some m ->
     let w1'' := snd (completeSale {| user := Some {| uid := "u-1" |};
                                      isAdmin := isAdmin' |}
                        (ui w1') cash 1500%Z be w1') in
     forall pm t, billId (make_billData (ui w1'') {| uid := "u-1" |} pm t) = billId b1).
Proof.
  apply (billId_fixed_at_checkout_start demo_till2 demo_offline_ui 1000 2000
           (world_of demo_till2) (world_of demo_offline_ui)
           {| uid := "u-1" |} {| uid := "u-2" |} cash online 1500 2500);
    simpl; discriminate.
Defined.

(* ================================================================== *)
(** ** The resumable pass, step by step                                 *)
(* ================================================================== *)

Lemma save_offline_stored (b : BillData) (w : World) :
  storage_ok w = true ->
  save_offline b w =
  (Returned tt,
   {| ui := put_pendingSaleCount (pendingSaleCount (ui w) + 1) (ui w);
      storage_ok := storage_ok w; buffer := store_put b (buffer w);
      sales := sales w; decrements := decrements w;
      trace := trace w ++ [EvSaveSaleOffline b true; EvToast ToastSavedOffline] |}).
Proof.
  intros H. unfold save_offline, bind at 1. unfold saveSaleOffline. rewrite H.
  unfold bind, toast, emit, modify. wsimpl. rewrite <- app_assoc, ?H. reflexivity.
Qed.

Lemma save_offline_failed (b : BillData) (w : World) :
  storage_ok w = false ->
  save_offline b w =
  (Thrown storage_error, with_trace (fun t => t ++ [EvSaveSaleOffline b false]) w).
Proof.
  intros H. unfold save_offline, bind at 1. unfold saveSaleOffline. rewrite H.
  reflexivity.
Qed.

Lemma pass_step_snapshot_empty (auth : Auth) (be : Backend) (w : World) :
  pending w = [] ->
  pass_step auth be KSnapshot w =
  (Returned None,
   {| ui := put_isSyncing false (put_pendingSaleCount 0 (ui w));
      storage_ok := storage_ok w; buffer := buffer w; sales := sales w;
      decrements := decrements w;
      trace := trace w ++ [EvGetOfflineSales []] |}).
Proof.
  intros H. unfold pass_step, bind at 1. unfold getOfflineSales.
  fold (pending w). rewrite H.
  unfold bind, emit, modify, ret, setPendingSaleCount, setIsSyncing, modify.
  wsimpl. reflexivity.
Qed.

Lemma pass_step_snapshot_some (auth : Auth) (be : Backend) (w : World) :
  pending w <> [] ->
  pass_step auth be KSnapshot w =
  (Returned (Some (KCommit (pending w) 0)),
   {| ui := put_pendingSaleCount (length (pending w)) (ui w);
      storage_ok := storage_ok w; buffer := buffer w; sales := sales w;
      decrements := decrements w;
      trace := trace w ++ [EvGetOfflineSales (pending w);
                           EvToast (ToastSyncing (length (pending w)))] |}).
Proof.
  intros H. unfold pass_step, bind at 1. unfold getOfflineSales.
  fold (pending w). destruct (pending w) as [|b0 l]; [contradiction|].
  unfold bind, emit, modify, ret, setPendingSaleCount, toast, emit, modify.
  wsimpl. rewrite <- app_assoc. reflexivity.
Qed.

Lemma pass_step_commit_nil (auth : Auth) (be : Backend) (n : nat) (w : World) :
  pass_step auth be (KCommit [] n) w =
  (Returned (Some KRequery),
   {| ui := ui w; storage_ok := storage_ok w; buffer := buffer w; sales := sales w;
      decrements := decrements w;
      trace := trace w ++ (if Nat.ltb 0 n then [EvToast (ToastSyncComplete n)] else []) |}).
Proof.
  unfold pass_step, bind, toast, emit, modify, ret.
  destruct (Nat.ltb 0 n); wsimpl; rewrite ?app_nil_r; destruct w; reflexivity.
Qed.

Lemma pass_step_commit_ok (auth : Auth) (be : Backend) (b : BillData)
    (rest : list BillData) (n : nat) (w : World) :
  insert_error be b = None ->
  pass_step auth be (KCommit (b :: rest) n) w =
  (Returned (Some (KDelete b rest n)),
   {| ui := ui w; storage_ok := storage_ok w; buffer := buffer w;
      sales := sales w ++ [row_of b];
      decrements := decrements w ++ stock_applied be (items b);
      trace := trace w ++ commit_events auth be b |}).
Proof.
  intros H. unfold pass_step, try_catch, bind.
  rewrite (mutateAsync_ok auth be b w H). reflexivity.
Qed.

Lemma pass_step_commit_fail (auth : Auth) (be : Backend) (b : BillData)
    (rest : list BillData) (n : nat) (w : World) (m : string) :
  insert_error be b = Some m ->
  pass_step auth be (KCommit (b :: rest) n) w =
  (Returned (Some (KCommit rest n)),
   {| ui := ui w; storage_ok := storage_ok w; buffer := buffer w; sales := sales w;
      decrements := decrements w;
      trace := trace w ++ one_events auth be b |}).
Proof.
  intros H. unfold pass_step, try_catch, bind at 1.
  rewrite (mutateAsync_fail auth be b w m H).
  unfold bind, console_error, emit, modify, ret, one_events. rewrite H.
  wsimpl. rewrite <- app_assoc. reflexivity.
Qed.

Lemma pass_step_delete (auth : Auth) (be : Backend) (b : BillData)
    (rest : list BillData) (n : nat) (w : World) :
  pass_step auth be (KDelete b rest n) w =
  (Returned (Some (KCommit rest (S n))),
   {| ui := ui w; storage_ok := storage_ok w;
      buffer := if storage_ok w then store_remove (billId b) (buffer w) else buffer w;
      sales := sales w; decrements := decrements w;
      trace := trace w ++ [EvDeleteSyncedSale (billId b)] |}).
Proof.
  unfold pass_step, try_catch, bind, deleteSyncedSale, emit, modify, ret.
  destruct (storage_ok w) eqn:E; wsimpl; rewrite ?E; reflexivity.
Qed.

Lemma pass_step_requery (auth : Auth) (be : Backend) (w : World) :
  pass_step auth be KRequery w =
  (Returned None,
   {| ui := put_isSyncing false (put_pendingSaleCount (length (pending w)) (ui w));
      storage_ok := storage_ok w; buffer := buffer w; sales := sales w;
      decrements := decrements w;
      trace := trace w ++ [EvGetOfflineSales (pending w)] |}).
Proof.
  unfold pass_step, bind at 1. unfold getOfflineSales. fold (pending w).
  unfold bind, emit, modify, ret, setPendingSaleCount, setIsSyncing, modify.
  wsimpl. reflexivity.
Qed.

(* ------------------------------------------------------------------ *)
(** *** The machine run without interruption is [syncOfflineSales]      *)

Lemma resume_n_step (f : nat) (auth : Auth) (be : Backend) (k : PassK) (w : World) :
  resume_n (S f) auth be (Some k) w =
  match pass_step auth be k w with
  | (Returned k', w') => resume_n f auth be k' w'
  | (Thrown e, w') => (Thrown e, w')
  end.
Proof. reflexivity. Qed.

Lemma resume_n_done (f : nat) (auth : Auth) (be : Backend) (w : World) :
  resume_n f auth be None w = (Returned None, w).
Proof. destruct f; reflexivity. Qed.

Lemma resume_loop (auth : Auth) (be : Backend) (todo : list BillData) :
  forall (fuel n : nat) (w : World),
  2 * length todo + 2 <= fuel ->
  resume_n fuel auth be (Some (KCommit todo n)) w =
  (Returned None,
   finish_world (n + length (synced be todo)) (snd (sync_loop auth be todo n w))).
Proof.
  induction todo as [|b rest IH]; intros fuel n w Hf.
  - destruct fuel as [|[|f]]; simpl in Hf; try lia.
    rewrite resume_n_step, pass_step_commit_nil.
    rewrite resume_n_step, pass_step_requery, resume_n_done.
    unfold finish_world, pending. simpl. rewrite Nat.add_0_r, <- app_assoc.
    reflexivity.
  - destruct fuel as [|f]; simpl in Hf; try lia.
    rewrite resume_n_step. simpl sync_loop. unfold bind.
    destruct (insert_error be b) as [m|] eqn:E.
    + rewrite (pass_step_commit_fail auth be b rest n w m E).
      rewrite (sync_one_fail auth be b n w m E).
      rewrite (synced_cons_fail be b rest m E).
      apply IH. lia.
    + rewrite (pass_step_commit_ok auth be b rest n w E).
      destruct f as [|f]; try lia.
      rewrite resume_n_step, pass_step_delete.
      rewrite (sync_one_ok auth be b n w E).
      rewrite (synced_cons_ok be b rest E). simpl length.
      rewrite Nat.add_succ_r, <- Nat.add_succ_l.
      rewrite IH by lia. simpl. unfold one_events. rewrite E.
      rewrite <- app_assoc. reflexivity.
Qed.

(** Starting a pass and resuming it until it returns, with nothing in
    between, is one call of [syncOfflineSales]. *)
Lemma machine_agrees (auth : Auth) (be : Backend) (w : World) :
  logged_in auth = true ->
  exists w0,
    pass_begin false auth w = (Returned (Some KSnapshot), w0) /\
    resume_n (2 * length (pending w) + 3) auth be (Some KSnapshot) w0 =
    (Returned None, snd (syncOfflineSales false auth be w)).
Proof.
  intros Hu. exists (with_ui (put_isSyncing true) w). split.
  - unfold pass_begin. rewrite Hu. reflexivity.
  - rewrite (syncOfflineSales_run auth be w Hu).
    replace (2 * length (pending w) + 3) with (S (2 * length (pending w) + 2)) by lia.
    rewrite resume_n_step.
    destruct (pending w) as [|b0 l] eqn:E.
    + rewrite pass_step_snapshot_empty by exact E.
      rewrite resume_n_done. unfold after_pass, pass_events. rewrite E.
      simpl. rewrite remove_all_nil. rewrite !app_nil_r. reflexivity.
    + assert (E' : pending (with_ui (put_isSyncing true) w) = b0 :: l) by exact E.
      rewrite pass_step_snapshot_some by (rewrite E'; discriminate).
      rewrite E'. rewrite resume_loop by (simpl; lia).
      rewrite sync_loop_run. unfold after_pass, pass_events. rewrite E.
      assert (Hw : storage_ok w = true /\ buffer w = b0 :: l).
      { unfold pending in E. destruct (storage_ok w); [tauto|discriminate]. }
      destruct Hw as [Hs Hb]. clear E E'.
      destruct w as [u st bf sl d t]. simpl in Hs, Hb. subst st bf.
      remember (b0 :: l) as snap.
      unfold finish_world, pending. wsimpl.
      rewrite <- !app_assoc. reflexivity.
Qed.

(* ================================================================== *)
(** ** Interleavings: triggers, resumptions and offline saves           *)
(* ================================================================== *)

(** Case analysis of one resumption, by the closed forms above. *)
Ltac step_cases auth be k w :=
  let Ep := fresh "Ep" in
  let Ei := fresh "Ei" in
  let todo := fresh "todo" in
  let n := fresh "n" in
  let b := fresh "b" in
  let rest := fresh "rest" in
  let m := fresh "m" in
  destruct k as [|todo n|b rest n|];
  [ destruct (pending w) eqn:Ep;
    [ rewrite (pass_step_snapshot_empty auth be w Ep)
    | rewrite (pass_step_snapshot_some auth be w) by (rewrite Ep; discriminate) ]
  | destruct todo as [|b rest];
    [ rewrite (pass_step_commit_nil auth be n w)
    | destruct (insert_error be b) as [m|] eqn:Ei;
      [ rewrite (pass_step_commit_fail auth be b rest n w m Ei)
      | rewrite (pass_step_commit_ok auth be b rest n w Ei) ] ]
  | rewrite (pass_step_delete auth be b rest n w)
  | rewrite (pass_step_requery auth be w) ].

Lemma trigger_while_syncing (auth : Auth) (s : Sys) :
  isSyncing (ui (world s)) = true -> sys_step (ATrigger auth) s = s.
Proof.
  intros H. unfold sys_step, pass_begin. rewrite H. simpl. destruct s; reflexivity.
Qed.

Lemma save_offline_flag (b : BillData) (w : World) :
  isSyncing (ui (snd (save_offline b w))) = isSyncing (ui w).
Proof.
  destruct (storage_ok w) eqn:E.
  - rewrite (save_offline_stored b w E). reflexivity.
  - rewrite (save_offline_failed b w E). reflexivity.
Qed.

Lemma single_step (a : Action) (s : Sys) : single s -> single (sys_step a s).
Proof.
  unfold single. destruct s as [w ps]. simpl passes. simpl world. intros H.
  destruct a as [auth|i be|b].
  - unfold sys_step. simpl passes. simpl world. unfold pass_begin.
    destruct (isSyncing (ui w)) eqn:Es; simpl.
    + rewrite Es. exact H.
    + destruct (logged_in auth); simpl; [|rewrite Es; exact H].
      destruct ps as [|p [|q ps]]; simpl in *; try reflexivity; try discriminate;
        contradiction.
  - destruct ps as [|p [|q ps]]; try contradiction.
    + unfold sys_step. simpl. destruct i; exact I.
    + unfold sys_step. simpl passes. simpl world.
      destruct i as [|i]; [|destruct i; simpl; exact H].
      simpl nth_error. cbv iota. destruct p as [pa k]. simpl p_auth. simpl p_k.
      step_cases pa be k w; simpl; try exact I; exact H.
  - unfold sys_step. simpl passes. simpl world.
    destruct ps as [|p [|q ps]]; try exact I; try contradiction.
    rewrite save_offline_flag. exact H.
Qed.

Lemma single_run (acts : list Action) : forall s, single s -> single (run acts s).
Proof.
  unfold run. induction acts as [|a acts IH]; intros s H; [exact H|].
  simpl. apply IH. apply single_step. exact H.
Qed.

Lemma single_length (s : Sys) : single s -> length (passes s) <= 1.
Proof.
  unfold single. destruct (passes s) as [|p [|q ps]]; simpl; intros H;
    try lia; contradiction.
Qed.

(* ------------------------------------------------------------------ *)
(** *** The store stays keyed                                           *)

Lemma In_ids_store_put (b : BillData) (l : list BillData) (i : string) :
  In i (ids (store_put b l)) -> i = billId b \/ In i (ids l).
Proof.
  unfold ids. induction l as [|x l IH]; simpl.
  - intros [H|[]]. left. symmetry. exact H.
  - unfold same_bill. destruct (String.eqb (billId x) (billId b)) eqn:E; simpl.
    + intros [H|H]; [left; symmetry; exact H|right; right; exact H].
    + intros [H|H]; [right; left; exact H|].
      destruct (IH H) as [H'|H']; [left; exact H'|right; right; exact H'].
Qed.

Lemma NoDup_ids_store_put (b : BillData) (l : list BillData) :
  NoDup (ids l) -> NoDup (ids (store_put b l)).
Proof.
  induction l as [|x l IH]; simpl; intros H.
  - repeat constructor. intros [].
  - inversion H as [|? ? Hx Hl]; subst. unfold same_bill.
    destruct (String.eqb (billId x) (billId b)) eqn:E; simpl.
    + apply String.eqb_eq in E. rewrite <- E. exact H.
    + constructor; [|apply IH; exact Hl].
      intros Hin. apply In_ids_store_put in Hin. destruct Hin as [Hin|Hin].
      * apply String.eqb_neq in E. contradiction.
      * contradiction.
Qed.

Lemma NoDup_ids_store_remove (i : string) (l : list BillData) :
  NoDup (ids l) -> NoDup (ids (store_remove i l)).
Proof. apply NoDup_ids_filter. Qed.

Lemma NoDup_ids_pending (w : World) :
  NoDup (ids (buffer w)) -> NoDup (ids (pending w)).
Proof. unfold pending. destruct (storage_ok w); [tauto|intros _; constructor]. Qed.

(* ------------------------------------------------------------------ *)
(** *** What the trace of a pass looks like at each await               *)

Arguments in_order : simpl never.

Ltac proj_app_all :=
  rewrite ?snapshots_app, ?attempts_app, ?commits_app, ?deletes_app,
    ?sync_complete_counts_app.

Lemma in_order_quiet (evs x : list Event) (k : option PassK) :
  quiet x -> in_order evs k -> in_order (evs ++ x) k.
Proof.
  intros (Q1 & Q2 & Q3 & Q4 & Q5) H.
  destruct k as [[|todo n|b rest n|]|]; unfold in_order in *; proj_app_all;
    rewrite Q1, Q2, Q3, Q4, Q5, !app_nil_r; exact H.
Qed.

Lemma no_toasts_no_counts (evs : list Event) :
  toasts evs = [] -> sync_complete_counts evs = [].
Proof.
  induction evs as [|e evs IH]; [reflexivity|].
  destruct e; simpl; try exact IH. discriminate.
Qed.

Lemma in_order_snapshot_some (evs : list Event) (snap : list BillData) :
  in_order evs (Some KSnapshot) ->
  in_order (evs ++ [EvGetOfflineSales snap; EvToast (ToastSyncing (length snap))])
           (Some (KCommit snap 0)).
Proof.
  intros (H1 & H2 & H3 & H4 & H5). unfold in_order. exists snap. proj_app_all.
  rewrite H1, H2, H3, H4, H5. simpl. repeat split.
Qed.

Lemma in_order_snapshot_empty (evs : list Event) :
  in_order evs (Some KSnapshot) ->
  in_order (evs ++ [EvGetOfflineSales []]) None.
Proof.
  intros (H1 & H2 & H3 & H4 & H5). unfold in_order. exists [], []. proj_app_all.
  rewrite H1, H2, H3, H4, H5. simpl. repeat split. lia.
Qed.

Lemma in_order_commit_nil (evs : list Event) (n : nat) :
  in_order evs (Some (KCommit [] n)) ->
  in_order (evs ++ (if Nat.ltb 0 n then [EvToast (ToastSyncComplete n)] else []))
           (Some KRequery).
Proof.
  intros (snap & H1 & H2 & H3 & H4 & H5). unfold in_order. exists snap.
  rewrite app_nil_r in H2. proj_app_all. rewrite H5. subst n.
  destruct (Nat.ltb 0 (length (deletes evs))) eqn:En; simpl;
    rewrite ?app_nil_r, ?En; repeat split; assumption.
Qed.

Lemma in_order_commit_fail (auth : Auth) (be : Backend) (evs : list Event)
    (b : BillData) (rest : list BillData) (n : nat) (m : string) :
  insert_error be b = Some m ->
  in_order evs (Some (KCommit (b :: rest) n)) ->
  in_order (evs ++ one_events auth be b) (Some (KCommit rest n)).
Proof.
  intros E (snap & H1 & H2 & H3 & H4 & H5). unfold in_order. exists snap.
  proj_app_all.
  destruct (one_events_proj auth be b) as (-> & -> & -> & -> & Ht).
  rewrite (no_toasts_no_counts _ Ht), (synced_cons_fail be b [] m E).
  simpl. rewrite !app_nil_r, <- app_assoc. repeat split; assumption.
Qed.

Lemma in_order_commit_ok (auth : Auth) (be : Backend) (evs : list Event)
    (b : BillData) (rest : list BillData) (n : nat) :
  in_order evs (Some (KCommit (b :: rest) n)) ->
  in_order (evs ++ commit_events auth be b) (Some (KDelete b rest n)).
Proof.
  intros (snap & H1 & H2 & H3 & H4 & H5). unfold in_order. exists snap.
  proj_app_all.
  destruct (commit_events_proj auth be b) as (-> & -> & -> & -> & Ht & _).
  rewrite (no_toasts_no_counts _ Ht).
  unfold ids. rewrite map_app. fold (ids (commits evs)). simpl.
  rewrite !app_nil_r, <- app_assoc, <- H3. repeat split; assumption.
Qed.

Lemma in_order_delete (evs : list Event) (b : BillData) (rest : list BillData)
    (n : nat) :
  in_order evs (Some (KDelete b rest n)) ->
  in_order (evs ++ [EvDeleteSyncedSale (billId b)]) (Some (KCommit rest (S n))).
Proof.
  intros (snap & H1 & H2 & H3 & H4 & H5). unfold in_order. exists snap.
  proj_app_all. simpl. rewrite !app_nil_r, H3, H5, length_app. simpl.
  repeat split; try assumption. lia.
Qed.

Lemma in_order_requery (evs : list Event) (remaining : list BillData) :
  in_order evs (Some KRequery) ->
  in_order (evs ++ [EvGetOfflineSales remaining]) None.
Proof.
  intros (snap & H1 & H2 & H3 & H4). unfold in_order. exists snap, [remaining].
  proj_app_all. simpl. rewrite !app_nil_r, H1. repeat split; try assumption.
  simpl. lia.
Qed.

Lemma burst_step (t0 : list Event) (a : Action) (s : Sys) :
  passes s <> [] -> burst_inv t0 s -> burst_inv t0 (sys_step a s).
Proof.
  destruct s as [w ps]. unfold burst_inv. simpl passes. simpl world.
  intros Hne (evs & Ht & H).
  destruct ps as [|[pa k] [|q ps]]; try contradiction. destruct H as [Hs H].
  simpl p_k in H.
  destruct a as [auth|i be|b].
  - rewrite trigger_while_syncing by exact Hs. simpl.
    exists evs. repeat split; assumption.
  - destruct i as [|i].
    2:{ unfold sys_step. simpl. destruct i; simpl; exists evs; repeat split; assumption. }
    unfold sys_step. simpl nth_error. cbv iota. simpl p_auth. simpl p_k.
    simpl world. simpl passes.
    step_cases pa be k w; simpl; rewrite Ht, <- app_assoc;
      eexists; (split; [reflexivity|]); try (split; [exact Hs|]).
    + apply in_order_snapshot_empty. exact H.
    + apply in_order_snapshot_some. exact H.
    + apply in_order_commit_nil. exact H.
    + eapply in_order_commit_fail; [eassumption|exact H].
    + apply in_order_commit_ok. exact H.
    + apply in_order_delete. exact H.
    + apply in_order_requery. exact H.
  - unfold sys_step. simpl world. simpl passes.
    destruct (storage_ok w) eqn:E.
    + rewrite (save_offline_stored b w E). simpl. rewrite Ht, <- app_assoc.
      eexists. split; [reflexivity|]. split; [exact Hs|].
      apply in_order_quiet; [|exact H]. repeat split.
    + rewrite (save_offline_failed b w E). simpl. rewrite Ht, <- app_assoc.
      eexists. split; [reflexivity|]. split; [exact Hs|].
      apply in_order_quiet; [|exact H]. repeat split.
Qed.

Lemma burst_run (t0 : list Event) (acts : list Action) : forall s,
  burst_inv t0 s -> burst_inv t0 (run_burst acts s).
Proof.
  induction acts as [|a acts IH]; intros s H; [exact H|].
  simpl. destruct (passes s) as [|p ps] eqn:E; [exact H|].
  apply IH. apply burst_step; [rewrite E; discriminate|exact H].
Qed.

Lemma snapshots_quiet_Forall (evs x : list Event) :
  snapshots x = [] ->
  Forall (fun snap => NoDup (ids snap)) (snapshots evs) ->
  Forall (fun snap => NoDup (ids snap)) (snapshots (evs ++ x)).
Proof. intros Q H. rewrite snapshots_app, Q, app_nil_r. exact H. Qed.

Lemma keyed_step (t0 : list Event) (a : Action) (s : Sys) :
  keyed t0 s -> keyed t0 (sys_step a s).
Proof.
  destruct s as [w ps]. unfold keyed. simpl world.
  intros (Hn & evs & Ht & Hf).
  destruct a as [auth|i be|b].
  - unfold sys_step, pass_begin. simpl world. simpl passes.
    destruct (isSyncing (ui w) || negb (logged_in auth)); simpl;
      (split; [exact Hn|]); exists evs; split; assumption.
  - unfold sys_step. simpl world. simpl passes.
    destruct (nth_error ps i) as [[pa k]|]; simpl.
    2:{ split; [exact Hn|]. exists evs. split; assumption. }
    pose proof (NoDup_ids_pending w Hn) as Hp.
    step_cases pa be k w; simpl; rewrite Ht, <- app_assoc;
      (split; [try exact Hn|]);
      try (eexists; split; [reflexivity|]).
    + rewrite snapshots_app. apply Forall_app. split; [exact Hf|].
      repeat constructor.
    + rewrite snapshots_app. apply Forall_app. split; [exact Hf|].
      simpl. repeat constructor. rewrite Ep. exact Hp.
    + apply snapshots_quiet_Forall; [|exact Hf]. destruct (Nat.ltb 0 n); reflexivity.
    + apply snapshots_quiet_Forall; [|exact Hf].
      match goal with
      | |- snapshots (one_events ?a ?e ?x) = [] => apply (one_events_proj a e x)
      end.
    + apply snapshots_quiet_Forall; [|exact Hf].
      match goal with
      | |- snapshots (commit_events ?a ?e ?x) = [] => apply (commit_events_proj a e x)
      end.
    + destruct (storage_ok w); [apply NoDup_ids_store_remove|]; exact Hn.
    + apply snapshots_quiet_Forall; [reflexivity|exact Hf].
    + rewrite snapshots_app. apply Forall_app. split; [exact Hf|].
      repeat constructor. exact Hp.
  - unfold sys_step. simpl world. simpl passes.
    destruct (storage_ok w) eqn:E.
    + rewrite (save_offline_stored b w E). simpl. rewrite Ht, <- app_assoc.
      split; [apply NoDup_ids_store_put; exact Hn|].
      eexists. split; [reflexivity|].
      apply snapshots_quiet_Forall; [reflexivity|exact Hf].
    + rewrite (save_offline_failed b w E). simpl. rewrite Ht, <- app_assoc.
      split; [exact Hn|].
      eexists. split; [reflexivity|].
      apply snapshots_quiet_Forall; [reflexivity|exact Hf].
Qed.

Lemma keyed_burst (t0 : list Event) (acts : list Action) : forall s,
  keyed t0 s -> keyed t0 (run_burst acts s).
Proof.
  induction acts as [|a acts IH]; intros s H; [exact H|].
  simpl. destruct (passes s); [exact H|]. apply IH. apply keyed_step. exact H.
Qed.

Lemma run_burst_idle (acts : list Action) (s : Sys) :
  passes s = [] -> run_burst acts s = s.
Proof. intros H. destruct acts; simpl; [reflexivity|]. rewrite H. reflexivity. Qed.

Lemma sys_step_trigger (auth : Auth) (w : World) (ps : list Pass) :
  sys_step (ATrigger auth) {| world := w; passes := ps |} =
  if isSyncing (ui w) || negb (logged_in auth)
  then {| world := w; passes := ps |}
  else {| world := with_ui (put_isSyncing true) w;
          passes := ps ++ [{| p_auth := auth; p_k := KSnapshot |}] |}.
Proof.
  unfold sys_step, pass_begin. cbn [world passes].
  destruct (isSyncing (ui w) || negb (logged_in auth)); reflexivity.
Qed.

(** A trigger on a controller without a suspended pass either starts no
    pass (flag already up, or nobody signed in) or starts the one pass of the
    burst. *)
Lemma burst_from_trigger (s0 : Sys) (auth : Auth) (acts : list Action) :
  passes s0 = [] ->
  let s1 := sys_step (ATrigger auth) s0 in
  let s' := run_burst acts s1 in
  (passes s1 = [] /\ s' = s1 /\ world s1 = world s0) \/
  (passes s1 <> [] /\ single s1 /\ burst_inv (trace (world s0)) s').
Proof.
  intros H0 s1 s'. subst s' s1. destruct s0 as [w ps]. simpl in H0. subst ps.
  rewrite sys_step_trigger. simpl world.
  destruct (isSyncing (ui w) || negb (logged_in auth)); simpl.
  - left. rewrite run_burst_idle by reflexivity. repeat split.
  - right. split; [discriminate|]. split; [reflexivity|].
    apply burst_run. exists []. simpl. rewrite app_nil_r.
    repeat split.
Qed.

Lemma keyed_from_trigger (s0 : Sys) (auth : Auth) (acts : list Action) :
  NoDup (ids (buffer (world s0))) ->
  keyed (trace (world s0)) (run_burst acts (sys_step (ATrigger auth) s0)).
Proof.
  intros H. apply keyed_burst, keyed_step. split; [exact H|].
  exists []. rewrite app_nil_r. split; [reflexivity|constructor].
Qed.

(** What the guard achieves for calls made through the callback of the
    current render (the call of line 172 each time the effect runs, or a
    listener that the effect has replaced since the flag changed).  From a
    controller with no pass in flight, whatever such calls, resumptions and
    offline saves follow: at most one pass is suspended at any time and the
    flag is up while it is; a call that finds the flag up changes nothing and
    starts nothing; and in the burst that follows a call, up to the end of
    its pass, no [billId] is handed to the remote commit twice.  A listener
    that still holds the callback of an earlier render is outside this
    statement; the page machine below covers it. *)
Theorem current_callback_is_guarded (s0 : Sys) (auth : Auth) (acts : list Action) :
  passes s0 = [] ->
  NoDup (ids (buffer (world s0))) ->
  let s := run acts s0 in
  let s' := run_burst acts (sys_step (ATrigger auth) s0) in
  length (passes s) <= 1 /\
  (passes s <> [] -> isSyncing (ui (world s)) = true) /\
  (isSyncing (ui (world s)) = true -> sys_step (ATrigger auth) s = s) /\
  length (passes s') <= 1 /\
  exists evs,
    trace (world s') = trace (world s0) ++ evs /\
    NoDup (ids (attempts evs)) /\
    length (snapshots evs) <= 2.
Proof.
  intros H0 Hn s s'.
  assert (Hs : single s).
  { apply single_run. unfold single. rewrite H0. exact I. }
  split; [apply single_length; exact Hs|].
  split.
  { intros Hne. unfold single in Hs.
    destruct (passes s) as [|p [|q ps]]; [contradiction|exact Hs|contradiction]. }
  split; [apply trigger_while_syncing|].
  destruct (keyed_from_trigger s0 auth acts Hn) as (_ & evk & Htk & Hfk).
  fold s' in Htk.
  pose proof (burst_from_trigger s0 auth acts H0) as B. cbv zeta in B. fold s' in B.
  destruct B as [(Hp & He & Hw)|(_ & _ & Hb)].
  - rewrite He, Hp. split; [simpl; lia|].
    exists []. rewrite app_nil_r, Hw. repeat split; simpl; [constructor|lia].
  - destruct Hb as (evs & Ht & Hb).
    assert (evk = evs) by (apply (app_inv_head (trace (world s0))); congruence).
    subst evk.
    split.
    { destruct (passes s') as [|p [|q ps]]; simpl; try lia; contradiction. }
    exists evs. split; [exact Ht|].
    assert (Hpre : exists snap later todo,
               snapshots evs = snap ++ later /\ length snap <= 1 /\ length later <= 1 /\
               concat snap = attempts evs ++ todo).
    { destruct (passes s') as [|[pa k] [|q ps]]; try contradiction.
      - destruct Hb as (snap & later & H1 & H2 & H3 & _).
        exists [snap], later, []. simpl. rewrite !app_nil_r. repeat split; auto.
      - destruct Hb as [_ Hb]. simpl p_k in Hb. unfold in_order in Hb.
        destruct k as [|todo n|b rest n|].
        + destruct Hb as (H1 & H2 & _). exists [], [], []. rewrite H1, H2.
          repeat split; simpl; lia.
        + destruct Hb as (snap & H1 & H2 & _). exists [snap], [], todo.
          rewrite H1. simpl. rewrite app_nil_r. repeat split; auto.
        + destruct Hb as (snap & H1 & H2 & _). exists [snap], [], rest.
          rewrite H1. simpl. rewrite app_nil_r. repeat split; auto.
        + destruct Hb as (snap & H1 & H2 & _). exists [snap], [], [].
          rewrite H1. simpl. rewrite !app_nil_r. repeat split; auto. }
    destruct Hpre as (snap & later & todo & H1 & H2 & H3 & H4).
    split; [|rewrite H1, length_app; lia].
    destruct snap as [|sn [|x y]]; simpl in H2; try lia.
    + simpl in H4. destruct (attempts evs); [constructor|discriminate].
    + simpl in H4. rewrite app_nil_r in H4. rewrite H1 in Hfk.
      inversion Hfk as [|? ? Hsn _]; subst.
      unfold ids in Hsn. rewrite map_app in Hsn.
      apply NoDup_app_remove_r in Hsn. exact Hsn.
Qed.

Lemma current_callback_is_guarded_witness :
  let s := run demo_actions demo_sys in
  let s' := run_burst demo_actions (sys_step (ATrigger demo_auth) demo_sys) in
  length (passes s) <= 1 /\
  (passes s <> [] -> isSyncing (ui (world s)) = true) /\
  (isSyncing (ui (world s)) = true -> sys_step (ATrigger demo_auth) s = s) /\
  length (passes s') <= 1 /\
  exists evs,
    trace (world s') = trace (world demo_sys) ++ evs /\
    NoDup (ids (attempts evs)) /\
    length (snapshots evs) <= 2.
Proof.
  apply (current_callback_is_guarded demo_sys demo_auth demo_actions).
  - reflexivity.
  - repeat constructor; simpl; intuition discriminate.
Defined.

Lemma last_of_app {A} (l1 l2 : list A) (d : A) :
  l2 <> [] -> last (l1 ++ l2) d = last l2 d.
Proof.
  intros H. induction l1 as [|x l1 IH]; [reflexivity|].
  simpl. rewrite IH. destruct (l1 ++ l2) eqn:E; [|reflexivity].
  apply app_eq_nil in E. destruct E as [_ E]. contradiction.
Qed.

Lemma step_completes (a : Action) (s : Sys) :
  single s -> passes s <> [] -> passes (sys_step a s) = [] ->
  completed (world (sys_step a s)).
Proof.
  destruct s as [w ps]. unfold single. simpl passes. simpl world.
  intros Hs Hne.
  destruct ps as [|[pa k] [|q ps]]; try contradiction.
  destruct a as [auth|i be|b].
  - rewrite sys_step_trigger. rewrite Hs. simpl. discriminate.
  - destruct i as [|i].
    2:{ unfold sys_step. simpl. destruct i; simpl; discriminate. }
    unfold sys_step. simpl nth_error. cbv iota. simpl p_auth. simpl p_k.
    simpl world. simpl passes.
    step_cases pa be k w; simpl; try discriminate; intros _; unfold completed, pending;
      simpl; fold (pending w).
    + rewrite Ep. repeat split. eexists. reflexivity.
    + repeat split. eexists. reflexivity.
  - unfold sys_step. simpl. discriminate.
Qed.

Lemma burst_end (acts : list Action) : forall s,
  single s -> passes s <> [] -> passes (run_burst acts s) = [] ->
  completed (world (run_burst acts s)).
Proof.
  induction acts as [|a acts IH]; intros s Hs Hne Hend.
  - simpl in Hend. contradiction.
  - simpl in *. destruct (passes s) as [|p ps] eqn:E; [contradiction|].
    assert (Hne' : passes s <> []) by (rewrite E; discriminate).
    destruct (passes (sys_step a s)) as [|p' ps'] eqn:E'.
    + rewrite run_burst_idle in * by exact E'.
      apply step_completes; assumption.
    + apply IH; [apply single_step; exact Hs|rewrite E'; discriminate|exact Hend].
Qed.

(** C8. When the pass started by a trigger returns, after all records of
    its snapshot were attempted and whatever offline saves and further
    triggers were interleaved, the pending count equals the size of the
    buffer as it is then: it is the length of the result of the
    [getOfflineSales] call that ends the pass, and the flag is down. *)
Theorem pending_count_is_requeried (s0 : Sys) (auth : Auth) (acts : list Action) :
  passes s0 = [] ->
  let s1 := sys_step (ATrigger auth) s0 in
  let s' := run_burst acts s1 in
  passes s1 <> [] ->
  passes s' = [] ->
  pendingSaleCount (ui (world s')) = length (pending (world s')) /\
  isSyncing (ui (world s')) = false /\
  exists evs,
    trace (world s') = trace (world s0) ++ evs /\
    last (snapshots evs) [] = pending (world s') /\
    exists snap later, snapshots evs = snap :: later /\ attempts evs = snap.
Proof.
  intros H0 s1 s' Hne Hend.
  pose proof (burst_from_trigger s0 auth acts H0) as B. cbv zeta in B.
  fold s1 in B. fold s' in B.
  destruct B as [(Hp & _)|(_ & Hs & (evs & Ht & Hb))]; [contradiction|].
  destruct (burst_end acts s1 Hs Hne Hend) as (Hc & Hf & (t & Hl)). fold s' in Hc, Hf, Hl.
  split; [exact Hc|]. split; [exact Hf|].
  exists evs. split; [exact Ht|].
  rewrite Hend in Hb. destruct Hb as (snap & later & H1 & H2 & H3 & _).
  split.
  - assert (Hsn : snapshots (trace (world s')) =
                  snapshots (trace (world s0)) ++ snapshots evs).
    { rewrite Ht. apply snapshots_app. }
    rewrite Hl, snapshots_app in Hsn. simpl in Hsn.
    assert (Hlast : last (snapshots (trace (world s0)) ++ snapshots evs) [] =
                    pending (world s')).
    { rewrite <- Hsn. apply last_last. }
    rewrite last_of_app in Hlast; [exact Hlast|]. rewrite H1. discriminate.
  - exists snap, later. split; [exact H1|symmetry; exact H3].
Qed.

Lemma pending_count_is_requeried_witness :
  let s1 := sys_step (ATrigger demo_auth) demo_sys in
  let s' := run_burst demo_actions s1 in
  (pendingSaleCount (ui (world s')) = length (pending (world s')) /\
   isSyncing (ui (world s')) = false /\
   exists evs,
     trace (world s') = trace (world demo_sys) ++ evs /\
     last (snapshots evs) [] = pending (world s') /\
     exists snap later, snapshots evs = snap :: later /\ attempts evs = snap) /\
  pending (world s') = [demo_bill "INV-1001"; demo_bill "INV-1002"] /\
  pendingSaleCount (ui (world s')) = 2.
Proof.
  split.
  - apply (pending_count_is_requeried demo_sys demo_auth demo_actions).
    + reflexivity.
    + discriminate.
    + reflexivity.
  - split; reflexivity.
Defined.

(** The scenario of the specification: a cash sale of 250 completed offline
    under INV-1000 is buffered; when the connection is back one pass commits
    it, the buffer is empty and the pending count is 0. *)
Example offline_sale_scenario :
  let w0 := world_of demo_offline_ui in
  let w1 := snd (completeSale demo_auth (ui w0) cash 1000%Z be_ok w0) in
  let w2 := snd (trigger demo_auth be_ok w1) in
  map (fun b => (billId b, finalAmount b)) (pending w1) = [("INV-1000", 250%Z)] /\
  pendingSaleCount (ui w1) = 1 /\
  pending w2 = [] /\
  pendingSaleCount (ui w2) = 0 /\
  map (fun r => (billId (bill_data r), total_amount r)) (sales w2)
    = [("INV-1000", 250%Z)] /\
  decrements w2 = [("item-rice", 2%Z)] /\
  toasts (trace w2) = [ToastSavedOffline; ToastSyncing 1; ToastSyncComplete 1].
Proof. vm_compute. repeat split. Qed.

(* ================================================================== *)
(** ** The page: stale callbacks and overlapping passes                 *)
(* ================================================================== *)

Lemma own_events_app (w w' : World) (x : list Event) :
  trace w' = trace w ++ x -> own_events w w' = x.
Proof.
  intros H. unfold own_events.
  rewrite H, skipn_app, skipn_all, Nat.sub_diag. reflexivity.
Qed.

Lemma nth_error_replace_nth {A} (l : list A) : forall (i : nat) (x y : A),
  nth_error l i = Some x -> nth_error (replace_nth i y l) i = Some y.
Proof.
  induction l as [|z l IH]; intros [|i] x y H; simpl in *; try discriminate.
  - reflexivity.
  - apply (IH i x y H).
Qed.

Lemma nth_error_replace_other {A} (l : list A) : forall (i j : nat) (y : A),
  i <> j -> nth_error (replace_nth i y l) j = nth_error l j.
Proof.
  induction l as [|z l IH]; intros [|i] [|j] y H; simpl; try reflexivity.
  - contradiction.
  - apply IH. intros E. apply H. rewrite E. reflexivity.
Qed.

Lemma replace_nth_twice {A} (l : list A) : forall (i : nat) (x y : A),
  replace_nth i y (replace_nth i x l) = replace_nth i y l.
Proof.
  induction l as [|z l IH]; intros [|i] x y; simpl; try reflexivity.
  rewrite IH. reflexivity.
Qed.

Lemma replace_nth_same {A} (l : list A) : forall (i : nat) (x : A),
  nth_error l i = Some x -> replace_nth i x l = l.
Proof.
  induction l as [|z l IH]; intros [|i] x H; simpl in *; try discriminate.
  - injection H as ->. reflexivity.
  - rewrite (IH i x H). reflexivity.
Qed.

Lemma Forall_replace_nth {A} (P : A -> Prop) (l : list A) : forall (i : nat) (y : A),
  Forall P l -> P y -> Forall P (replace_nth i y l).
Proof.
  induction l as [|z l IH]; intros [|i] y Hl Hy; simpl; try exact Hl;
    inversion Hl as [|? ? Hz Hl']; subst; constructor; auto.
Qed.

Lemma nth_error_grows {A} (l l' : list A) (i : nat) (x : A) :
  nth_error l i = Some x -> nth_error (l ++ l') i = Some x.
Proof.
  intros H. rewrite nth_error_app1; [exact H|].
  apply nth_error_Some. rewrite H. discriminate.
Qed.

(** Every resumption returns to the event loop, and only adds to the trace. *)
Lemma pass_step_returns (auth : Auth) (be : Backend) (k : PassK) (w : World) :
  exists k' x,
    fst (pass_step auth be k w) = Returned k' /\
    trace (snd (pass_step auth be k w)) = trace w ++ x /\
    storage_ok (snd (pass_step auth be k w)) = storage_ok w.
Proof.
  step_cases auth be k w; simpl; eexists; eexists; repeat split.
Qed.

Lemma page_settle (auth : Auth) (be : Backend) (i : nat) (p : Page) (f : Flight)
    (k : PassK) :
  nth_error (flights p) i = Some f -> f_k f = Some k ->
  page_step auth (ISettle i be) p =
  {| pworld := snd (pass_step auth be k (pworld p)); rendered := rendered p;
     listener := listener p; checks := checks p;
     flights := replace_nth i
                  {| f_k := settled (fst (pass_step auth be k (pworld p)));
                     f_log := f_log f
                              ++ own_events (pworld p) (snd (pass_step auth be k (pworld p))) |}
                  (flights p) |}.
Proof.
  intros H Hk. unfold page_step. rewrite H. destruct f as [fk log].
  simpl in Hk. subst fk. reflexivity.
Qed.

Lemma page_settle_done (auth : Auth) (be : Backend) (i : nat) (p : Page) (f : Flight) :
  nth_error (flights p) i = Some f -> f_k f = None ->
  page_step auth (ISettle i be) p = p.
Proof.
  intros H Hk. unfold page_step. rewrite H. destruct f as [fk log].
  simpl in Hk. subst fk. reflexivity.
Qed.

Lemma take_off_flights (auth : Auth) (seen : bool) (w : World) (p : Page) :
  flights (take_off (pass_begin seen auth w) p) = flights p \/
  flights (take_off (pass_begin seen auth w) p)
    = flights p ++ [{| f_k := Some KSnapshot; f_log := [] |}].
Proof.
  unfold pass_begin. destruct (seen || negb (logged_in auth)); simpl; auto.
Qed.

Lemma connectivity_flights (auth : Auth) (seen onLine : bool) (w : World) (p : Page) :
  flights (take_off (updateOnlineStatus seen auth onLine w) p) = flights p \/
  flights (take_off (updateOnlineStatus seen auth onLine w) p)
    = flights p ++ [{| f_k := Some KSnapshot; f_log := [] |}].
Proof.
  unfold updateOnlineStatus, bind, modify, toast, emit, modify, pass_begin.
  destruct onLine; simpl; [|auto].
  destruct (seen || negb (logged_in auth)); simpl; auto.
Qed.

(** Passes are never dropped from the list and only a resumption of the
    i-th pass changes the i-th pass. *)
Lemma page_step_keeps (auth : Auth) (a : Input) (p : Page) (i : nat) (f : Flight) :
  (forall be, a <> ISettle i be) ->
  nth_error (flights p) i = Some f ->
  nth_error (flights (page_step auth a p)) i = Some f.
Proof.
  intros Ha H. destruct a as [|onLine|onLine|j be| |b].
  - exact H.
  - unfold page_step. destruct onLine; [|exact H].
    match goal with
    | |- context [take_off (pass_begin ?s ?a ?w) ?q] =>
        destruct (take_off_flights a s w q) as [E|E]; rewrite E
    end; simpl; [exact H|apply nth_error_grows; exact H].
  - unfold page_step. destruct (listener p) as [seen|]; [|exact H].
    destruct (connectivity_flights auth seen onLine (pworld p) p) as [E|E];
      rewrite E; [exact H|apply nth_error_grows; exact H].
  - unfold page_step. destruct (nth_error (flights p) j) as [[[k|] log]|] eqn:E;
      try exact H.
    simpl flights. rewrite nth_error_replace_other; [exact H|].
    intros ->. apply (Ha be). reflexivity.
  - unfold page_step. destruct (checks p); exact H.
  - exact H.
Qed.

(* ------------------------------------------------------------------ *)
(** *** What each pass does, whatever runs between its awaits           *)

Lemma flown_step (auth : Auth) (be : Backend) (k : PassK) (w : World)
    (log : list Event) :
  flown log (Some k) ->
  flown (log ++ own_events w (snd (pass_step auth be k w)))
        (settled (fst (pass_step auth be k w))).
Proof.
  intros H.
  step_cases auth be k w; cbn [fst snd settled];
    (erewrite own_events_app by (cbn [trace]; reflexivity)).
  - (* empty snapshot *)
    unfold flown in H. subst log. unfold flown. exists [], [].
    repeat split. left. split; reflexivity.
  - (* snapshot *)
    unfold flown in H. subst log. unfold flown.
    exists (pending w), [EvToast (ToastSyncing (length (pending w)))].
    cbn [todo_of deleting]. repeat split. rewrite Ep. discriminate.
  - (* end of the loop *)
    destruct H as (snap & evs & Hl & Ha & Hd & Hn & Hs). cbn [todo_of deleting] in *.
    unfold flown. exists snap, (evs ++ (if Nat.ltb 0 n then [EvToast (ToastSyncComplete n)] else [])).
    cbn [todo_of deleting]. proj_app_all.
    assert (Q : attempts (if Nat.ltb 0 n then [EvToast (ToastSyncComplete n)] else []) = []
                /\ commits (if Nat.ltb 0 n then [EvToast (ToastSyncComplete n)] else []) = []
                /\ deletes (if Nat.ltb 0 n then [EvToast (ToastSyncComplete n)] else []) = []
                /\ snapshots (if Nat.ltb 0 n then [EvToast (ToastSyncComplete n)] else []) = []).
    { destruct (Nat.ltb 0 n); repeat split. }
    destruct Q as (-> & -> & -> & ->). rewrite !app_nil_r.
    rewrite app_nil_r in Ha, Hd. subst log. repeat split; assumption.
  - (* a commit that fails *)
    destruct H as (snap & evs & Hl & Ha & Hd & Hn & Hs). cbn [todo_of deleting] in *.
    unfold flown. exists snap, (evs ++ one_events auth be b).
    cbn [todo_of deleting]. proj_app_all.
    destruct (one_events_proj auth be b) as (-> & -> & -> & -> & _).
    rewrite (synced_cons_fail be b [] m Ei). cbn [ids map].
    rewrite !app_nil_r, <- app_assoc. subst log.
    rewrite app_nil_r in Hd. repeat split; try assumption; discriminate.
  - (* a commit that succeeds *)
    destruct H as (snap & evs & Hl & Ha & Hd & Hn & Hs). cbn [todo_of deleting] in *.
    unfold flown. exists snap, (evs ++ commit_events auth be b).
    cbn [todo_of deleting]. proj_app_all.
    destruct (commit_events_proj auth be b) as (-> & -> & -> & -> & _).
    unfold ids. rewrite map_app. fold (ids (commits evs)). cbn [map].
    rewrite !app_nil_r, <- app_assoc. subst log.
    rewrite app_nil_r in Hd. rewrite Hd. repeat split; try assumption; discriminate.
  - (* the delete *)
    destruct H as (snap & evs & Hl & Ha & Hd & Hn & Hs). cbn [todo_of deleting] in *.
    unfold flown. exists snap, (evs ++ [EvDeleteSyncedSale (billId b)]).
    cbn [todo_of deleting]. proj_app_all. cbn [attempts commits deletes snapshots].
    rewrite !app_nil_r. subst log. repeat split; assumption.
  - (* the read that ends the pass *)
    destruct H as (snap & evs & Hl & Ha & Hd & Hn & Hs). cbn [todo_of deleting] in *.
    unfold flown. exists snap, (evs ++ [EvGetOfflineSales (pending w)]).
    cbn [todo_of deleting]. proj_app_all. cbn [attempts commits deletes].
    rewrite !app_nil_r. rewrite app_nil_r in Ha, Hd. subst log.
    split; [reflexivity|]. split; [assumption|]. split; [assumption|].
    right. split; [assumption|]. exists evs, (pending w). split; [reflexivity|assumption].
Qed.

Lemma awaits_step (auth : Auth) (be : Backend) (k : PassK) (w : World) :
  settled (fst (pass_step auth be k w)) <> Some KSnapshot /\
  (k <> KSnapshot ->
   awaits_left (settled (fst (pass_step auth be k w))) < awaits_left (Some k)).
Proof.
  step_cases auth be k w; cbn [fst snd settled awaits_left length];
    (split; [discriminate|]); intros H; try contradiction; lia.
Qed.

(** A resumption leaves the buffer alone, except the one that follows a
    successful commit: it removes exactly that record. *)
Lemma pass_step_buffer (auth : Auth) (be : Backend) (k : PassK) (w : World) :
  pending (snd (pass_step auth be k w)) =
  match k with
  | KDelete billData _ _ => store_remove (billId billData) (pending w)
  | _ => pending w
  end.
Proof.
  unfold pending.
  step_cases auth be k w; cbn [snd storage_ok buffer]; try reflexivity.
  destruct (storage_ok w); reflexivity.
Qed.

Lemma pass_step_attempts (auth : Auth) (be : Backend) (k : PassK) (w : World) :
  attempts (own_events w (snd (pass_step auth be k w))) =
  match k with
  | KCommit (billData :: _) _ => [billData]
  | _ => []
  end.
Proof.
  step_cases auth be k w; cbn [snd];
    (erewrite own_events_app by (cbn [trace]; reflexivity)); try reflexivity.
  - destruct (Nat.ltb 0 n); reflexivity.
  - apply (one_events_proj auth be b).
  - apply (commit_events_proj auth be b).
Qed.

Lemma pass_step_first_read (auth : Auth) (be : Backend) (w : World) :
  exists y,
    own_events w (snd (pass_step auth be KSnapshot w))
      = EvGetOfflineSales (pending w) :: y /\
    settled (fst (pass_step auth be KSnapshot w)) =
      match pending w with
      | [] => None
      | _ :: _ => Some (KCommit (pending w) 0)
      end.
Proof.
  destruct (pending w) as [|b0 l] eqn:Ep.
  - rewrite (pass_step_snapshot_empty auth be w Ep). cbn [fst snd settled].
    erewrite own_events_app by (cbn [trace]; reflexivity).
    exists []. split; reflexivity.
  - rewrite (pass_step_snapshot_some auth be w) by (rewrite Ep; discriminate).
    cbn [fst snd settled].
    erewrite own_events_app by (cbn [trace]; reflexivity).
    rewrite Ep. eexists. split; reflexivity.
Qed.

Lemma all_flown_grows (l : list Flight) :
  Forall (fun f => flown (f_log f) (f_k f)) l ->
  Forall (fun f => flown (f_log f) (f_k f)) (l ++ [{| f_k := Some KSnapshot; f_log := [] |}]).
Proof.
  intros H. apply Forall_app. split; [exact H|]. constructor; [|constructor].
  reflexivity.
Qed.

Lemma all_flown_step (auth : Auth) (a : Input) (p : Page) :
  all_flown p -> all_flown (page_step auth a p).
Proof.
  unfold all_flown. intros H. destruct a as [|onLine|onLine|j be| |b].
  - exact H.
  - unfold page_step. destruct onLine; [|exact H].
    match goal with
    | |- context [take_off (pass_begin ?s ?a ?w) ?q] =>
        destruct (take_off_flights a s w q) as [E|E]; rewrite E
    end; simpl; [exact H|apply all_flown_grows; exact H].
  - unfold page_step. destruct (listener p) as [seen|]; [|exact H].
    destruct (connectivity_flights auth seen onLine (pworld p) p) as [E|E];
      rewrite E; [exact H|apply all_flown_grows; exact H].
  - destruct (nth_error (flights p) j) as [f|] eqn:E.
    2:{ unfold page_step. rewrite E. exact H. }
    destruct (f_k f) as [k|] eqn:Ek.
    2:{ rewrite (page_settle_done auth be j p f E Ek). exact H. }
    rewrite (page_settle auth be j p f k E Ek). cbn [flights].
    apply Forall_replace_nth; [exact H|]. cbn [f_log f_k].
    apply flown_step. rewrite <- Ek.
    rewrite Forall_forall in H. apply H. apply (nth_error_In _ _ E).
  - unfold page_step. destruct (checks p); exact H.
  - exact H.
Qed.

Lemma all_flown_run (auth : Auth) (inputs : list Input) : forall p,
  all_flown p -> all_flown (page_run auth inputs p).
Proof.
  unfold page_run. induction inputs as [|a inputs IH]; intros p H; [exact H|].
  simpl. apply IH. apply all_flown_step. exact H.
Qed.

Lemma page_run_app (auth : Auth) (l1 l2 : list Input) (p : Page) :
  page_run auth (l1 ++ l2) p = page_run auth l2 (page_run auth l1 p).
Proof. unfold page_run. apply fold_left_app. Qed.

(** A pass that holds its snapshot returns once it has been resumed as often
    as it has awaits left, whatever else happens in between. *)
Lemma flight_finishes (auth : Auth) (i : nat) (more : list Input) :
  forall (p : Page) (f : Flight),
  nth_error (flights p) i = Some f ->
  f_k f <> Some KSnapshot ->
  awaits_left (f_k f) <= settles i more ->
  exists f', nth_error (flights (page_run auth more p)) i = Some f' /\ f_k f' = None.
Proof.
  induction more as [|a more IH]; intros p f H Hk Hn.
  - exists f. split; [exact H|]. simpl in Hn.
    destruct (f_k f) as [[|todo n|b rest n|]|]; simpl in Hn; try lia;
      [contradiction|reflexivity].
  - change (page_run auth (a :: more) p)
      with (page_run auth more (page_step auth a p)).
    destruct a as [|onLine|onLine|j be| |b];
      try (apply (IH _ f); [apply page_step_keeps; [discriminate|exact H]|exact Hk|exact Hn]).
    destruct (Nat.eqb j i) eqn:Ej.
    + apply Nat.eqb_eq in Ej. subst j. simpl in Hn. rewrite Nat.eqb_refl in Hn.
      destruct (f_k f) as [k|] eqn:Ek.
      * rewrite (page_settle auth be i p f k H Ek).
        destruct (awaits_step auth be k (pworld p)) as [Hs Hlt].
        eapply IH.
        -- cbn [flights]. apply (nth_error_replace_nth _ i f). exact H.
        -- cbn [f_k]. exact Hs.
        -- cbn [f_k].
           assert (k <> KSnapshot) by (intros ->; apply Hk; reflexivity).
           specialize (Hlt H0). lia.
      * rewrite (page_settle_done auth be i p f H Ek).
        apply (IH p f H); [rewrite Ek; discriminate|rewrite Ek; simpl; lia].
    + simpl in Hn. rewrite Ej in Hn. simpl in Hn.
      apply (IH _ f); [|exact Hk|exact Hn].
      apply page_step_keeps; [|exact H].
      intros be' X. injection X as X _. subst j. rewrite Nat.eqb_refl in Ej. discriminate.
Qed.

Lemma flight_log_grows (auth : Auth) (i : nat) (more : list Input) :
  forall (p : Page) (f : Flight),
  nth_error (flights p) i = Some f ->
  exists f' x,
    nth_error (flights (page_run auth more p)) i = Some f' /\
    f_log f' = f_log f ++ x.
Proof.
  induction more as [|a more IH]; intros p f H.
  - exists f, []. rewrite app_nil_r. split; [exact H|reflexivity].
  - change (page_run auth (a :: more) p)
      with (page_run auth more (page_step auth a p)).
    assert (Hstep : exists f1 x1,
               nth_error (flights (page_step auth a p)) i = Some f1 /\
               f_log f1 = f_log f ++ x1).
    { destruct a as [|onLine|onLine|j be| |b];
        try (exists f, []; rewrite app_nil_r; split;
             [apply page_step_keeps; [discriminate|exact H]|reflexivity]).
      destruct (Nat.eqb j i) eqn:Ej.
      - apply Nat.eqb_eq in Ej. subst j. destruct (f_k f) as [k|] eqn:Ek.
        + rewrite (page_settle auth be i p f k H Ek). cbn [flights].
          eexists. eexists. split; [apply (nth_error_replace_nth _ i f); exact H|].
          reflexivity.
        + rewrite (page_settle_done auth be i p f H Ek).
          exists f, []. rewrite app_nil_r. split; [exact H|reflexivity].
      - exists f, []. rewrite app_nil_r. split; [|reflexivity].
        apply page_step_keeps; [|exact H].
        intros be' X. injection X as X _. subst j. rewrite Nat.eqb_refl in Ej.
        discriminate. }
    destruct Hstep as (f1 & x1 & H1 & E1).
    destruct (IH _ f1 H1) as (f' & x & H' & E').
    exists f', (x1 ++ x). split; [exact H'|]. rewrite E', E1, app_assoc. reflexivity.
Qed.

(** C4. Take any run of the page from a state with no pass in flight:
    renders, effect runs, window events, offline sales and resumptions of
    any pass, in any order.  For every pass started in it:

    - until its first resumption it has made no call; from then on its own
      calls begin with the one read of the buffer, its snapshot; the bills it
      has handed to the remote commit so far, followed by those it still has
      to attempt, are the snapshot in its order, so nothing saved after the
      read is attempted; each successful commit is followed by its own
      [deleteSyncedSale] before the next attempt; no other read happens
      before the one that ends the pass;
    - its next resumption makes its calls at that moment: the first one reads
      the buffer as it is then, a resumption hands at most one bill to the
      remote commit, the resumption after a successful commit removes
      exactly that record from the buffer and no other resumption changes
      the buffer;
    - once it holds its snapshot every resumption leaves it strictly fewer
      awaits, and as soon as it has been resumed that often, whatever else
      happened in between, it has returned having attempted the whole
      snapshot in order with every committed record deleted. *)
Theorem snapshot_once_in_order
    (auth : Auth) (p0 : Page) (inputs : list Input) (i : nat) (f : Flight) :
  flights p0 = [] ->
  let p := page_run auth inputs p0 in
  nth_error (flights p) i = Some f ->
  flown (f_log f) (f_k f) /\
  (forall b, In b (attempts (f_log f)) ->
     exists snap evs, f_log f = EvGetOfflineSales snap :: evs /\ In b snap) /\
  (forall be k, f_k f = Some k ->
     let p' := page_step auth (ISettle i be) p in
     exists f' x,
       nth_error (flights p') i = Some f' /\
       f_log f' = f_log f ++ x /\
       trace (pworld p') = trace (pworld p) ++ x /\
       (k = KSnapshot -> exists y, x = EvGetOfflineSales (pending (pworld p)) :: y) /\
       attempts x = match k with KCommit (b :: _) _ => [b] | _ => [] end /\
       pending (pworld p') =
         match k with
         | KDelete b _ _ => store_remove (billId b) (pending (pworld p))
         | _ => pending (pworld p)
         end /\
       (k <> KSnapshot -> awaits_left (f_k f') < awaits_left (f_k f))) /\
  (forall more snap evs,
     f_log f = EvGetOfflineSales snap :: evs ->
     awaits_left (f_k f) <= settles i more ->
     exists f' x,
       nth_error (flights (page_run auth more p)) i = Some f' /\
       f_k f' = None /\
       f_log f' = EvGetOfflineSales snap :: evs ++ x /\
       attempts (evs ++ x) = snap /\
       ids (commits (evs ++ x)) = deletes (evs ++ x)).
Proof.
  intros H0 p Hf.
  assert (Hall : all_flown p).
  { apply all_flown_run. unfold all_flown. rewrite H0. constructor. }
  assert (Hfl : flown (f_log f) (f_k f)).
  { unfold all_flown in Hall. rewrite Forall_forall in Hall.
    apply Hall. apply (nth_error_In _ _ Hf). }
  split; [exact Hfl|]. split; [|split].
  - intros b Hb. unfold flown in Hfl.
    destruct (f_k f) as [[|todo n|b' rest n|]|];
      try (destruct Hfl as (snap & evs & Hl & Ha & _); exists snap, evs;
           split; [exact Hl|]; rewrite Hl in Hb; cbn [attempts] in Hb;
           rewrite Ha; apply in_or_app; left; exact Hb).
    rewrite Hfl in Hb. contradiction.
  - intros be k Hk p'. subst p'. rewrite (page_settle auth be i p f k Hf Hk).
    cbn [flights pworld].
    destruct (pass_step_returns auth be k (pworld p)) as (k' & x & Hr & Ht & _).
    eexists. exists x.
    split; [apply (nth_error_replace_nth _ i f); exact Hf|]. cbn [f_log f_k].
    rewrite (own_events_app _ _ x Ht).
    split; [reflexivity|]. split; [exact Ht|]. split; [|split; [|split]].
    + intros ->. destruct (pass_step_first_read auth be (pworld p)) as (y & Hy & _).
      rewrite (own_events_app _ _ x Ht) in Hy. exists y. exact Hy.
    + rewrite <- (own_events_app _ _ x Ht). apply pass_step_attempts.
    + apply pass_step_buffer.
    + intros Hn. rewrite Hk. apply (awaits_step auth be k (pworld p)). exact Hn.
  - intros more snap evs Hl Hn.
    assert (Hk : f_k f <> Some KSnapshot).
    { intros E. unfold flown in Hfl. rewrite E in Hfl. rewrite Hfl in Hl. discriminate. }
    destruct (flight_finishes auth i more p f Hf Hk Hn) as (f' & Hf' & Hk').
    destruct (flight_log_grows auth i more p f Hf) as (f'' & x & Hf'' & Hx).
    rewrite Hf' in Hf''. injection Hf'' as <-.
    assert (Hall' : all_flown (page_run auth more p)) by (apply all_flown_run; exact Hall).
    unfold all_flown in Hall'. rewrite Forall_forall in Hall'.
    pose proof (Hall' f' (nth_error_In _ _ Hf')) as Hfl'.
    rewrite Hk' in Hfl'. destruct Hfl' as (snap' & evs' & Hl' & Ha' & Hd' & _).
    cbn [todo_of deleting] in Ha', Hd'. rewrite app_nil_r in Ha', Hd'.
    rewrite Hx, Hl in Hl'. cbn [app] in Hl'. injection Hl' as E1 E2. subst snap' evs'.
    exists f', x. repeat split; try assumption.
    + rewrite Hx, Hl. reflexivity.
    + symmetry. exact Ha'.
Qed.

Lemma snapshot_once_in_order_witness :
  let p := page_run demo_auth demo_inputs demo_page in
  let f := demo_flight in
  flights demo_page = [] /\
  nth_error (flights p) 0 = Some f /\
  pending (pworld p) = [demo_bill "INV-1001"; demo_bill "INV-1002"] /\
  flown (f_log f) (f_k f) /\
  (forall b, In b (attempts (f_log f)) ->
     exists snap evs, f_log f = EvGetOfflineSales snap :: evs /\ In b snap) /\
  (forall be k, f_k f = Some k ->
     let p' := page_step demo_auth (ISettle 0 be) p in
     exists f' x,
       nth_error (flights p') 0 = Some f' /\
       f_log f' = f_log f ++ x /\
       trace (pworld p') = trace (pworld p) ++ x /\
       (k = KSnapshot -> exists y, x = EvGetOfflineSales (pending (pworld p)) :: y) /\
       attempts x = match k with KCommit (b :: _) _ => [b] | _ => [] end /\
       pending (pworld p') =
         match k with
         | KDelete b _ _ => store_remove (billId b) (pending (pworld p))
         | _ => pending (pworld p)
         end /\
       (k <> KSnapshot -> awaits_left (f_k f') < awaits_left (f_k f))) /\
  (forall more snap evs,
     f_log f = EvGetOfflineSales snap :: evs ->
     awaits_left (f_k f) <= settles 0 more ->
     exists f' x,
       nth_error (flights (page_run demo_auth more p)) 0 = Some f' /\
       f_k f' = None /\
       f_log f' = EvGetOfflineSales snap :: evs ++ x /\
       attempts (evs ++ x) = snap /\
       ids (commits (evs ++ x)) = deletes (evs ++ x)).
Proof.
  split; [reflexivity|]. split; [reflexivity|]. split; [reflexivity|].
  apply (snapshot_once_in_order demo_auth demo_page demo_inputs 0 demo_flight);
    reflexivity.
Defined.

(* ------------------------------------------------------------------ *)
(** *** A pass resumed several times in a row                           *)

Lemma resume_n_extends (auth : Auth) (be : Backend) (n : nat) :
  forall (k : option PassK) (w : World),
  exists k' x,
    fst (resume_n n auth be k w) = Returned k' /\
    trace (snd (resume_n n auth be k w)) = trace w ++ x.
Proof.
  induction n as [|n IH]; intros k w.
  - exists k, []. rewrite app_nil_r. split; reflexivity.
  - destruct k as [k|]; [|exists None, []; rewrite app_nil_r; split; reflexivity].
    rewrite resume_n_step.
    destruct (pass_step_returns auth be k w) as (k1 & x1 & Hr & Ht & _).
    destruct (pass_step auth be k w) as [r1 w1]. cbn [fst snd] in Hr, Ht. subst r1.
    destruct (IH k1 w1) as (k' & x & Hr' & Ht').
    exists k', (x1 ++ x). split; [exact Hr'|]. rewrite Ht', Ht, app_assoc. reflexivity.
Qed.

Lemma settle_n (auth : Auth) (be : Backend) (i : nat) (n : nat) :
  forall (p : Page) (f : Flight),
  nth_error (flights p) i = Some f ->
  page_run auth (repeat (ISettle i be) n) p =
  {| pworld := snd (resume_n n auth be (f_k f) (pworld p));
     rendered := rendered p; listener := listener p; checks := checks p;
     flights := replace_nth i
                  {| f_k := settled (fst (resume_n n auth be (f_k f) (pworld p)));
                     f_log := f_log f
                              ++ own_events (pworld p)
                                   (snd (resume_n n auth be (f_k f) (pworld p))) |}
                  (flights p) |}.
Proof.
  induction n as [|n IH]; intros p f H.
  - cbn [repeat page_run fold_left resume_n ret fst snd settled].
    rewrite (own_events_app _ _ [] (eq_sym (app_nil_r _))), app_nil_r.
    replace {| f_k := f_k f; f_log := f_log f |} with f by (destruct f; reflexivity).
    rewrite (replace_nth_same _ i f H). destruct p; reflexivity.
  - change (page_run auth (repeat (ISettle i be) (S n)) p)
      with (page_run auth (repeat (ISettle i be) n) (page_step auth (ISettle i be) p)).
    destruct (f_k f) as [k|] eqn:Ek.
    + rewrite (page_settle auth be i p f k H Ek). rewrite resume_n_step.
      destruct (pass_step_returns auth be k (pworld p)) as (k1 & x1 & Hr & Ht & _).
      destruct (pass_step auth be k (pworld p)) as [r1 w1]. cbn [fst snd] in *. subst r1.
      cbn [settled].
      erewrite IH by (cbn [flights]; apply (nth_error_replace_nth _ i f); exact H).
      cbn [pworld rendered listener checks flights f_k f_log].
      rewrite replace_nth_twice.
      destruct (resume_n_extends auth be n k1 w1) as (k' & x & _ & Ht').
      rewrite (own_events_app _ _ x1 Ht), (own_events_app _ _ x Ht').
      rewrite (own_events_app (pworld p) _ (x1 ++ x))
        by (rewrite Ht', Ht, app_assoc; reflexivity).
      rewrite app_assoc. reflexivity.
    + rewrite (page_settle_done auth be i p f H Ek).
      rewrite (IH p f H), Ek, !resume_n_done. reflexivity.
Qed.

(** A pass that holds the snapshot [snap] and is resumed until it returns,
    with nothing in between: the loop and lines 147-153. *)
Lemma flight_loop (auth : Auth) (be : Backend) (i : nat) (p : Page) (f : Flight)
    (snap : list BillData) :
  nth_error (flights p) i = Some f ->
  f_k f = Some (KCommit snap 0) ->
  page_run auth (repeat (ISettle i be) (2 * length snap + 2)) p =
  {| pworld := finish_world (length (synced be snap))
                 (snd (sync_loop auth be snap 0 (pworld p)));
     rendered := rendered p; listener := listener p; checks := checks p;
     flights := replace_nth i
                  {| f_k := None;
                     f_log := f_log f
                              ++ own_events (pworld p)
                                   (finish_world (length (synced be snap))
                                      (snd (sync_loop auth be snap 0 (pworld p)))) |}
                  (flights p) |}.
Proof.
  intros H Hk. rewrite (settle_n auth be i _ p f H), Hk.
  rewrite (resume_loop auth be snap _ 0 (pworld p)) by lia.
  reflexivity.
Qed.

Lemma updateOnlineStatus_online (auth : Auth) (w : World) :
  logged_in auth = true ->
  updateOnlineStatus false auth true w =
  (Returned (Some KSnapshot),
   {| ui := put_isSyncing true (put_isOffline false (ui w));
      storage_ok := storage_ok w; buffer := buffer w; sales := sales w;
      decrements := decrements w;
      trace := trace w ++ [EvToast ToastBackOnline] |}).
Proof.
  intros Hu. unfold updateOnlineStatus, pass_begin. rewrite Hu.
  unfold bind, modify, toast, emit, modify, setIsSyncing, modify, ret. wsimpl.
  reflexivity.
Qed.

(** The guard of a listener that was registered after the flag went up. *)
Lemma updateOnlineStatus_guarded (auth : Auth) (w : World) :
  updateOnlineStatus true auth true w =
  (Returned None,
   {| ui := put_isOffline false (ui w);
      storage_ok := storage_ok w; buffer := buffer w; sales := sales w;
      decrements := decrements w;
      trace := trace w ++ [EvToast ToastBackOnline] |}).
Proof.
  unfold updateOnlineStatus, pass_begin.
  unfold bind, modify, toast, emit, modify, ret. wsimpl. reflexivity.
Qed.

(* ------------------------------------------------------------------ *)
(** *** Two 'online' events handled by the same listeners               *)

Lemma overlap_start (auth : Auth) (be : Backend) (w : World) :
  logged_in auth = true ->
  pending w <> [] ->
  page_run auth [IConnectivity true; IConnectivity true; ISettle 0 be; ISettle 1 be]
    (mounted w) =
  {| pworld :=
       {| ui := put_pendingSaleCount (length (pending w))
                  (put_isSyncing true (put_isOffline false (ui w)));
          storage_ok := storage_ok w; buffer := buffer w; sales := sales w;
          decrements := decrements w;
          trace := trace w ++
                   [EvToast ToastBackOnline; EvToast ToastBackOnline;
                    EvGetOfflineSales (pending w);
                    EvToast (ToastSyncing (length (pending w)));
                    EvGetOfflineSales (pending w);
                    EvToast (ToastSyncing (length (pending w)))] |};
     rendered := false; listener := Some false; checks := 0;
     flights :=
       [{| f_k := Some (KCommit (pending w) 0);
           f_log := [EvGetOfflineSales (pending w);
                     EvToast (ToastSyncing (length (pending w)))] |};
        {| f_k := Some (KCommit (pending w) 0);
           f_log := [EvGetOfflineSales (pending w);
                     EvToast (ToastSyncing (length (pending w)))] |}] |}.
Proof.
  intros Hu Hp. unfold page_run, mounted. cbn [fold_left].
  unfold page_step at 4. cbn [listener pworld].
  rewrite (updateOnlineStatus_online auth w Hu). cbn [take_off flights app rendered listener checks].
  unfold page_step at 3. cbn [listener pworld].
  rewrite (updateOnlineStatus_online auth _ Hu).
  cbn [take_off flights app rendered listener checks ui storage_ok buffer sales decrements trace].
  erewrite (page_settle auth be 0 _ _ KSnapshot) by reflexivity.
  cbn [pworld rendered listener checks flights f_log app].
  rewrite pass_step_snapshot_some by exact Hp.
  cbn [fst snd settled replace_nth].
  erewrite own_events_app by (cbn [trace]; reflexivity).
  erewrite (page_settle auth be 1 _ _ KSnapshot) by reflexivity.
  cbn [pworld rendered listener checks flights f_log app].
  rewrite pass_step_snapshot_some by exact Hp.
  cbn [fst snd settled replace_nth].
  erewrite own_events_app by (cbn [trace]; reflexivity).
  unfold pending. cbn [ui storage_ok buffer sales decrements trace].
  rewrite <- !app_assoc. reflexivity.
Qed.

Lemma overlap_run (auth : Auth) (be : Backend) (w : World) :
  logged_in auth = true ->
  storage_ok w = true ->
  buffer w <> [] ->
  let snap := buffer w in
  let done := synced be snap in
  let announce := if Nat.ltb 0 (length done)
                  then [EvToast (ToastSyncComplete (length done))] else [] in
  let p' := page_run auth (overlap be (length snap)) (mounted w) in
  map f_k (flights p') = [None; None] /\
  map (fun f => attempts (f_log f)) (flights p') = [snap; snap] /\
  sales (pworld p') = sales w ++ map row_of done ++ map row_of done /\
  buffer (pworld p') = remove_all (ids done) (remove_all (ids done) snap) /\
  isSyncing (ui (pworld p')) = false /\
  exists left1 left2,
    trace (pworld p') =
    trace w ++
    [EvToast ToastBackOnline; EvToast ToastBackOnline;
     EvGetOfflineSales snap; EvToast (ToastSyncing (length snap));
     EvGetOfflineSales snap; EvToast (ToastSyncing (length snap))]
    ++ loop_events auth be snap ++ announce ++ [EvGetOfflineSales left1]
    ++ loop_events auth be snap ++ announce ++ [EvGetOfflineSales left2].
Proof.
  intros Hu Hs Hb snap done announce p'.
  assert (Hp : pending w = snap) by (unfold pending; rewrite Hs; reflexivity).
  assert (Hne : pending w <> []) by (rewrite Hp; exact Hb).
  subst p'. unfold overlap. rewrite !page_run_app.
  rewrite (overlap_start auth be w Hu Hne). rewrite Hp.
  erewrite (flight_loop auth be 0 _ _ snap) by reflexivity.
  cbn [pworld rendered listener checks flights f_log replace_nth].
  erewrite (flight_loop auth be 1 _ _ snap) by reflexivity.
  cbn [pworld rendered listener checks flights f_log replace_nth map f_k].
  rewrite !sync_loop_run. cbn [snd].
  unfold finish_world, pending.
  cbn [ui storage_ok buffer sales decrements trace isSyncing put_isSyncing].
  fold done. fold announce. rewrite Hs.
  split; [reflexivity|]. split.
  { erewrite !own_events_app by (cbn [trace]; rewrite <- !app_assoc; reflexivity).
    cbn [attempts app]. proj_app_all.
    destruct (loop_events_proj auth be snap) as (-> & _).
    assert (Ea : attempts announce = []) by (unfold announce; destruct (Nat.ltb 0 (length done)); reflexivity).
    rewrite Ea. cbn [attempts]. rewrite !app_nil_r. reflexivity. }
  split; [rewrite <- app_assoc; reflexivity|].
  split; [reflexivity|]. split; [reflexivity|].
  eexists. eexists. rewrite <- !app_assoc. cbn [app]. reflexivity.
Qed.

Lemma overlap_calls (auth : Auth) (be : Backend) (snap left1 left2 : list BillData) :
  let done := synced be snap in
  let announce := if Nat.ltb 0 (length done)
                  then [EvToast (ToastSyncComplete (length done))] else [] in
  let evs :=
    [EvToast ToastBackOnline; EvToast ToastBackOnline;
     EvGetOfflineSales snap; EvToast (ToastSyncing (length snap));
     EvGetOfflineSales snap; EvToast (ToastSyncing (length snap))]
    ++ loop_events auth be snap ++ announce ++ [EvGetOfflineSales left1]
    ++ loop_events auth be snap ++ announce ++ [EvGetOfflineSales left2] in
  attempts evs = snap ++ snap /\
  commits evs = done ++ done /\
  deletes evs = ids done ++ ids done /\
  sync_complete_counts evs =
    (if Nat.ltb 0 (length done) then [length done; length done] else []).
Proof.
  intros done announce evs. subst evs.
  assert (Q : attempts announce = [] /\ commits announce = [] /\ deletes announce = [] /\
              sync_complete_counts announce =
                (if Nat.ltb 0 (length done) then [length done] else [])).
  { unfold announce. destruct (Nat.ltb 0 (length done)); repeat split. }
  destruct Q as (Q1 & Q2 & Q3 & Q4).
  destruct (loop_events_proj auth be snap) as (L1 & L2 & L3 & _ & L5).
  pose proof (no_toasts_no_counts _ L5) as L6.
  cbn [app attempts commits deletes sync_complete_counts].
  proj_app_all. rewrite Q1, Q2, Q3, Q4, L1, L2, L3, L6.
  cbn [app attempts commits deletes sync_complete_counts].
  rewrite !app_nil_r. fold done.
  repeat split. destruct (Nat.ltb 0 (length done)); reflexivity.
Qed.

(** C2, as the code behaves.  The guard of line 125 tests the [isSyncing]
    captured by the callback that is called, and the window listeners keep
    the callback of the render whose effect registered them.  On a mounted,
    idle page with sales in the buffer and a signed-in user, an 'online'
    event starts a pass and raises the flag; a second 'online' event handled
    by the same listeners (before the next render has run its effect) starts
    a second pass although the flag is up, so two passes are in flight at
    once.  Had the render and its effect come in between, the second event
    would have been ignored.  When both passes have run to their end each of
    them has attempted the whole buffer: every buffered record has been
    handed to the remote commit twice within the one burst. *)
Theorem stale_listener_starts_second_pass (auth : Auth) (be : Backend) (w : World) :
  logged_in auth = true ->
  isSyncing (ui w) = false ->
  storage_ok w = true ->
  buffer w <> [] ->
  let p1 := page_step auth (IConnectivity true) (mounted w) in
  let p2 := page_step auth (IConnectivity true) p1 in
  let guarded := page_step auth (IConnectivity true)
                   (page_run auth [IRender; IEffect true] p1) in
  let p' := page_run auth (overlap be (length (buffer w))) (mounted w) in
  isSyncing (ui (pworld p1)) = true /\
  map f_k (flights p1) = [Some KSnapshot] /\
  isSyncing (ui (pworld p2)) = true /\
  map f_k (flights p2) = [Some KSnapshot; Some KSnapshot] /\
  map f_k (flights guarded) = [Some KSnapshot] /\
  map f_k (flights p') = [None; None] /\
  map (fun f => attempts (f_log f)) (flights p') = [buffer w; buffer w] /\
  exists evs,
    trace (pworld p') = trace w ++ evs /\
    attempts evs = buffer w ++ buffer w /\
    forall b, In b (buffer w) -> 2 <= count_id (billId b) (ids (attempts evs)).
Proof.
  intros Hu Hi Hs Hb p1 p2 guarded p'.
  assert (E1 : p1 = {| pworld := {| ui := put_isSyncing true (put_isOffline false (ui w));
                                    storage_ok := storage_ok w; buffer := buffer w;
                                    sales := sales w; decrements := decrements w;
                                    trace := trace w ++ [EvToast ToastBackOnline] |};
                       rendered := false; listener := Some false; checks := 0;
                       flights := [{| f_k := Some KSnapshot; f_log := [] |}] |}).
  { unfold p1, mounted, page_step. cbn [listener pworld].
    rewrite (updateOnlineStatus_online auth w Hu). reflexivity. }
  split; [rewrite E1; reflexivity|]. split; [rewrite E1; reflexivity|].
  assert (E2 : isSyncing (ui (pworld p2)) = true /\
               map f_k (flights p2) = [Some KSnapshot; Some KSnapshot]).
  { unfold p2. rewrite E1. unfold page_step. cbn [listener pworld].
    rewrite (updateOnlineStatus_online auth _ Hu). split; reflexivity. }
  split; [apply E2|]. split; [apply E2|].
  split.
  { unfold guarded. rewrite E1. unfold page_run. cbn [fold_left].
    unfold page_step at 3. cbn [pworld ui isSyncing put_isSyncing rendered listener checks flights].
    unfold page_step at 2. cbn [pworld rendered listener checks flights].
    unfold pass_begin at 1. cbn [orb ret take_off with_world pworld rendered listener checks flights].
    unfold page_step, with_world. cbn [listener pworld rendered checks flights].
    rewrite updateOnlineStatus_guarded. reflexivity. }
  destruct (overlap_run auth be w Hu Hs Hb) as (F1 & F2 & _ & _ & _ & (l1 & l2 & Ht)).
  fold p' in F1, F2, Ht.
  split; [exact F1|]. split; [exact F2|].
  eexists. split; [exact Ht|].
  destruct (overlap_calls auth be (buffer w) l1 l2) as (Ha & _).
  split; [exact Ha|].
  intros b Hin. rewrite Ha. unfold ids. rewrite map_app. fold (ids (buffer w)).
  rewrite count_id_app.
  assert (1 <= count_id (billId b) (ids (buffer w))).
  { unfold count_id. apply count_occ_In. apply In_ids. exists b. split; [exact Hin|reflexivity]. }
  lia.
Qed.

Lemma stale_listener_starts_second_pass_witness :
  let w := demo_world [demo_bill "INV-1000"; demo_bill "INV-1001"] in
  let p' := page_run demo_auth (overlap be_ok 2) (mounted w) in
  (map f_k (flights (page_run demo_auth [IConnectivity true; IConnectivity true] (mounted w)))
     = [Some KSnapshot; Some KSnapshot] /\
   ids (attempts (trace (pworld p'))) = ["INV-1000"; "INV-1001"; "INV-1000"; "INV-1001"] /\
   map (fun r => billId (bill_data r)) (sales (pworld p'))
     = ["INV-1000"; "INV-1001"; "INV-1000"; "INV-1001"] /\
   sync_complete_counts (trace (pworld p')) = [2; 2]) /\
  let p1 := page_step demo_auth (IConnectivity true) (mounted w) in
  let p2 := page_step demo_auth (IConnectivity true) p1 in
  let guarded := page_step demo_auth (IConnectivity true)
                   (page_run demo_auth [IRender; IEffect true] p1) in
  isSyncing (ui (pworld p1)) = true /\
  map f_k (flights p1) = [Some KSnapshot] /\
  isSyncing (ui (pworld p2)) = true /\
  map f_k (flights p2) = [Some KSnapshot; Some KSnapshot] /\
  map f_k (flights guarded) = [Some KSnapshot] /\
  map f_k (flights p') = [None; None] /\
  map (fun f => attempts (f_log f)) (flights p') = [buffer w; buffer w] /\
  exists evs,
    trace (pworld p') = trace w ++ evs /\
    attempts evs = buffer w ++ buffer w /\
    forall b, In b (buffer w) -> 2 <= count_id (billId b) (ids (attempts evs)).
Proof.
  split; [repeat split|].
  apply (stale_listener_starts_second_pass demo_auth be_ok
           (demo_world [demo_bill "INV-1000"; demo_bill "INV-1001"]));
    try reflexivity.
  discriminate.
Defined.

(** C1, as the code behaves.  A record [r] is buffered; its remote commit
    fails in some passes that run one after the other, so it stays in the
    buffer.  Then two 'online' events are handled by the same listeners: two
    passes are in flight at once, both take [r] in their snapshot and for
    both the commit succeeds.  The record is committed to the remote store
    twice (two rows in the sales table), [deleteSyncedSale] is called on its
    [billId] twice, and two 'Sync Complete' toasts each count it. *)
Theorem overlapping_passes_commit_twice
    (auth : Auth) (fails : list Backend) (ok : Backend) (w : World) (r : BillData) :
  logged_in auth = true ->
  ready w ->
  In r (buffer w) ->
  Forall (fun be => insert_error be r <> None) fails ->
  insert_error ok r = None ->
  let w1 := sync_passes auth fails w in
  let done := synced ok (buffer w1) in
  let p' := page_run auth (overlap ok (length (buffer w1))) (mounted w1) in
  In r (buffer w1) /\
  count_id (billId r) (ids (commits (passes_events auth fails w))) = 0 /\
  In r done /\
  map f_k (flights p') = [None; None] /\
  ~ In (billId r) (ids (buffer (pworld p'))) /\
  sales (pworld p') = sales w1 ++ map row_of done ++ map row_of done /\
  exists evs,
    trace (pworld p') = trace w1 ++ evs /\
    count_id (billId r) (ids (commits evs)) = 2 /\
    count_id (billId r) (deletes evs) = 2 /\
    sync_complete_counts evs = [length done; length done] /\
    0 < length done.
Proof.
  intros Hu Hr Hin Hf Hok w1 done p'.
  assert (Hr1 : ready w1) by (apply sync_passes_ready; assumption).
  destruct (failing_passes_keep auth r fails w Hu Hr Hin Hf) as (Hin1 & _ & Hc1).
  fold w1 in Hin1.
  assert (Hd : In r done) by (apply In_synced; split; assumption).
  assert (Hid : In (billId r) (ids done)).
  { apply In_ids. exists r. split; [exact Hd|reflexivity]. }
  assert (Hnd : NoDup (ids done)) by (apply NoDup_ids_synced; apply Hr1).
  assert (Hne : buffer w1 <> []) by (intros E; rewrite E in Hin1; contradiction).
  destruct Hr1 as (_ & Hs1 & _).
  destruct (overlap_run auth ok w1 Hu Hs1 Hne) as (F1 & _ & Hsales & Hbuf & _ & (l1 & l2 & Ht)).
  fold p' in F1, Hsales, Hbuf, Ht. fold done in Hsales, Hbuf, Ht.
  split; [exact Hin1|]. split; [exact Hc1|]. split; [exact Hd|]. split; [exact F1|].
  split; [rewrite Hbuf; apply ids_remove_all_gone; exact Hid|].
  split; [exact Hsales|].
  eexists. split; [exact Ht|].
  destruct (overlap_calls auth ok (buffer w1) l1 l2) as (_ & Hc & Hdel & Hcnt).
  fold done in Hc, Hdel, Hcnt.
  assert (Hpos : 0 < length done) by (destruct done; [contradiction|simpl; lia]).
  rewrite Hc, Hdel, Hcnt. unfold ids at 1. rewrite map_app. fold (ids done).
  rewrite !count_id_app, (count_id_one _ _ Hnd Hid).
  apply Nat.ltb_lt in Hpos. rewrite Hpos. apply Nat.ltb_lt in Hpos.
  repeat split. exact Hpos.
Qed.

Lemma overlapping_passes_commit_twice_witness :
  let auth := demo_auth in
  let w := demo_world [demo_bill "INV-1000"; demo_bill "INV-1001"] in
  let r := demo_bill "INV-1000" in
  let w1 := sync_passes auth [be_down; be_reject "INV-1000"] w in
  let done := synced be_ok (buffer w1) in
  let p' := page_run auth (overlap be_ok (length (buffer w1))) (mounted w1) in
  (map (fun x => billId (bill_data x)) (sales w1) = ["INV-1001"] /\
   map (fun x => billId (bill_data x)) (sales (pworld p'))
     = ["INV-1001"; "INV-1000"; "INV-1000"] /\
   deletes (own_events w1 (pworld p')) = ["INV-1000"; "INV-1000"] /\
   sync_complete_counts (own_events w1 (pworld p')) = [1; 1]) /\
  In r (buffer w1) /\
  count_id (billId r)
    (ids (commits (passes_events auth [be_down; be_reject "INV-1000"] w))) = 0 /\
  In r done /\
  map f_k (flights p') = [None; None] /\
  ~ In (billId r) (ids (buffer (pworld p'))) /\
  sales (pworld p') = sales w1 ++ map row_of done ++ map row_of done /\
  exists evs,
    trace (pworld p') = trace w1 ++ evs /\
    count_id (billId r) (ids (commits evs)) = 2 /\
    count_id (billId r) (deletes evs) = 2 /\
    sync_complete_counts evs = [length done; length done] /\
    0 < length done.
Proof.
  split; [repeat split|].
  apply (overlapping_passes_commit_twice demo_auth [be_down; be_reject "INV-1000"] be_ok
           (demo_world [demo_bill "INV-1000"; demo_bill "INV-1001"])
           (demo_bill "INV-1000")).
  - reflexivity.
  - apply demo_ready. repeat constructor; simpl; intuition discriminate.
  - simpl. left. reflexivity.
  - repeat constructor; simpl; discriminate.
  - reflexivity.
Defined.

(** Whichever passes are in flight, the resumption with which a pass
    returns leaves the count at the size of the buffer it has just read and
    the flag down, also when another pass is still running. *)
Lemma returning_pass_requeries (auth : Auth) (be : Backend) (i : nat) (p : Page)
    (f : Flight) (k : PassK) :
  nth_error (flights p) i = Some f ->
  f_k f = Some k ->
  let p' := page_step auth (ISettle i be) p in
  (exists f', nth_error (flights p') i = Some f' /\ f_k f' = None) ->
  completed (pworld p').
Proof.
  intros H Hk p' (f' & Hf' & Hn). subst p'.
  rewrite (page_settle auth be i p f k H Hk) in *. cbn [flights pworld] in *.
  rewrite (nth_error_replace_nth _ i f _ H) in Hf'. injection Hf' as <-.
  cbn [f_k] in Hn. revert Hn.
  step_cases auth be k (pworld p); cbn [fst snd settled]; try discriminate; intros _;
    unfold completed, pending; cbn [ui storage_ok buffer trace pendingSaleCount isSyncing
                                    put_isSyncing put_pendingSaleCount];
    fold (pending (pworld p)).
  - rewrite Ep. repeat split. eexists. reflexivity.
  - repeat split. eexists. reflexivity.
Qed.

(** X19. On the page machine, the pass that the effect starts on an idle page
    and that is resumed until it returns with nothing in between leaves the
    world exactly as one call of [syncOfflineSales] does; the listeners hold
    the callback of that render, the pass has returned, and the calls it has
    logged as its own are the calls of that one call. *)
Theorem page_pass_is_syncOfflineSales (auth : Auth) (be : Backend) (w : World) :
  logged_in auth = true ->
  isSyncing (ui w) = false ->
  let p' := page_run auth
              (IEffect true :: repeat (ISettle 0 be) (2 * length (pending w) + 3))
              (first_render w) in
  pworld p' = snd (syncOfflineSales false auth be w) /\
  listener p' = Some false /\
  flights p' = [{| f_k := None; f_log := own_events w (pworld p') |}] /\
  own_events w (pworld p') = pass_events auth be w.
Proof.
  intros Hu Hi p'.
  destruct (machine_agrees auth be w Hu) as (w0 & Hb & Hr).
  assert (E : p' =
              {| pworld := snd (syncOfflineSales false auth be w);
                 rendered := false; listener := Some false; checks := 1;
                 flights := [{| f_k := None;
                                f_log := own_events w0 (snd (syncOfflineSales false auth be w)) |}] |}).
  { unfold p'. change (page_run auth (IEffect true :: ?l) ?q)
      with (page_run auth l (page_step auth (IEffect true) q)).
    unfold page_step, first_render. cbn [rendered pworld]. rewrite Hi, Hb.
    cbn [take_off rendered listener checks flights app].
    erewrite (settle_n auth be 0 _ _ _) by reflexivity.
    cbn [pworld rendered listener checks flights f_k f_log replace_nth app].
    rewrite Hr. reflexivity. }
  assert (Et : trace w0 = trace w).
  { unfold pass_begin in Hb. rewrite Hu in Hb. cbn in Hb. injection Hb as <-. reflexivity. }
  rewrite E. cbn [pworld listener flights].
  unfold own_events in *. rewrite Et.
  repeat split.
  rewrite (syncOfflineSales_run auth be w Hu). unfold after_pass. cbn [snd trace].
  rewrite skipn_app, skipn_all, Nat.sub_diag. reflexivity.
Qed.

Lemma page_pass_is_syncOfflineSales_witness :
  let w := demo_world [demo_bill "INV-1000"; demo_bill "INV-1001"] in
  let be := be_reject "INV-1001" in
  let p' := page_run demo_auth
              (IEffect true :: repeat (ISettle 0 be) (2 * length (pending w) + 3))
              (first_render w) in
  ids (pending (pworld p')) = ["INV-1001"] /\
  pworld p' = snd (syncOfflineSales false demo_auth be w) /\
  listener p' = Some false /\
  flights p' = [{| f_k := None; f_log := own_events w (pworld p') |}] /\
  own_events w (pworld p') = pass_events demo_auth be w.
Proof.
  split; [reflexivity|].
  apply (page_pass_is_syncOfflineSales demo_auth (be_reject "INV-1001")
           (demo_world [demo_bill "INV-1000"; demo_bill "INV-1001"]));
    reflexivity.
Defined.

(* ================================================================== *)
(** ** The checkout across its await                                    *)
(* ================================================================== *)

(** Run without anything in between, the two halves are [completeSale]. *)
Lemma completeSale_split (auth : Auth) (c : Ui) (pm : PaymentMethod) (now : Z)
    (be : Backend) (w : World) :
  completeSale auth c pm now be w =
  (k <- completeSale_begin auth c pm now ;; completeSale_resume auth c be k) w.
Proof.
  unfold completeSale, completeSale_begin, completeSale_resume.
  destruct (user auth) as [u|]; [|reflexivity].
  unfold bind, setCompletedBill, setDialogs, modify, ret.
  destruct (isOffline c); reflexivity.
Qed.

(** C6, as the code behaves.  In a direct online checkout [completeSale]
    sets the completed bill and opens the 'Transaction Successful!' dialog
    before it awaits the remote commit (lines 256-257): while the request is
    pending the sale is presented as placed although nothing has been
    recorded.  The only button of that dialog starts a new sale.  If the
    operator presses it and the commit then fails, the catch block shows the
    'Transaction Failed' toast over an empty cart and an empty customer
    form: the sale is recorded nowhere and cannot be submitted again. *)
Theorem online_checkout_shows_success_first
    (u : User) (isAdmin' : bool) (c : Ui) (pm : PaymentMethod) (now : Z)
    (be : Backend) (w : World) (m : string) :
  let auth := {| user := Some u; isAdmin := isAdmin' |} in
  let bill := make_billData c u pm now in
  isOffline c = false ->
  insert_error be bill = Some m ->
  let r1 := completeSale_begin auth c pm now w in
  let w1 := snd r1 in
  let w2 := snd (startNewSale (ui w1) w1) in
  let r3 := completeSale_resume auth c be (KCommitting bill) w2 in
  let w3 := snd r3 in
  fst r1 = Returned (KCommitting bill) /\
  success (dialogs (ui w1)) = true /\
  completedBill (ui w1) = Some bill /\
  cart (ui w1) = cart (ui w) /\
  sales w1 = sales w /\ buffer w1 = buffer w /\ new_toasts w w1 = [] /\
  fst r3 = Returned tt /\
  new_toasts w w3 = [ToastTransactionFailed ("Transaction failed: " ++ m)] /\
  success (dialogs (ui w3)) = false /\
  cart (ui w3) = [] /\ customerForm (ui w3) = emptyCustomer /\
  notesField (ui w3) = "" /\ completedBill (ui w3) = None /\
  sales w3 = sales w /\ buffer w3 = buffer w /\
  pendingSaleCount (ui w3) = pendingSaleCount (ui w).
Proof.
  intros auth bill Hoff Hfail r1 w1 w2 r3 w3.
  subst w3 r3 w2 w1 r1. unfold completeSale_begin, completeSale_resume, startNewSale.
  cbn [user auth]. rewrite Hoff. fold bill.
  unfold bind at 1 2 3 4 5. unfold setCompletedBill, setDialogs, modify, ret, resetSale, modify.
  cbn [fst snd]. unfold try_catch.
  rewrite (mutateAsync_fail auth be bill _ m Hfail).
  unfold bind, toast, emit, modify, new_toasts. wsimpl.
  rewrite <- app_assoc, skipn_app, !skipn_all, Nat.sub_diag. simpl.
  repeat split.
Qed.

Lemma online_checkout_shows_success_first_witness :
  let u := {| uid := "u-1" |} in
  let auth := {| user := Some u; isAdmin := false |} in
  let w := snd (proceedToPayment demo_online_ui 1000%Z (world_of demo_online_ui)) in
  let c := ui w in
  let bill := make_billData c u cash 1500%Z in
  let r1 := completeSale_begin auth c cash 1500%Z w in
  let w1 := snd r1 in
  let w2 := snd (startNewSale (ui w1) w1) in
  let r3 := completeSale_resume auth c be_down (KCommitting bill) w2 in
  let w3 := snd r3 in
  (cart c = [demo_cart_item] /\ paymentBillId c = "INV-1000" /\
   payment (dialogs c) = true /\ finalAmount bill = 250%Z) /\
  fst r1 = Returned (KCommitting bill) /\
  success (dialogs (ui w1)) = true /\
  completedBill (ui w1) = Some bill /\
  cart (ui w1) = cart (ui w) /\
  sales w1 = sales w /\ buffer w1 = buffer w /\ new_toasts w w1 = [] /\
  fst r3 = Returned tt /\
  new_toasts w w3 = [ToastTransactionFailed ("Transaction failed: " ++ "Failed to fetch")] /\
  success (dialogs (ui w3)) = false /\
  cart (ui w3) = [] /\ customerForm (ui w3) = emptyCustomer /\
  notesField (ui w3) = "" /\ completedBill (ui w3) = None /\
  sales w3 = sales w /\ buffer w3 = buffer w /\
  pendingSaleCount (ui w3) = pendingSaleCount (ui w).
Proof.
  split; [repeat split|].
  exact (online_checkout_shows_success_first {| uid := "u-1" |} false
           (ui (snd (proceedToPayment demo_online_ui 1000%Z (world_of demo_online_ui))))
           cash 1500%Z be_down
           (snd (proceedToPayment demo_online_ui 1000%Z (world_of demo_online_ui)))
           "Failed to fetch" eq_refl eq_refl).
Defined.

(* ================================================================== *)
(** ** The cart                                                         *)
(* ================================================================== *)

Lemma NoDup_map_same {A B} (f : A -> B) (l : list A) (a b : A) :
  NoDup (map f l) -> In a l -> In b l -> f a = f b -> a = b.
Proof.
  induction l as [|z l IH]; simpl; intros Hnd Ha Hb E; [contradiction|].
  inversion Hnd as [|? ? Hz Hl]; subst.
  destruct Ha as [->|Ha], Hb as [->|Hb]; auto.
  - exfalso. apply Hz. rewrite E. apply in_map. assumption.
  - exfalso. apply Hz. rewrite <- E. apply in_map. assumption.
Qed.

Lemma NoDup_map_filter {X Y} (key : X -> Y) (keep : X -> bool) (xs : list X)
    (distinct : NoDup (map key xs)) :
  NoDup (map key (filter keep xs)).
Proof.
  induction xs as [|x xs IH]; simpl; [constructor|].
  simpl in distinct. apply NoDup_cons_iff in distinct. destruct distinct as [Hx Hxs].
  destruct (keep x); simpl; [|exact (IH Hxs)].
  apply NoDup_cons; [|exact (IH Hxs)].
  rewrite in_map_iff. intros (y & Ey & Hy). apply filter_In in Hy.
  apply Hx. rewrite in_map_iff. exists y. tauto.
Qed.

Lemma set_quantity_ids (itemId : string) (q : CartItem -> number) (c : list CartItem) :
  map cart_id (set_quantity itemId q c) = map cart_id c.
Proof.
  unfold set_quantity. rewrite map_map. apply map_ext. intros i.
  destruct (String.eqb (cart_id i) itemId); reflexivity.
Qed.

Lemma set_quantity_absent (itemId : string) (q : CartItem -> number) (c : list CartItem) :
  (forall i, In i c -> String.eqb (cart_id i) itemId = false) ->
  set_quantity itemId q c = c.
Proof.
  unfold set_quantity. induction c as [|x c IH]; simpl; intros H; [reflexivity|].
  rewrite (H x) by (left; reflexivity). rewrite IH; [reflexivity|].
  intros i Hi. apply H. right. exact Hi.
Qed.

Lemma In_set_quantity (itemId : string) (q : CartItem -> number) (c : list CartItem)
    (i' : CartItem) :
  In i' (set_quantity itemId q c) ->
  exists i, In i c /\ cart_id i' = cart_id i /\
    ((cart_id i = itemId /\ ci_cart_quantity i' = q i) \/
     (cart_id i <> itemId /\ i' = i)).
Proof.
  unfold set_quantity. intros H. apply in_map_iff in H. destruct H as (i & E & Hi).
  exists i. split; [exact Hi|].
  destruct (String.eqb (cart_id i) itemId) eqn:Eq; subst i'.
  - apply String.eqb_eq in Eq. split; [reflexivity|]. left. split; [exact Eq|reflexivity].
  - apply String.eqb_neq in Eq. split; [reflexivity|]. right. split; [exact Eq|reflexivity].
Qed.

Lemma find_inventory_id (inv : list InventoryItem) (itemId : string) (it : InventoryItem) :
  find_inventory inv itemId = Some it -> inv_id it = itemId.
Proof.
  intros H. apply find_some in H. destruct H as [_ H]. apply String.eqb_eq. exact H.
Qed.

(** X1. [addToCart] keeps the cart well formed: line ids stay distinct, every
    line holds at least one unit and never more units than the inventory has
    of that item. *)
Theorem addToCart_keeps_cart_ok
    (inventoryItems : list InventoryItem) (c : list CartItem) (itemId : string) :
  cart_ok inventoryItems c ->
  cart_ok inventoryItems (fst (addToCart inventoryItems c itemId)).
Proof.
  intros [Hnd Hq]. unfold addToCart.
  destruct (find_inventory inventoryItems itemId) as [it|] eqn:Ef; [|split; assumption].
  destruct (inv_is_available it); simpl; [|split; assumption].
  destruct (find_cart c itemId) as [e|] eqn:Ec.
  - destruct (inv_quantity it - ci_cart_quantity e <=? 0)%Z eqn:El; simpl;
      [split; assumption|].
    apply Z.leb_gt in El.
    apply find_some in Ec. destruct Ec as [He Hee]. apply String.eqb_eq in Hee.
    split; [rewrite set_quantity_ids; exact Hnd|].
    intros i' Hi'. apply In_set_quantity in Hi'.
    destruct Hi' as (i & Hi & Eid & [[Hid Hqi]|[Hid ->]]); [|apply Hq; exact Hi].
    assert (i = e).
    { apply (NoDup_map_same cart_id c); try assumption. congruence. }
    subst i. rewrite Hqi. split; [destruct (Hq e He) as [H0 _]; lia|].
    intros it' Hit'. rewrite Eid, Hid, Ef in Hit'. injection Hit' as <-. lia.
  - destruct (inv_quantity it - 0 <=? 0)%Z eqn:El; simpl; [split; assumption|].
    apply Z.leb_gt in El.
    pose proof (find_inventory_id _ _ _ Ef) as Hid.
    split.
    + rewrite map_app. apply NoDup_app; [exact Hnd|repeat constructor; intros []|].
      intros a Ha [Hx|[]]. simpl in Hx. unfold cart_id in Hx at 1. simpl in Hx.
      apply in_map_iff in Ha. destruct Ha as (i & Ei & Hi).
      pose proof (find_none _ _ Ec i Hi) as Hn. simpl in Hn.
      apply String.eqb_neq in Hn. congruence.
    + intros i Hi. apply in_app_or in Hi. destruct Hi as [Hi|[<-|[]]];
        [apply Hq; exact Hi|].
      simpl. split; [lia|]. intros it' Hit'. unfold cart_id in Hit'. simpl in Hit'.
      rewrite Hid, Ef in Hit'. injection Hit' as <-. lia.
Qed.

Lemma demo_cart_ok : cart_ok demo_shelf demo_cart.
Proof.
  split.
  - repeat constructor; simpl; intuition discriminate.
  - intros i [<-|[<-|[]]]; (split; [reflexivity|]); intros it H;
      vm_compute in H; injection H as <-; vm_compute; discriminate.
Qed.

Lemma addToCart_keeps_cart_ok_witness :
  cart_ok demo_shelf (fst (addToCart demo_shelf demo_cart "item-rice")).
Proof. apply (addToCart_keeps_cart_ok demo_shelf demo_cart "item-rice" demo_cart_ok). Defined.

(** X2. [updateCartQuantity] keeps the cart well formed as well, whether it
    removes the line, refuses the quantity or sets it. *)
Theorem updateCartQuantity_keeps_cart_ok
    (inventoryItems : list InventoryItem) (c : list CartItem) (itemId : string)
    (newQuantity : number) :
  cart_ok inventoryItems c ->
  cart_ok inventoryItems (fst (updateCartQuantity inventoryItems c itemId newQuantity)).
Proof.
  intros [Hnd Hq]. unfold updateCartQuantity.
  destruct (newQuantity <=? 0)%Z eqn:E0; simpl.
  - split; [apply NoDup_map_filter; exact Hnd|].
    intros i Hi. apply filter_In in Hi. apply Hq. tauto.
  - apply Z.leb_gt in E0.
    assert (Hset : forall bound : option InventoryItem,
               find_inventory inventoryItems itemId = bound ->
               (forall it, bound = Some it -> (newQuantity <= inv_quantity it)%Z) ->
               cart_ok inventoryItems (set_quantity itemId (fun _ => newQuantity) c)).
    { intros bound Eb Hb. split; [rewrite set_quantity_ids; exact Hnd|].
      intros i' Hi'. apply In_set_quantity in Hi'.
      destruct Hi' as (i & Hi & Eid & [[Hid Hqi]|[Hid ->]]); [|apply Hq; exact Hi].
      rewrite Hqi. split; [exact E0|].
      intros it' Hit'. rewrite Eid, Hid, Eb in Hit'. apply Hb. exact Hit'. }
    destruct (find_inventory inventoryItems itemId) as [it|] eqn:Ef.
    + destruct (inv_quantity it <? newQuantity)%Z eqn:El; simpl; [split; assumption|].
      apply Z.ltb_ge in El. apply (Hset (Some it) eq_refl).
      intros it' [= <-]. exact El.
    + simpl. apply (Hset None eq_refl). intros it' [=].
Qed.

Lemma updateCartQuantity_keeps_cart_ok_witness :
  cart_ok demo_shelf (fst (updateCartQuantity demo_shelf demo_cart "item-milk" 12%Z)).
Proof.
  apply (updateCartQuantity_keeps_cart_ok demo_shelf demo_cart "item-milk" 12%Z
           demo_cart_ok).
Defined.



Lemma sum_Z_app (l1 l2 : list Z) : sum_Z (l1 ++ l2) = (sum_Z l1 + sum_Z l2)%Z.
Proof. induction l1 as [|x l1 IH]; simpl; [reflexivity|]. rewrite IH. lia. Qed.

Lemma fold_left_map_acc {A B C} (f : A -> B -> A) (g : C -> B) (l : list C) :
  forall a : A, fold_left f (map g l) a = fold_left (fun acc x => f acc (g x)) l a.
Proof. induction l as [|x l IH]; intros a; simpl; [reflexivity|apply IH]. Qed.

(** X4. The bill built by [completeSale] is consistent with its lines: one
    bill line per cart line in cart order with the same id and quantity, each
    line total is quantity times unit price, the subtotal is the sum of the
    line totals added up in cart order from 0 as [reduce] does, the final
    amount equals the subtotal, the bill carries the pending [billId], a
    blank customer name becomes 'Walk-in Customer', any other name is kept,
    and the rest of the customer form is copied. *)
Theorem bill_totals_consistent (c : Ui) (u : User) (pm : PaymentMethod) (now : Z) :
  let b := make_billData c u pm now in
  map (fun it => (id it, cart_quantity it)) (items b)
    = map (fun i => (cart_id i, ci_cart_quantity i)) (cart c) /\
  Forall (fun it => total_price it = (cart_quantity it * unit_price it)%Z) (items b) /\
  subtotal b = fold_left (fun sum it => (sum + total_price it)%Z) (items b) 0%Z /\
  finalAmount b = subtotal b /\
  billId b = paymentBillId c /\
  (c_name (customerForm c) = "" -> c_name (customer b) = "Walk-in Customer") /\
  (c_name (customerForm c) <> "" -> c_name (customer b) = c_name (customerForm c)) /\
  c_phone (customer b) = c_phone (customerForm c) /\
  c_email (customer b) = c_email (customerForm c) /\
  c_address (customer b) = c_address (customerForm c).
Proof.
  intros b. subst b. unfold make_billData. simpl.
  split; [rewrite map_map; reflexivity|].
  split; [apply Forall_forall; intros it Hit; apply in_map_iff in Hit;
          destruct Hit as (i & <- & _); reflexivity|].
  split; [unfold cartTotals_subtotal; rewrite fold_left_map_acc; reflexivity|].
  split; [reflexivity|]. split; [reflexivity|].
  split; [intros ->; reflexivity|].
  split; [|repeat split].
  destruct (c_name (customerForm c)); simpl; [intros H; contradiction|reflexivity].
Qed.

(* ================================================================== *)
(** ** Checkout                                                         *)
(* ================================================================== *)

Lemma completeSale_offline_ok
    (u : User) (isAdmin' : bool) (c : Ui) (pm : PaymentMethod) (now : Z)
    (be : Backend) (w : World) :
  isOffline c = true ->
  storage_ok w = true ->
  completeSale {| user := Some u; isAdmin := isAdmin' |} c pm now be w =
  (Returned tt,
   {| ui := put_pendingSaleCount (pendingSaleCount (ui w) + 1)
              (put_dialogs {| payment := false; success := true; history := false |}
                 (put_completedBill (Some (make_billData c u pm now)) (ui w)));
      storage_ok := storage_ok w;
      buffer := store_put (make_billData c u pm now) (buffer w);
      sales := sales w; decrements := decrements w;
      trace := trace w ++ [EvSaveSaleOffline (make_billData c u pm now) true;
                           EvToast ToastSavedOffline] |}).
Proof.
  intros Hoff Hst. unfold completeSale. cbn [user]. rewrite Hoff.
  unfold bind at 1. unfold setCompletedBill at 1, modify at 1.
  unfold bind at 1. unfold setDialogs at 1, modify at 1.
  rewrite save_offline_stored by exact Hst. reflexivity.
Qed.

Lemma completeSale_online_ok
    (u : User) (isAdmin' : bool) (c : Ui) (pm : PaymentMethod) (now : Z)
    (be : Backend) (w : World) :
  isOffline c = false ->
  insert_error be (make_billData c u pm now) = None ->
  completeSale {| user := Some u; isAdmin := isAdmin' |} c pm now be w =
  (Returned tt,
   {| ui := put_dialogs {| payment := false; success := true; history := false |}
              (put_completedBill (Some (make_billData c u pm now)) (ui w));
      storage_ok := storage_ok w; buffer := buffer w;
      sales := sales w ++ [row_of (make_billData c u pm now)];
      decrements := decrements w
                    ++ stock_applied be (items (make_billData c u pm now));
      trace := trace w ++ commit_events {| user := Some u; isAdmin := isAdmin' |} be
                            (make_billData c u pm now) |}).
Proof.
  intros Hoff Hok. unfold completeSale. cbn [user]. rewrite Hoff.
  unfold bind at 1. unfold setCompletedBill at 1, modify at 1.
  unfold bind at 1. unfold setDialogs at 1, modify at 1.
  unfold try_catch. rewrite (mutateAsync_ok _ be _ _ Hok). reflexivity.
Qed.

(** X5. [completeSale] never changes the cart, the customer form, the notes,
    the search box, the active tab, the pending [billId], the offline
    indicator or the sync flag, whichever branch it takes (no user, offline
    with or without storage, online with or without success): the sale on
    screen stays until [resetSale]. *)
Theorem completeSale_leaves_the_sale
    (auth : Auth) (c : Ui) (pm : PaymentMethod) (now : Z) (be : Backend) (w : World) :
  let w' := snd (completeSale auth c pm now be w) in
  cart (ui w') = cart (ui w) /\
  customerForm (ui w') = customerForm (ui w) /\
  notesField (ui w') = notesField (ui w) /\
  searchTerm (ui w') = searchTerm (ui w) /\
  activeTab (ui w') = activeTab (ui w) /\
  paymentBillId (ui w') = paymentBillId (ui w) /\
  isOffline (ui w') = isOffline (ui w) /\
  isSyncing (ui w') = isSyncing (ui w) /\
  storage_ok w' = storage_ok w.
Proof.
  intros w'. subst w'. destruct auth as [[u|] adm].
  2:{ unfold completeSale. simpl. repeat split. }
  destruct (isOffline c) eqn:Eo.
  - destruct (storage_ok w) eqn:Es.
    + rewrite (completeSale_offline_ok u adm c pm now be w Eo Es). simpl.
      rewrite Es. repeat split.
    + rewrite (completeSale_offline_fail u adm c pm now be w Eo Es). simpl.
      rewrite Es. repeat split.
  - destruct (insert_error be (make_billData c u pm now)) as [m|] eqn:Ei.
    + rewrite (completeSale_online_fail u adm c pm now be w m Eo Ei). simpl.
      repeat split.
    + rewrite (completeSale_online_ok u adm c pm now be w Eo Ei). simpl.
      repeat split.
Qed.

Lemma In_store_put (b : BillData) (l : list BillData) : In b (store_put b l).
Proof.
  induction l as [|x l IH]; simpl; [left; reflexivity|].
  destruct (same_bill (billId b) x); [left; reflexivity|right; exact IH].
Qed.

Lemma store_put_keeps (b x : BillData) (l : list BillData) :
  In x l -> billId x <> billId b -> In x (store_put b l).
Proof.
  induction l as [|y l IH]; simpl; intros Hin Hne; [contradiction|].
  unfold same_bill. destruct (String.eqb (billId y) (billId b)) eqn:E.
  - apply String.eqb_eq in E. destruct Hin as [->|Hin]; [contradiction|].
    right. exact Hin.
  - destruct Hin as [->|Hin]; [left; reflexivity|right; apply IH; assumption].
Qed.

Lemma store_put_fresh (b : BillData) (l : list BillData) :
  ~ In (billId b) (ids l) -> store_put b l = l ++ [b].
Proof.
  induction l as [|y l IH]; simpl; intros Hn; [reflexivity|].
  unfold same_bill. destruct (String.eqb (billId y) (billId b)) eqn:E.
  - apply String.eqb_eq in E. exfalso. apply Hn. left. exact E.
  - rewrite IH; [reflexivity|]. intros H. apply Hn. right. exact H.
Qed.

(** X6. An offline checkout with working storage puts the bill into the
    buffer without disturbing the other buffered sales, raises the pending
    count by one, shows the success dialog and the 'Sale Saved Offline'
    toast, and makes no remote call: no sale row, no stock decrement.  When
    the [billId] is new to the buffer the bill goes to the end of it. *)
Theorem offline_checkout_is_buffered
    (u : User) (isAdmin' : bool) (c : Ui) (pm : PaymentMethod) (now : Z)
    (be : Backend) (w : World) :
  isOffline c = true ->
  storage_ok w = true ->
  let b := make_billData c u pm now in
  let r := completeSale {| user := Some u; isAdmin := isAdmin' |} c pm now be w in
  let w' := snd r in
  fst r = Returned tt /\
  In b (buffer w') /\
  (forall x, In x (buffer w) -> billId x <> billId b -> In x (buffer w')) /\
  (~ In (billId b) (ids (buffer w)) -> buffer w' = buffer w ++ [b]) /\
  pendingSaleCount (ui w') = pendingSaleCount (ui w) + 1 /\
  success (dialogs (ui w')) = true /\
  completedBill (ui w') = Some b /\
  sales w' = sales w /\ decrements w' = decrements w /\
  exists evs, trace w' = trace w ++ evs /\ attempts evs = [] /\
              stock_attempts evs = [] /\ toasts evs = [ToastSavedOffline].
Proof.
  intros Hoff Hst b r w'. subst w' r.
  rewrite (completeSale_offline_ok u isAdmin' c pm now be w Hoff Hst).
  fold b. clearbody b. simpl.
  split; [reflexivity|]. split; [apply In_store_put|].
  split; [intros x; apply store_put_keeps|].
  split; [apply store_put_fresh|].
  repeat split. eexists. split; [reflexivity|]. repeat split.
Qed.

Lemma offline_checkout_is_buffered_witness :
  let u := {| uid := "u-1" |} in
  let c := demo_offline_ui in
  let w := world_of demo_offline_ui in
  let b := make_billData c u cash 1000%Z in
  let r := completeSale {| user := Some u; isAdmin := false |} c cash 1000%Z be_ok w in
  let w' := snd r in
  fst r = Returned tt /\
  In b (buffer w') /\
  (forall x, In x (buffer w) -> billId x <> billId b -> In x (buffer w')) /\
  (~ In (billId b) (ids (buffer w)) -> buffer w' = buffer w ++ [b]) /\
  pendingSaleCount (ui w') = pendingSaleCount (ui w) + 1 /\
  success (dialogs (ui w')) = true /\
  completedBill (ui w') = Some b /\
  sales w' = sales w /\ decrements w' = decrements w /\
  exists evs, trace w' = trace w ++ evs /\ attempts evs = [] /\
              stock_attempts evs = [] /\ toasts evs = [ToastSavedOffline].
Proof.
  exact (offline_checkout_is_buffered {| uid := "u-1" |} false demo_offline_ui cash
           1000%Z be_ok (world_of demo_offline_ui) eq_refl eq_refl).
Defined.



Lemma remove_all_own_ids (l : list BillData) : remove_all (ids l) l = [].
Proof.
  unfold remove_all.
  assert (H : forall l0, (forall x, In x l0 -> In (billId x) (ids l)) ->
             filter (fun x => negb (existsb (String.eqb (billId x)) (ids l))) l0 = []).
  { induction l0 as [|x l0 IH]; intros Hall; [reflexivity|].
    cbn [filter].
    assert (E : existsb (String.eqb (billId x)) (ids l) = true).
    { apply existsb_exists. exists (billId x).
      split; [apply Hall; left; reflexivity|apply String.eqb_refl]. }
    rewrite E. simpl. apply IH. intros y Hy. apply Hall. right. exact Hy. }
  apply H. intros x Hx. unfold ids. apply in_map. exact Hx.
Qed.

Lemma synced_all (be : Backend) (l : list BillData) :
  (forall b, In b l -> insert_error be b = None) -> synced be l = l.
Proof.
  induction l as [|x l IH]; intros H; [reflexivity|].
  rewrite (synced_cons_ok be x l (H x (or_introl eq_refl))). f_equal.
  apply IH. intros b Hb. apply H. right. exact Hb.
Qed.

Lemma synced_none (be : Backend) (l : list BillData) :
  (forall b, In b l -> insert_error be b <> None) -> synced be l = [].
Proof.
  induction l as [|x l IH]; intros H; [reflexivity|].
  destruct (insert_error be x) as [m|] eqn:E.
  - rewrite (synced_cons_fail be x l m E). apply IH. intros b Hb. apply H. right. exact Hb.
  - exfalso. apply (H x (or_introl eq_refl)). exact E.
Qed.

(** X8. A sale checked out offline and then synced ends up recorded exactly
    as the same sale checked out online would have been: the same sale row
    (bill, totals, timestamp of the checkout), the same stock decrements, an
    empty buffer and a pending count of 0. *)
Theorem offline_then_sync_equals_online
    (u : User) (isAdmin' : bool) (c : Ui) (pm : PaymentMethod) (now : Z)
    (be0 be : Backend) (w : World) :
  buffer w = [] ->
  storage_ok w = true ->
  isSyncing (ui w) = false ->
  insert_error be (make_billData c u pm now) = None ->
  let auth := {| user := Some u; isAdmin := isAdmin' |} in
  let w1 := snd (completeSale auth (put_isOffline true c) pm now be0 w) in
  let w_off := snd (trigger auth be w1) in
  let w_on := snd (completeSale auth (put_isOffline false c) pm now be w) in
  sales w_off = sales w_on /\
  decrements w_off = decrements w_on /\
  sales w_on = sales w ++ [row_of (make_billData c u pm now)] /\
  buffer w_off = [] /\ buffer w_on = [] /\
  pendingSaleCount (ui w_off) = 0 /\
  isSyncing (ui w_off) = false.
Proof.
  intros Hb Hst Hidle Hok auth w1 w_off w_on. subst w_on w_off w1 auth.
  assert (Eb : forall o, make_billData (put_isOffline o c) u pm now
                         = make_billData c u pm now) by reflexivity.
  rewrite (completeSale_offline_ok u isAdmin' (put_isOffline true c) pm now be0 w
             eq_refl Hst).
  rewrite (completeSale_online_ok u isAdmin' (put_isOffline false c) pm now be w
             eq_refl); [|rewrite Eb; exact Hok].
  rewrite !Eb. remember (make_billData c u pm now) as b.
  rewrite trigger_run by (simpl; assumption || reflexivity).
  unfold after_pass, pending. cbn [storage_ok buffer ui sales decrements snd].
  rewrite Hst, Hb. cbn [store_put].
  rewrite (synced_cons_ok be b [] Hok).
  change (synced be []) with (@nil BillData).
  assert (Er : remove_all (ids [b]) [b] = []) by apply remove_all_own_ids.
  rewrite Er. simpl. rewrite app_nil_r. repeat split.
Qed.

Lemma offline_then_sync_equals_online_witness :
  let u := {| uid := "u-1" |} in
  let c := demo_offline_ui in
  let w := world_of demo_offline_ui in
  let auth := {| user := Some u; isAdmin := false |} in
  let w1 := snd (completeSale auth (put_isOffline true c) cash 1000%Z be_down w) in
  let w_off := snd (trigger auth be_ok w1) in
  let w_on := snd (completeSale auth (put_isOffline false c) cash 1000%Z be_ok w) in
  sales w_off = sales w_on /\
  decrements w_off = decrements w_on /\
  sales w_on = sales w ++ [row_of (make_billData c u cash 1000%Z)] /\
  buffer w_off = [] /\ buffer w_on = [] /\
  pendingSaleCount (ui w_off) = 0 /\
  isSyncing (ui w_off) = false.
Proof.
  exact (offline_then_sync_equals_online {| uid := "u-1" |} false demo_offline_ui cash
           1000%Z be_down be_ok (world_of demo_offline_ui)
           eq_refl eq_refl eq_refl eq_refl).
Defined.

(* ================================================================== *)
(** ** More on one pass of the sync controller                          *)
(* ================================================================== *)

(** X9. A pass loses no sale and invents none: every buffered record is
    afterwards either still buffered (its commit failed) or gone from the
    buffer with its row in the sales table (its commit succeeded), never
    both; nothing enters the buffer; the buffer stays keyed; and every row
    the pass adds is the row of a record that was buffered. *)
Theorem sync_pass_loses_no_sale (auth : Auth) (be : Backend) (w : World) :
  logged_in auth = true ->
  ready w ->
  let w' := snd (trigger auth be w) in
  (forall b, In b (buffer w) ->
     (insert_error be b = None /\ ~ In b (buffer w') /\ In (row_of b) (sales w')) \/
     (insert_error be b <> None /\ In b (buffer w'))) /\
  (forall b, In b (buffer w') -> In b (buffer w)) /\
  NoDup (ids (buffer w')) /\
  exists rows,
    sales w' = sales w ++ rows /\
    forall r, In r rows -> exists b, In b (buffer w) /\ r = row_of b.
Proof.
  intros Hu Hr w'.
  assert (E : w' = after_pass auth be w).
  { unfold w'. rewrite (trigger_run auth be w (proj1 Hr) Hu). reflexivity. }
  rewrite E, (after_pass_buffer auth be w Hr). unfold after_pass. cbn [sales].
  rewrite (pending_ready w Hr).
  split; [|split; [|split]].
  - intros b Hb. destruct (insert_error be b) as [m|] eqn:Ei.
    + right. split; [discriminate|]. apply In_remove_all. split; [exact Hb|].
      intros Hx. apply In_ids in Hx. destruct Hx as (x & Hx & Ex).
      apply In_synced in Hx. destruct Hx as [Hx Hok].
      assert (x = b) by (apply (NoDup_ids_inj (buffer w)); try assumption; apply Hr).
      subst x. congruence.
    + left. split; [reflexivity|]. split.
      * intros Hx. apply In_remove_all in Hx. destruct Hx as [_ Hx]. apply Hx.
        apply In_ids. exists b. split; [apply In_synced; tauto|reflexivity].
      * apply in_or_app. right. apply in_map. apply In_synced. tauto.
  - intros b Hb. apply In_remove_all in Hb. tauto.
  - apply NoDup_ids_remove_all. apply Hr.
  - exists (map row_of (synced be (buffer w))). split; [reflexivity|].
    intros r Hin. apply in_map_iff in Hin. destruct Hin as (b & <- & Hb).
    exists b. apply In_synced in Hb. tauto.
Qed.

Lemma sync_pass_loses_no_sale_witness :
  let auth := demo_auth in
  let be := be_reject "INV-2" in
  let w := demo_world [demo_bill "INV-1"; demo_bill "INV-2"; demo_bill "INV-3"] in
  let w' := snd (trigger auth be w) in
  (forall b, In b (buffer w) ->
     (insert_error be b = None /\ ~ In b (buffer w') /\ In (row_of b) (sales w')) \/
     (insert_error be b <> None /\ In b (buffer w'))) /\
  (forall b, In b (buffer w') -> In b (buffer w)) /\
  NoDup (ids (buffer w')) /\
  exists rows,
    sales w' = sales w ++ rows /\
    forall r, In r rows -> exists b, In b (buffer w) /\ r = row_of b.
Proof.
  apply (sync_pass_loses_no_sale demo_auth (be_reject "INV-2")
           (demo_world [demo_bill "INV-1"; demo_bill "INV-2"; demo_bill "INV-3"])).
  - reflexivity.
  - apply demo_ready. repeat constructor; simpl; intuition discriminate.
Defined.

(** X10. When the backend rejects every insert, a pass changes nothing that
    matters: the buffer, the sales table and the stock are as before, every
    record was still attempted and has its [console.error] line, no 'Sync
    Complete' toast is shown, the pending count is the size of the buffer and
    the flag is down again, so the next trigger retries. *)
Theorem sync_pass_with_backend_down (auth : Auth) (be : Backend) (w : World) :
  logged_in auth = true ->
  ready w ->
  (forall b, In b (buffer w) -> insert_error be b <> None) ->
  let w' := snd (trigger auth be w) in
  buffer w' = buffer w /\ sales w' = sales w /\ decrements w' = decrements w /\
  pendingSaleCount (ui w') = length (buffer w) /\
  isSyncing (ui w') = false /\
  exists evs,
    trace w' = trace w ++ evs /\
    attempts evs = buffer w /\ commits evs = [] /\ deletes evs = [] /\
    sync_complete_counts evs = [] /\
    length (console_errors evs) = length (buffer w).
Proof.
  intros Hu Hr Hall w'.
  assert (E : w' = after_pass auth be w).
  { unfold w'. rewrite (trigger_run auth be w (proj1 Hr) Hu). reflexivity. }
  pose proof (pending_ready w Hr) as Hp.
  pose proof (synced_none be (buffer w) Hall) as Hs.
  destruct (pass_events_proj auth be w) as (Ha & Hc & Hd & _ & Ht).
  pose proof (pass_events_errors auth be w) as He.
  rewrite Hp in Ha, Hc, Hd, Ht, He. rewrite Hs in Hc, Hd, Ht.
  rewrite E. unfold after_pass. cbn [buffer sales decrements ui trace].
  rewrite Hp, Hs. change (ids []) with (@nil string).
  rewrite !remove_all_nil. simpl. rewrite !app_nil_r.
  repeat split.
  exists (pass_events auth be w). repeat split; try assumption.
  rewrite He. unfold failures. clear - Hall.
  induction (buffer w) as [|x l IH]; [reflexivity|].
  cbn [flat_map]. rewrite length_app, IH by (intros b Hb; apply Hall; right; exact Hb).
  destruct (insert_error be x) eqn:Ex; [reflexivity|].
  exfalso. apply (Hall x (or_introl eq_refl)). exact Ex.
Qed.

Lemma sync_pass_with_backend_down_witness :
  let auth := demo_auth in
  let w := demo_world [demo_bill "INV-1"; demo_bill "INV-2"] in
  let w' := snd (trigger auth be_down w) in
  buffer w' = buffer w /\ sales w' = sales w /\ decrements w' = decrements w /\
  pendingSaleCount (ui w') = length (buffer w) /\
  isSyncing (ui w') = false /\
  exists evs,
    trace w' = trace w ++ evs /\
    attempts evs = buffer w /\ commits evs = [] /\ deletes evs = [] /\
    sync_complete_counts evs = [] /\
    length (console_errors evs) = length (buffer w).
Proof.
  apply (sync_pass_with_backend_down demo_auth be_down
           (demo_world [demo_bill "INV-1"; demo_bill "INV-2"])).
  - reflexivity.
  - apply demo_ready. repeat constructor; simpl; intuition discriminate.
  - intros b _. discriminate.
Defined.

(** X11. When every insert succeeds, a pass drains the buffer: the buffer is
    empty, the pending count is 0, the sales table gained the rows of the
    buffered records in buffer order, and the toasts are 'Syncing...' and
    'Sync Complete' with the number of records; with nothing buffered the
    pass reads the buffer once, shows no toast and calls nothing. *)
Theorem sync_pass_drains_buffer (auth : Auth) (be : Backend) (w : World) :
  logged_in auth = true ->
  ready w ->
  (forall b, In b (buffer w) -> insert_error be b = None) ->
  let w' := snd (trigger auth be w) in
  buffer w' = [] /\ pendingSaleCount (ui w') = 0 /\ isSyncing (ui w') = false /\
  sales w' = sales w ++ map row_of (buffer w) /\
  exists evs,
    trace w' = trace w ++ evs /\
    commits evs = buffer w /\ deletes evs = ids (buffer w) /\
    console_errors evs = [] /\
    (buffer w = [] -> evs = [EvGetOfflineSales []]) /\
    (buffer w <> [] ->
     toasts evs = [ToastSyncing (length (buffer w));
                   ToastSyncComplete (length (buffer w))]).
Proof.
  intros Hu Hr Hall w'.
  assert (E : w' = after_pass auth be w).
  { unfold w'. rewrite (trigger_run auth be w (proj1 Hr) Hu). reflexivity. }
  pose proof (pending_ready w Hr) as Hp.
  pose proof (synced_all be (buffer w) Hall) as Hs.
  destruct (pass_events_proj auth be w) as (Ha & Hc & Hd & _ & Ht).
  pose proof (pass_events_errors auth be w) as He.
  rewrite Hp in Ha, Hc, Hd, Ht, He. rewrite Hs in Hc, Hd, Ht.
  rewrite E. unfold after_pass. cbn [buffer sales decrements ui trace].
  rewrite Hp, Hs, remove_all_own_ids. simpl.
  repeat split.
  exists (pass_events auth be w). repeat split; try assumption.
  - rewrite He. unfold failures. clear - Hall.
    induction (buffer w) as [|x l IH]; [reflexivity|].
    cbn [flat_map]. rewrite IH by (intros b Hb; apply Hall; right; exact Hb).
    rewrite (Hall x (or_introl eq_refl)). reflexivity.
  - intros Hb. unfold pass_events. rewrite Hp, Hb. reflexivity.
  - intros Hb. unfold pass_events. rewrite Hp, Hs.
    destruct (buffer w) as [|x l] eqn:Eb; [contradiction|].
    remember (x :: l) as snap.
    cbn [toasts]. rewrite !toasts_app.
    destruct (loop_events_proj auth be snap) as (_ & _ & _ & _ & ->).
    subst snap. reflexivity.
Qed.

Lemma sync_pass_drains_buffer_witness :
  let auth := demo_auth in
  let w := demo_world [demo_bill "INV-1"; demo_bill "INV-2"] in
  let w' := snd (trigger auth be_ok w) in
  buffer w' = [] /\ pendingSaleCount (ui w') = 0 /\ isSyncing (ui w') = false /\
  sales w' = sales w ++ map row_of (buffer w) /\
  exists evs,
    trace w' = trace w ++ evs /\
    commits evs = buffer w /\ deletes evs = ids (buffer w) /\
    console_errors evs = [] /\
    (buffer w = [] -> evs = [EvGetOfflineSales []]) /\
    (buffer w <> [] ->
     toasts evs = [ToastSyncing (length (buffer w));
                   ToastSyncComplete (length (buffer w))]).
Proof.
  apply (sync_pass_drains_buffer demo_auth be_ok
           (demo_world [demo_bill "INV-1"; demo_bill "INV-2"])).
  - reflexivity.
  - apply demo_ready. repeat constructor; simpl; intuition discriminate.
  - intros b _. reflexivity.
Defined.

(** [proceedToPayment] opens the payment dialog and assigns a bill
    identifier only for a non-empty cart with a customer phone.  Otherwise it
    shows exactly one destructive toast, leaves the dialogs and the pending
    [billId] as they were, and, when only the phone is missing, switches to
    the customer tab.  It never touches the buffer or the backend. *)
Theorem proceedToPayment_guards (c : Ui) (now : Z) (w : World) :
  let w' := snd (proceedToPayment c now w) in
  fst (proceedToPayment c now w) = Returned tt /\
  buffer w' = buffer w /\ sales w' = sales w /\ decrements w' = decrements w /\
  cart (ui w') = cart (ui w) /\
  match cart c, c_phone (customerForm c) with
  | [], _ =>
      ui w' = ui w /\ trace w' = trace w ++ [EvToast ToastEmptyCart]
  | _ :: _, EmptyString =>
      ui w' = put_activeTab "customer" (ui w) /\
      trace w' = trace w ++ [EvToast ToastCustomerInfoMissing]
  | _ :: _, String _ _ =>
      paymentBillId (ui w') = ("INV-" ++ string_of_Z now)%string /\
      payment (dialogs (ui w')) = true /\
      trace w' = trace w
  end.
Proof.
  intros w'. subst w'. unfold proceedToPayment.
  destruct (cart c) as [|x l]; simpl.
  - unfold toast, emit, modify. simpl. repeat split.
  - destruct (c_phone (customerForm c)) as [|a s]; simpl.
    + unfold bind, toast, emit, modify, setActiveTab, modify. simpl. repeat split.
    + unfold bind, setPaymentBillId, setDialogs, modify. simpl. repeat split.
Qed.

Lemma length_stock_split (be : Backend) (its : list BillItem) :
  length (stock_applied be its) + length (stock_warnings be its) = length its.
Proof.
  unfold stock_applied, stock_warnings.
  induction its as [|it its IH]; [reflexivity|].
  cbn [flat_map]. rewrite !length_app.
  destruct (stock_error be (id it) (cart_quantity it)); simpl in *; lia.
Qed.

(** X12. After a successful insert every line item of the bill is accounted
    for exactly once: its stock decrement was either applied or answered
    with an error that produced one warning, so the applied decrements and
    the warnings together number the line items; and the applied decrements
    are exactly the lines the backend accepted, in bill order. *)
Theorem every_line_decremented_or_warned
    (auth : Auth) (be : Backend) (b : BillData) (w : World) :
  insert_error be b = None ->
  let w' := snd (mutateAsync auth be b w) in
  exists applied evs,
    decrements w' = decrements w ++ applied /\
    trace w' = trace w ++ evs /\
    length applied + length (warnings evs) = length (items b) /\
    applied =
      map (fun it => (id it, cart_quantity it))
          (filter (fun it => match stock_error be (id it) (cart_quantity it) with
                             | None => true
                             | Some _ => false
                             end) (items b)).
Proof.
  intros Hok w'. subst w'. rewrite (mutateAsync_ok auth be b w Hok). simpl.
  exists (stock_applied be (items b)), (commit_events auth be b).
  split; [reflexivity|]. split; [reflexivity|].
  split.
  - unfold commit_events. cbn [warnings].
    rewrite warnings_app, warnings_stock_events. simpl. rewrite app_nil_r.
    apply length_stock_split.
  - unfold stock_applied. induction (items b) as [|it its IH]; [reflexivity|].
    cbn [flat_map filter].
    destruct (stock_error be (id it) (cart_quantity it)); simpl; rewrite IH; reflexivity.
Qed.

Lemma every_line_decremented_or_warned_witness :
  let b := demo_bill "INV-1" in
  let w := demo_world [] in
  let w' := snd (mutateAsync demo_auth (be_reject "INV-9") b w) in
  exists applied evs,
    decrements w' = decrements w ++ applied /\
    trace w' = trace w ++ evs /\
    length applied + length (warnings evs) = length (items b) /\
    applied =
      map (fun it => (id it, cart_quantity it))
          (filter (fun it => match stock_error (be_reject "INV-9") (id it)
                                     (cart_quantity it) with
                             | None => true
                             | Some _ => false
                             end) (items b)).
Proof.
  exact (every_line_decremented_or_warned demo_auth (be_reject "INV-9")
           (demo_bill "INV-1") (demo_world []) eq_refl).
Defined.

(* ================================================================== *)
(** ** The history panel                                                *)
(* ================================================================== *)

Lemma is_empty_spec (s : string) : is_empty s = true <-> s = "".
Proof. destruct s; simpl; split; intros H; congruence. Qed.

Lemma map_has_In (groups : GroupMap) (k : string) :
  map_has groups k = true <-> In k (map fst groups).
Proof.
  unfold map_has. rewrite existsb_exists, in_map_iff.
  split; intros (e & H1 & H2).
  - exists e. apply String.eqb_eq in H2. tauto.
  - exists e. split; [exact H2|]. apply String.eqb_eq. exact H1.
Qed.

Lemma map_push_keys (k : string) (s : Sale) (groups : GroupMap) :
  map fst (map_push k s groups) = map fst groups.
Proof.
  induction groups as [|[k' g'] rest IH]; simpl; [reflexivity|].
  destruct (String.eqb k' k); simpl; [reflexivity|]. rewrite IH. reflexivity.
Qed.

Lemma In_map_push (k : string) (s : Sale) (groups : GroupMap) (k' : string)
    (g' : CustomerGroup) :
  NoDup (map fst groups) ->
  In (k', g') (map_push k s groups) ->
  (k' <> k /\ In (k', g') groups) \/
  (k' = k /\ exists g, In (k, g) groups /\
     g' = {| group_name := group_name g; group_sales := group_sales g ++ [s] |}).
Proof.
  induction groups as [|[k0 g0] rest IH]; simpl; intros Hnd Hin; [contradiction|].
  inversion Hnd as [|? ? Hk Hrest]; subst.
  destruct (String.eqb k0 k) eqn:E.
  - apply String.eqb_eq in E. subst k0. destruct Hin as [Hin|Hin].
    + injection Hin as <- <-. right. split; [reflexivity|].
      exists g0. split; [left; reflexivity|reflexivity].
    + left. split; [|right; exact Hin].
      intros ->. apply Hk. apply in_map_iff. exists (k, g'). split; [reflexivity|exact Hin].
  - apply String.eqb_neq in E. destruct Hin as [Hin|Hin].
    + injection Hin as <- <-. left. split; [exact E|left; reflexivity].
    + destruct (IH Hrest Hin) as [[H1 H2]|[H1 (g & H2 & H3)]].
      * left. split; [exact H1|right; exact H2].
      * right. split; [exact H1|]. exists g. split; [right; exact H2|exact H3].
Qed.

Lemma map_set_new (k : string) (g : CustomerGroup) (groups : GroupMap) :
  map_has groups k = false -> map_set k g groups = groups ++ [(k, g)].
Proof.
  unfold map_has. induction groups as [|[k' g'] rest IH]; simpl; intros H; [reflexivity|].
  apply orb_false_iff in H. destruct H as [H1 H2]. rewrite H1, IH by exact H2.
  reflexivity.
Qed.

Lemma map_push_last (k : string) (s : Sale) (g : CustomerGroup) (groups : GroupMap) :
  map_has groups k = false ->
  map_push k s (groups ++ [(k, g)]) =
  groups ++ [(k, {| group_name := group_name g; group_sales := group_sales g ++ [s] |})].
Proof.
  unfold map_has. induction groups as [|[k' g'] rest IH]; simpl; intros H.
  - rewrite String.eqb_refl. reflexivity.
  - apply orb_false_iff in H. destruct H as [H1 H2]. rewrite H1, IH by exact H2.
    reflexivity.
Qed.

Lemma sales_of_snoc (k : string) (h : list Sale) (s : Sale) :
  sales_of k (h ++ [s]) =
  sales_of k h ++ (if String.eqb (sale_customer_phone s) k then [s] else []).
Proof. unfold sales_of. rewrite filter_app. reflexivity. Qed.

Lemma sales_of_none (k : string) (h : list Sale) :
  (forall s, In s h -> sale_customer_phone s <> k) -> sales_of k h = [].
Proof.
  unfold sales_of. induction h as [|x h IH]; simpl; intros H; [reflexivity|].
  destruct (String.eqb (sale_customer_phone x) k) eqn:E.
  - apply String.eqb_eq in E. exfalso. apply (H x); [left; reflexivity|exact E].
  - apply IH. intros s Hs. apply H. right. exact Hs.
Qed.

Lemma grouped_add (h : list Sale) (groups : GroupMap) (s : Sale) :
  grouped h groups -> grouped (h ++ [s]) (add_sale groups s).
Proof.
  intros (Hnd & Hg & Hall). unfold add_sale.
  destruct (is_empty (sale_customer_phone s)) eqn:Ee.
  - apply is_empty_spec in Ee. split; [exact Hnd|]. split.
    + intros k g Hin. destruct (Hg k g Hin) as (Hk & Hs & Hn).
      split; [exact Hk|]. split; [|exact Hn].
      rewrite sales_of_snoc, Ee.
      destruct (String.eqb "" k) eqn:E; [|rewrite app_nil_r; exact Hs].
      apply String.eqb_eq in E. congruence.
    + intros x Hx Hp. apply in_app_or in Hx. destruct Hx as [Hx|[<-|[]]].
      * apply Hall; assumption.
      * contradiction.
  - assert (Hp : sale_customer_phone s <> "").
    { intros H. apply is_empty_spec in H. congruence. }
    set (k0 := sale_customer_phone s) in *.
    destruct (map_has groups k0) eqn:Eh.
    + (* the number is known: the sale joins its group *)
      split; [rewrite map_push_keys; exact Hnd|]. split.
      * intros k g Hin. apply (In_map_push k0 s groups k g Hnd) in Hin.
        destruct Hin as [[Hne Hin]|[-> (g1 & Hin & ->)]].
        -- destruct (Hg k g Hin) as (Hk & Hs & Hn).
           split; [exact Hk|]. split; [|exact Hn].
           rewrite sales_of_snoc. fold k0.
           destruct (String.eqb k0 k) eqn:E; [|rewrite app_nil_r; exact Hs].
           apply String.eqb_eq in E. congruence.
        -- destruct (Hg k0 g1 Hin) as (Hk & Hs & (s1 & rest & Hn & Hname)).
           split; [exact Hk|]. cbn [group_sales group_name]. split.
           ++ rewrite sales_of_snoc. fold k0. rewrite String.eqb_refl, Hs. reflexivity.
           ++ exists s1, (rest ++ [s]). rewrite Hn. split; [reflexivity|exact Hname].
      * intros x Hx Hpx. rewrite map_push_keys.
        apply in_app_or in Hx. destruct Hx as [Hx|[<-|[]]].
        -- apply Hall; assumption.
        -- apply map_has_In. exact Eh.
    + (* a new number: a new group, last in the map *)
      assert (Hnew : ~ In k0 (map fst groups)).
      { intros H. apply map_has_In in H. congruence. }
      rewrite map_set_new by exact Eh. rewrite map_push_last by exact Eh.
      cbn [group_name group_sales app].
      split.
      { rewrite map_app. apply NoDup_app; [exact Hnd|repeat constructor; intros []|].
        intros a Ha [<-|[]]. contradiction. }
      split.
      * intros k g Hin. apply in_app_or in Hin. destruct Hin as [Hin|[Hin|[]]].
        -- destruct (Hg k g Hin) as (Hk & Hs & Hn).
           split; [exact Hk|]. split; [|exact Hn].
           rewrite sales_of_snoc. fold k0.
           destruct (String.eqb k0 k) eqn:E; [|rewrite app_nil_r; exact Hs].
           apply String.eqb_eq in E. subst k. exfalso. apply Hnew.
           apply in_map_iff. exists (k0, g). split; [reflexivity|exact Hin].
        -- injection Hin as <- <-. split; [exact Hp|]. cbn [group_sales group_name].
           split.
           ++ rewrite sales_of_snoc. fold k0. rewrite String.eqb_refl.
              rewrite sales_of_none; [reflexivity|].
              intros x Hx E. apply Hnew. rewrite <- E. apply Hall; [exact Hx|].
              rewrite E. exact Hp.
           ++ exists s, []. split; reflexivity.
      * intros x Hx Hpx. rewrite map_app. apply in_or_app.
        apply in_app_or in Hx. destruct Hx as [Hx|[<-|[]]].
        -- left. apply Hall; assumption.
        -- right. left. reflexivity.
Qed.

Lemma grouped_fold (h2 : list Sale) : forall (h1 : list Sale) (groups : GroupMap),
  grouped h1 groups -> grouped (h1 ++ h2) (fold_left add_sale h2 groups).
Proof.
  induction h2 as [|s h2 IH]; intros h1 groups H; simpl.
  - rewrite app_nil_r. exact H.
  - change (s :: h2) with ([s] ++ h2). rewrite app_assoc.
    apply IH. apply grouped_add. exact H.
Qed.

Lemma grouped_history (h : list Sale) : grouped h (fold_left add_sale h []).
Proof.
  apply (grouped_fold h [] []). split; [constructor|]. split.
  - intros k g [].
  - intros s [].
Qed.

Lemma sort_insert_perm {A} (compare : A -> A -> Z) (x : A) (l : list A) :
  Permutation (sort_insert compare x l) (x :: l).
Proof.
  induction l as [|y l IH]; simpl; [reflexivity|].
  destruct (compare x y <=? 0)%Z; [reflexivity|].
  rewrite IH. apply perm_swap.
Qed.

Lemma array_sort_perm {A} (compare : A -> A -> Z) (l : list A) :
  Permutation (array_sort compare l) l.
Proof.
  unfold array_sort. induction l as [|x l IH]; simpl; [reflexivity|].
  rewrite sort_insert_perm. constructor. exact IH.
Qed.

Lemma sort_insert_sorted {A} (key : A -> Z) (x : A) (l : list A) :
  StronglySorted (fun a b => (key b <= key a)%Z) l ->
  StronglySorted (fun a b => (key b <= key a)%Z)
    (sort_insert (fun a b => (key b - key a)%Z) x l).
Proof.
  induction l as [|y l IH]; simpl; intros H; [repeat constructor|].
  inversion H as [|? ? Hl Hy]; subst.
  destruct (key y - key x <=? 0)%Z eqn:E.
  - apply Z.leb_le in E. constructor; [exact H|].
    constructor; [lia|]. eapply Forall_impl; [|exact Hy]. simpl. intros z Hz. lia.
  - apply Z.leb_gt in E. constructor; [apply IH; exact Hl|].
    assert (P : Permutation (sort_insert (fun a b => (key b - key a)%Z) x l) (x :: l))
      by apply sort_insert_perm.
    apply Forall_forall. intros z Hz.
    apply (Permutation_in _ P) in Hz. destruct Hz as [<-|Hz]; [lia|].
    rewrite Forall_forall in Hy. apply Hy. exact Hz.
Qed.

Lemma array_sort_sorted {A} (key : A -> Z) (l : list A) :
  StronglySorted (fun a b => (key b <= key a)%Z)
    (array_sort (fun a b => (key b - key a)%Z) l).
Proof.
  unfold array_sort. induction l as [|x l IH]; simpl; [constructor|].
  apply sort_insert_sorted. exact IH.
Qed.

Lemma StronglySorted_filter {A} (R : A -> A -> Prop) (p : A -> bool) (l : list A) :
  StronglySorted R l -> StronglySorted R (filter p l).
Proof.
  induction l as [|x l IH]; simpl; intros H; [constructor|].
  inversion H as [|? ? Hl Hx]; subst.
  destruct (p x); [|apply IH; exact Hl].
  constructor; [apply IH; exact Hl|].
  apply Forall_forall. intros z Hz. apply filter_In in Hz.
  rewrite Forall_forall in Hx. apply Hx. tauto.
Qed.

(** Before the search filter: the groups are the values of the map, in some
    order. *)
Lemma sorted_groups_are_the_map (getTime : string -> Z) (h : list Sale)
    (g : CustomerGroup) :
  In g (array_sort (fun a b => (group_time getTime b - group_time getTime a)%Z)
          (map snd (fold_left add_sale h []))) <->
  exists k, In (k, g) (fold_left add_sale h []).
Proof.
  split.
  - intros H. apply (Permutation_in _ (array_sort_perm _ _)) in H.
    apply in_map_iff in H. destruct H as ([k g'] & <- & H). exists k. exact H.
  - intros [k H]. apply (Permutation_in _ (Permutation_sym (array_sort_perm _ _))).
    apply in_map_iff. exists (k, g). split; [reflexivity|exact H].
Qed.

Lemma group_phone_of_entry (h : list Sale) (groups : GroupMap) (k : string)
    (g : CustomerGroup) :
  grouped h groups -> In (k, g) groups -> group_phone g = k.
Proof.
  intros (_ & Hg & _) Hin. destruct (Hg k g Hin) as (_ & Hs & (s & rest & Hn & _)).
  unfold group_phone. rewrite Hn.
  assert (Hin' : In s (sales_of k h)) by (rewrite <- Hs, Hn; left; reflexivity).
  unfold sales_of in Hin'. apply filter_In in Hin'. apply String.eqb_eq. tauto.
Qed.

(** X13. The history panel groups the sales by customer phone: every group
    shown holds at least one sale, holds exactly the sales of the history
    made to its phone number, in history order, and is named after the first
    of them; no two groups share a phone number; sales without a phone are
    in no group; and without a search text every sale that has a phone is in
    the group of its number. *)
Theorem customerGroups_group_by_phone
    (getTime : string -> Z) (toLowerCase : string -> string)
    (salesHistory : list Sale) (historySearch : string) :
  let gs := customerGroups getTime toLowerCase salesHistory historySearch in
  (forall g, In g gs ->
     group_phone g <> "" /\
     group_sales g = sales_of (group_phone g) salesHistory /\
     exists s rest, group_sales g = s :: rest /\
                    group_name g = sale_customer_name s) /\
  NoDup (map group_phone gs) /\
  (forall g s, In g gs -> In s (group_sales g) ->
     In s salesHistory /\ sale_customer_phone s <> "") /\
  (historySearch = "" ->
   forall s, In s salesHistory -> sale_customer_phone s <> "" ->
     exists g, In g gs /\ group_phone g = sale_customer_phone s /\
               In s (group_sales g)).
Proof.
  intros gs.
  pose proof (grouped_history salesHistory) as HG.
  set (G := fold_left add_sale salesHistory []) in *.
  set (sorted := array_sort
                   (fun a b => (group_time getTime b - group_time getTime a)%Z)
                   (map snd G)).
  assert (Hsub : forall g, In g gs -> In g sorted).
  { intros g Hg. unfold gs, customerGroups in Hg. fold G in Hg. fold sorted in Hg.
    destruct (is_empty historySearch); [exact Hg|]. apply filter_In in Hg. tauto. }
  assert (Hent : forall g, In g sorted -> exists k, In (k, g) G).
  { intros g Hg. apply (sorted_groups_are_the_map getTime salesHistory g). exact Hg. }
  assert (Hgroup : forall g, In g gs ->
            group_phone g <> "" /\
            group_sales g = sales_of (group_phone g) salesHistory /\
            exists s rest, group_sales g = s :: rest /\
                           group_name g = sale_customer_name s).
  { intros g Hg. destruct (Hent g (Hsub g Hg)) as [k Hk].
    rewrite (group_phone_of_entry salesHistory G k g HG Hk).
    destruct HG as (_ & H2 & _). apply (H2 k g Hk). }
  split; [exact Hgroup|]. split; [|split].
  - assert (Hnd : NoDup (map group_phone sorted)).
    { apply (Permutation_NoDup (l := map group_phone (map snd G))).
      - apply Permutation_map, Permutation_sym, array_sort_perm.
      - rewrite map_map.
        assert (E : map (fun e => group_phone (snd e)) G = map fst G).
        { apply map_ext_in. intros [k g] Hin. simpl.
          apply (group_phone_of_entry salesHistory G k g HG Hin). }
        rewrite E. apply HG. }
    unfold gs, customerGroups. fold G. fold sorted.
    destruct (is_empty historySearch); [exact Hnd|].
    apply NoDup_map_filter. exact Hnd.
  - intros g s Hg Hs. destruct (Hgroup g Hg) as (Hp & Hsales & _).
    rewrite Hsales in Hs. unfold sales_of in Hs. apply filter_In in Hs.
    destruct Hs as [Hin He]. apply String.eqb_eq in He. split; [exact Hin|congruence].
  - intros -> s Hs Hp. unfold gs, customerGroups. fold G. fold sorted. simpl.
    destruct HG as (H1 & H2 & H3).
    pose proof (H3 s Hs Hp) as Hk. apply in_map_iff in Hk.
    destruct Hk as ([k g] & Ek & Hin). simpl in Ek. subst k.
    exists g. split.
    + apply (sorted_groups_are_the_map getTime salesHistory g). eexists. exact Hin.
    + split; [apply (group_phone_of_entry salesHistory G _ g (conj H1 (conj H2 H3)) Hin)|].
      destruct (H2 _ g Hin) as (_ & -> & _). unfold sales_of. apply filter_In.
      split; [exact Hs|apply String.eqb_refl].
Qed.

(** X14. The groups are shown most recent first: each group's first sale is
    at least as recent as the first sale of every group after it, with or
    without a search text. *)
Theorem customerGroups_most_recent_first
    (getTime : string -> Z) (toLowerCase : string -> string)
    (salesHistory : list Sale) (historySearch : string) :
  StronglySorted (fun a b => (group_time getTime b <= group_time getTime a)%Z)
    (customerGroups getTime toLowerCase salesHistory historySearch).
Proof.
  unfold customerGroups.
  destruct (is_empty historySearch).
  - apply (array_sort_sorted (group_time getTime)).
  - apply StronglySorted_filter. apply (array_sort_sorted (group_time getTime)).
Qed.

(** The sample history, grouped. *)
Example demo_customerGroups :
  map (fun g => (group_name g, map sale_id (group_sales g)))
      (customerGroups demo_getTime (fun s => s) demo_history "")
  = [("Asha", ["s5"; "s2"]); ("Ravi", ["s3"; "s1"])].
Proof. vm_compute. reflexivity. Qed.

(* ================================================================== *)
(** ** The inventory dashboard                                          *)
(* ================================================================== *)

(** X15. The status badge and the tabs of the inventory dashboard agree on
    stock that is not negative: 'inactive' lists exactly the Inactive items,
    'out' exactly the Out of Stock ones, 'low' exactly the Low Stock ones,
    and 'active' the Low Stock and In Stock ones.  An available item with a
    negative quantity gets a Low Stock or In Stock badge but is on none of
    these four tabs. *)
Theorem stock_status_matches_tabs (item : Product) :
  (getStockStatus item = Inactive <-> matchesTab "inactive" item = true) /\
  (getStockStatus item = OutOfStock <-> matchesTab "out" item = true) /\
  (matchesTab "low" item = true -> getStockStatus item = LowStock) /\
  ((0 <= p_quantity item)%Z ->
     (getStockStatus item = LowStock <-> matchesTab "low" item = true) /\
     (getStockStatus item = LowStock \/ getStockStatus item = InStock
      <-> matchesTab "active" item = true)) /\
  ((p_quantity item < 0)%Z -> p_is_available item = true ->
     (getStockStatus item = LowStock \/ getStockStatus item = InStock) /\
     matchesTab "active" item = false /\ matchesTab "low" item = false /\
     matchesTab "out" item = false /\ matchesTab "inactive" item = false).
Proof.
  unfold getStockStatus, matchesTab. simpl.
  destruct (p_is_available item); simpl.
  - destruct (Z.eqb_spec (p_quantity item) 0) as [E0|E0];
      destruct (Z.ltb_spec 0 (p_quantity item)) as [Ep|Ep];
      destruct (Z.leb_spec (p_quantity item) (p_low_stock_threshold item)) as [El|El];
      simpl; repeat split; intros; try discriminate; try lia; try reflexivity;
      try tauto;
      try (match goal with H : _ \/ _ |- _ => destruct H; discriminate end);
      auto.
  - repeat split; intros; try discriminate; try reflexivity;
      try (match goal with H : _ \/ _ |- _ => destruct H; discriminate end).
Qed.

Lemma includes_empty (s : string) : includes s "" = true.
Proof. unfold includes. destruct s; reflexivity. Qed.

Lemma filteredItems_no_search (toLowerCase : string -> string) (l : list Product)
    (tab : string) :
  toLowerCase "" = "" ->
  filteredItems toLowerCase l "" "all" tab = filter (matchesTab tab) l.
Proof.
  intros H. unfold filteredItems. apply filter_ext. intros item.
  rewrite H, includes_empty. reflexivity.
Qed.

Lemma length_three_way {A} (p1 p2 p3 : A -> bool) (l : list A) :
  (forall x, In x l ->
     (p1 x = true /\ p2 x = false /\ p3 x = false) \/
     (p1 x = false /\ p2 x = true /\ p3 x = false) \/
     (p1 x = false /\ p2 x = false /\ p3 x = true)) ->
  length l = length (filter p1 l) + length (filter p2 l) + length (filter p3 l).
Proof.
  induction l as [|x l IH]; intros H; [reflexivity|].
  simpl. rewrite IH by (intros y Hy; apply H; right; exact Hy).
  destruct (H x (or_introl eq_refl)) as [(-> & -> & ->)|[(-> & -> & ->)|(-> & -> & ->)]];
    simpl; lia.
Qed.

(** X16. The counters above the inventory table are the sizes of the tabs
    when nothing is searched and every category is selected: the total is
    the size of 'all', Low Stock the size of 'low', Out of Stock the size of
    'out'; and when no quantity is negative the 'active', 'out' and
    'inactive' tabs split the products, so their sizes add up to the total. *)
Theorem inventory_stats_match_tabs
    (toLowerCase : string -> string) (l : list Product) :
  toLowerCase "" = "" ->
  let stats := inventory_stats l in
  let tab := fun t => length (filteredItems toLowerCase l "" "all" t) in
  totalItems stats = tab "all" /\
  lowStockItems stats = tab "low" /\
  outOfStockItems stats = tab "out" /\
  (Forall (fun item => (0 <= p_quantity item)%Z) l ->
   totalItems stats = tab "active" + tab "out" + tab "inactive").
Proof.
  intros H stats tab. subst stats tab. cbv beta.
  rewrite !(filteredItems_no_search toLowerCase l _ H).
  unfold inventory_stats. cbn [totalItems lowStockItems outOfStockItems].
  split.
  { f_equal. symmetry. apply forallb_filter_id. apply forallb_forall. reflexivity. }
  split; [reflexivity|]. split; [reflexivity|].
  intros Hq. apply length_three_way. intros x Hx.
  rewrite Forall_forall in Hq. specialize (Hq x Hx).
  unfold matchesTab. simpl.
  destruct (p_is_available x); simpl.
  - destruct (Z.eqb_spec (p_quantity x) 0) as [E0|E0];
      destruct (Z.ltb_spec 0 (p_quantity x)) as [Ep|Ep]; try lia; tauto.
  - tauto.
Qed.

Lemma inventory_stats_match_tabs_witness :
  let stats := inventory_stats demo_products in
  let tab := fun t => length (filteredItems (fun s => s) demo_products "" "all" t) in
  totalItems stats = tab "all" /\
  lowStockItems stats = tab "low" /\
  outOfStockItems stats = tab "out" /\
  (Forall (fun item => (0 <= p_quantity item)%Z) demo_products ->
   totalItems stats = tab "active" + tab "out" + tab "inactive").
Proof.
  apply (inventory_stats_match_tabs (fun s => s) demo_products). reflexivity.
Defined.

(* ================================================================== *)
(** ** How the operations compose                                       *)
(* ================================================================== *)

Lemma remaining_all_fail (be : Backend) (l : list BillData) (b : BillData) :
  In b (remove_all (ids (synced be l)) l) -> insert_error be b <> None.
Proof.
  intros H Hok. apply In_remove_all in H. destruct H as [Hin Hn]. apply Hn.
  apply In_ids. exists b. split; [apply In_synced; tauto|reflexivity].
Qed.

(** X17. A pass is idempotent for a backend that answers the same way: a
    second pass right after the first attempts only the records that failed,
    they fail again, and the buffer, the sales table, the stock and the
    pending count end as the first pass left them. *)
Theorem sync_pass_idempotent (auth : Auth) (be : Backend) (w : World) :
  logged_in auth = true ->
  ready w ->
  let w1 := snd (trigger auth be w) in
  let w2 := snd (trigger auth be w1) in
  buffer w2 = buffer w1 /\ sales w2 = sales w1 /\ decrements w2 = decrements w1 /\
  pendingSaleCount (ui w2) = pendingSaleCount (ui w1) /\
  isSyncing (ui w2) = false /\
  exists evs, trace w2 = trace w1 ++ evs /\ attempts evs = buffer w1 /\ commits evs = [].
Proof.
  intros Hu Hr w1 w2.
  assert (E1 : w1 = after_pass auth be w).
  { unfold w1. rewrite (trigger_run auth be w (proj1 Hr) Hu). reflexivity. }
  assert (Hr1 : ready w1) by (rewrite E1; apply after_pass_ready; exact Hr).
  assert (E2 : w2 = after_pass auth be w1).
  { unfold w2. rewrite (trigger_run auth be w1 (proj1 Hr1) Hu). reflexivity. }
  assert (Hfail : forall b, In b (buffer w1) -> insert_error be b <> None).
  { intros b Hb. rewrite E1, (after_pass_buffer auth be w Hr) in Hb.
    apply (remaining_all_fail be (buffer w) b Hb). }
  pose proof (synced_none be (buffer w1) Hfail) as Hs.
  pose proof (pending_ready w1 Hr1) as Hp1.
  assert (Hc1 : pendingSaleCount (ui w1) = length (buffer w1)).
  { rewrite E1 at 1. unfold after_pass. cbn [ui pendingSaleCount put_isSyncing
      put_pendingSaleCount]. rewrite (pending_ready w Hr).
    rewrite E1, (after_pass_buffer auth be w Hr). reflexivity. }
  destruct (pass_events_proj auth be w1) as (Ha & Hc & _).
  rewrite Hp1 in Ha, Hc. rewrite Hs in Hc.
  rewrite E2. unfold after_pass. cbn [buffer sales decrements ui trace
    pendingSaleCount isSyncing put_isSyncing put_pendingSaleCount].
  rewrite Hp1, Hs. change (ids []) with (@nil string).
  rewrite !remove_all_nil. simpl. rewrite !app_nil_r.
  repeat split; [symmetry; exact Hc1|].
  exists (pass_events auth be w1). repeat split; assumption.
Qed.

Lemma sync_pass_idempotent_witness :
  let auth := demo_auth in
  let be := be_reject "INV-2" in
  let w := demo_world [demo_bill "INV-1"; demo_bill "INV-2"; demo_bill "INV-3"] in
  let w1 := snd (trigger auth be w) in
  let w2 := snd (trigger auth be w1) in
  buffer w2 = buffer w1 /\ sales w2 = sales w1 /\ decrements w2 = decrements w1 /\
  pendingSaleCount (ui w2) = pendingSaleCount (ui w1) /\
  isSyncing (ui w2) = false /\
  exists evs, trace w2 = trace w1 ++ evs /\ attempts evs = buffer w1 /\ commits evs = [].
Proof.
  apply (sync_pass_idempotent demo_auth (be_reject "INV-2")
           (demo_world [demo_bill "INV-1"; demo_bill "INV-2"; demo_bill "INV-3"])).
  - reflexivity.
  - apply demo_ready. repeat constructor; simpl; intuition discriminate.
Defined.



